(** * mini-one: the debit-card ledger of [lib/storage/models]

    A shallow embedding of the [Transaction] and [DebitCard] models
    ([lib/storage/models/debitCard.js]) and of the two scheduled jobs,
    [validatePending] and [addBalanceInterest]; then of the refund method,
    the account-number generator, the validators of [lib/util/helpers.js]
    and the route that creates a transaction.

    Modelling conventions.
    - A JavaScript number is [NaN] or a finite value; finite doubles are
      idealised as exact rationals ([Q]).  [NaN] is kept because
      [undefined + x] produces it.  Infinities are outside the model.
    - The MongoDB collections are lists inside a [World]; every call that
      reaches the database goes through [storage], which consults the
      world's fault schedule, so any read or write may throw.
    - [async] code is sequential here: an [await] is a monadic bind.  Effects
      made before an exception is thrown survive it, as in JavaScript, which
      is why the monad returns the world next to a thrown exception.
    - [new Date()] reads the world's clock; an [ObjectId] is a natural
      number handed out by a counter and printed in decimal. *)

From Stdlib Require Import ZArith QArith Qround Qabs Lqa Lia.
From Stdlib Require Import List String Ascii Bool Permutation.
From Stdlib Require Import DecimalString DecimalNat.
From Stdlib Require DecimalFacts DecimalPos DecimalN Sorted.
Import ListNotations.

Local Open Scope string_scope.
Local Open Scope Z_scope.

(** ** JavaScript values *)

Inductive JsNum : Type :=
| NaN
| Fin (q : Q).

Inductive JsVal : Type :=
| JUndefined
| JNull
| JBool (b : bool)
| JNum (n : JsNum)
| JStr (s : string).

Definition typeof (v : JsVal) : string :=
  match v with
  | JUndefined => "undefined"
  | JNull => "object"
  | JBool _ => "boolean"
  | JNum _ => "number"
  | JStr _ => "string"
  end.

(** [ToNumber] of a property read: a missing property is [undefined],
    which arithmetic turns into [NaN]. *)
Definition num_of_prop (p : option Q) : JsNum :=
  match p with
  | None => NaN
  | Some q => Fin q
  end.

Definition js_add (a b : JsNum) : JsNum :=
  match a, b with
  | Fin x, Fin y => Fin (x + y)
  | _, _ => NaN
  end.

Definition js_mul (a b : JsNum) : JsNum :=
  match a, b with
  | Fin x, Fin y => Fin (x * y)
  | _, _ => NaN
  end.

Definition js_div (a b : JsNum) : JsNum :=
  match a, b with
  | Fin x, Fin y => if Qeq_bool y 0 then NaN else Fin (x / y)
  | _, _ => NaN
  end.

Definition Qlt_bool (x y : Q) : bool := negb (Qle_bool y x).

(** [a < b]: every comparison with [NaN] is false. *)
Definition js_lt (a b : JsNum) : bool :=
  match a, b with
  | Fin x, Fin y => Qlt_bool x y
  | _, _ => false
  end.

Definition js_le (a b : JsNum) : bool :=
  match a, b with
  | Fin x, Fin y => Qle_bool x y
  | _, _ => false
  end.

Definition js_ge (a b : JsNum) : bool := js_le b a.

(** [a !== b] on numbers: [NaN] differs from everything, itself included. *)
Definition js_strict_ne (a b : JsNum) : bool :=
  match a, b with
  | Fin x, Fin y => negb (Qeq_bool x y)
  | _, _ => true
  end.

(** [Math.round]: the nearest integer, halves towards plus infinity. *)
Definition Qround_half_up (x : Q) : Z := Qfloor (x + (1 # 2)).

Definition Math_round (a : JsNum) : JsNum :=
  match a with
  | NaN => NaN
  | Fin x => Fin (inject_Z (Qround_half_up x))
  end.

(** [Math.round(x * 100) / 100] on a finite number. *)
Definition round2 (x : Q) : Q := inject_Z (Qround_half_up (x * 100)) / 100.

(** [Array.prototype.includes] on an array of string literals. *)
Definition includes (l : list string) (v : JsVal) : bool :=
  match v with
  | JStr s => existsb (String.eqb s) l
  | _ => false
  end.

(** [String.prototype.toUpperCase], on ASCII letters. *)
Definition upper_ascii (c : ascii) : ascii :=
  let n := nat_of_ascii c in
  if (andb (97 <=? n) (n <=? 122))%nat then ascii_of_nat (n - 32) else c.

Fixpoint toUpperCase (s : string) : string :=
  match s with
  | EmptyString => EmptyString
  | String c r => String (upper_ascii c) (toUpperCase r)
  end.

(** ** Errors ([lib/util/handledError.js]) *)

Record HandledError : Type := mkHandled { message : string; code : Z }.

(** What a [throw] carries: a [HandledError] ([err.handled] is true) or
    anything else (a driver error, a [TypeError]). *)
Inductive Exn : Type :=
| Handled (e : HandledError)
| Unhandled (what : string).

(** ** The data model *)

Definition ObjectId : Type := nat.

Definition oid_toString (i : ObjectId) : string :=
  NilEmpty.string_of_uint (Nat.to_uint i).

Inductive TxType : Type := Debit | Withdrawal.

Inductive TxSubtype : Type :=
| Credit | Refund | Interest | Cashback
| Purchase | Fee | Transfer.

Inductive TxStatus : Type := Pending | Completed | Failed | Canceled.

Definition TRANSACTION_TYPES : list string := ["debit"; "withdrawal"].
Definition TRANSACTION_DEBIT_SUBTYPES : list string :=
  ["credit"; "refund"; "interest"; "cashback"].
Definition TRANSACTION_WITHDRAWAL_SUBTYPES : list string :=
  ["purchase"; "fee"; "transfer"].
Definition CASHBACK_VENDERS : list string := ["WLMRT"; "AMZN"; "APPL"].
Definition FIVE_DAYS : Z := 5 * 24 * 60 * 60 * 1000.

(** [CASHBACK_RATE], [INTEREST_RATE] and [MAX_NEGATIVE_BALANCE] are read
    from [process.env] when the module is loaded. *)
Record Config : Type := mkConfig {
  CASHBACK_RATE : Q;
  INTEREST_RATE : Q;
  MAX_NEGATIVE_BALANCE : Q
}.

(** The values used when the environment sets none. *)
Definition default_config : Config :=
  {| CASHBACK_RATE := 1 # 100;
     INTEREST_RATE := 1 # 100;
     MAX_NEGATIVE_BALANCE := - (100) |}.

Definition type_of_string (s : string) : TxType :=
  if String.eqb s "debit" then Debit else Withdrawal.

Definition subtype_of_string (s : string) : TxSubtype :=
  if String.eqb s "credit" then Credit
  else if String.eqb s "refund" then Refund
  else if String.eqb s "interest" then Interest
  else if String.eqb s "cashback" then Cashback
  else if String.eqb s "purchase" then Purchase
  else if String.eqb s "fee" then Fee
  else Transfer.

Definition TxType_eqb (a b : TxType) : bool :=
  match a, b with
  | Debit, Debit | Withdrawal, Withdrawal => true
  | _, _ => false
  end.

Definition TxSubtype_eqb (a b : TxSubtype) : bool :=
  match a, b with
  | Credit, Credit | Refund, Refund | Interest, Interest
  | Cashback, Cashback | Purchase, Purchase | Fee, Fee
  | Transfer, Transfer => true
  | _, _ => false
  end.

Definition TxStatus_eqb (a b : TxStatus) : bool :=
  match a, b with
  | Pending, Pending | Completed, Completed
  | Failed, Failed | Canceled, Canceled => true
  | _, _ => false
  end.

(** The [Transaction] schema. *)
Record Transaction : Type := mkTransaction {
  _id : ObjectId;
  date : Z;
  type : TxType;
  subtype : TxSubtype;
  amount : Q;
  status : TxStatus;
  vender : string;
  description : option string;
  _debitCard : ObjectId;
  _user : ObjectId
}.

Definition set_status (t : Transaction) (s : TxStatus) : Transaction :=
  {| _id := _id t; date := date t; type := type t; subtype := subtype t;
     amount := amount t; status := s; vender := vender t;
     description := description t; _debitCard := _debitCard t;
     _user := _user t |}.

(** The [DebitCard] schema (the audit log plays no part in the ledger). *)
Record DebitCard : Type := mkDebitCard {
  card_id : ObjectId;
  accountNumber : string;
  lastFourDigits : string;
  active : bool;
  lastOverdraftFee : option Z;
  card_user : ObjectId
}.

Definition set_lastOverdraftFee (c : DebitCard) (d : Z) : DebitCard :=
  {| card_id := card_id c; accountNumber := accountNumber c;
     lastFourDigits := lastFourDigits c; active := active c;
     lastOverdraftFee := Some d; card_user := card_user c |}.

(** ** The world: collections, clock, id counter, faults, log *)

Inductive StorageOp : Type :=
| OpFindCard
| OpAggregate
| OpCount
| OpSaveTransaction (id : ObjectId)
| OpUpdateOne (id : ObjectId)
| OpInsert (id : ObjectId)
| OpSaveCard (id : ObjectId).

Inductive LogLevel : Type := LInfo | LError.

Record World : Type := mkWorld {
  transactions : list Transaction;
  debitCards : list DebitCard;
  nextId : ObjectId;
  now : Z;
  tick : nat;
  faults : nat -> StorageOp -> bool;
  log : list (LogLevel * string)
}.

Definition with_transactions (w : World) (l : list Transaction) : World :=
  {| transactions := l; debitCards := debitCards w; nextId := nextId w;
     now := now w; tick := tick w; faults := faults w; log := log w |}.

Definition with_debitCards (w : World) (l : list DebitCard) : World :=
  {| transactions := transactions w; debitCards := l; nextId := nextId w;
     now := now w; tick := tick w; faults := faults w; log := log w |}.

(** ** The effect monad *)

Inductive Outcome (A : Type) : Type :=
| Return (a : A)
| Throw (e : Exn).

Arguments Return {A} a.
Arguments Throw {A} e.

Definition M (A : Type) : Type := World -> Outcome A * World.

Definition ret {A} (a : A) : M A := fun w => (Return a, w).

Definition throw {A} (e : Exn) : M A := fun w => (Throw e, w).

Definition bind {A B} (m : M A) (k : A -> M B) : M B :=
  fun w =>
    match m w with
    | (Return a, w') => k a w'
    | (Throw e, w') => (Throw e, w')
    end.

(** [try { body } catch (err) { handler }] *)
Definition try_catch {A} (body : M A) (handler : Exn -> M A) : M A :=
  fun w =>
    match body w with
    | (Return a, w') => (Return a, w')
    | (Throw e, w') => handler e w'
    end.

Declare Scope js_scope.
Delimit Scope js_scope with js.

Notation "x <- m ;; k" := (bind m (fun x => k))
  (at level 100, m at next level, right associativity) : js_scope.
Notation "m ;; k" := (bind m (fun _ => k))
  (at level 100, right associativity) : js_scope.

Local Open Scope js_scope.

Definition throw_handled {A} (msg : string) (c : Z) : M A :=
  throw (Handled {| message := msg; code := c |}).

(** [if (c) { throw new HandledError(msg, code); }] *)
Definition throw_if (c : bool) (msg : string) (code : Z) : M unit :=
  if c then throw_handled msg code else ret tt.

(** [logger.info] and [logger.error] *)
Definition logger_info (msg : string) : M unit :=
  fun w =>
    (Return tt,
     {| transactions := transactions w; debitCards := debitCards w;
        nextId := nextId w; now := now w; tick := tick w;
        faults := faults w; log := log w ++ [(LInfo, msg)] |}).

Definition logger_error (msg : string) : M unit :=
  fun w =>
    (Return tt,
     {| transactions := transactions w; debitCards := debitCards w;
        nextId := nextId w; now := now w; tick := tick w;
        faults := faults w; log := log w ++ [(LError, msg)] |}).

(** One round trip to the database: it takes a tick and throws when the
    fault schedule says so. *)
Definition storage (op : StorageOp) : M unit :=
  fun w =>
    let w' :=
      {| transactions := transactions w; debitCards := debitCards w;
         nextId := nextId w; now := now w; tick := S (tick w);
         faults := faults w; log := log w |} in
    if faults w (tick w) op
    then (Throw (Unhandled "MongoError"), w')
    else (Return tt, w').

Definition new_Date : M Z := fun w => (Return (now w), w).

(** A fresh [ObjectId], as every [new Model(...)] draws one. *)
Definition new_ObjectId : M ObjectId :=
  fun w =>
    (Return (nextId w),
     {| transactions := transactions w; debitCards := debitCards w;
        nextId := S (nextId w); now := now w; tick := tick w;
        faults := faults w; log := log w |}).

Definition get_transactions : M (list Transaction) :=
  fun w => (Return (transactions w), w).

Definition put_transactions (l : list Transaction) : M unit :=
  fun w => (Return tt, with_transactions w l).

Definition get_debitCards : M (list DebitCard) :=
  fun w => (Return (debitCards w), w).

Definition put_debitCards (l : list DebitCard) : M unit :=
  fun w => (Return tt, with_debitCards w l).

(** ** Collection primitives (what the Mongoose calls do) *)

Fixpoint find_card_by_id (id : ObjectId) (l : list DebitCard)
  : option DebitCard :=
  match l with
  | [] => None
  | c :: r => if Nat.eqb (card_id c) id then Some c else find_card_by_id id r
  end.

Fixpoint find_card_by_accountNumber (n : string) (l : list DebitCard)
  : option DebitCard :=
  match l with
  | [] => None
  | c :: r =>
      if String.eqb (accountNumber c) n then Some c
      else find_card_by_accountNumber n r
  end.

Fixpoint find_transaction (id : ObjectId) (l : list Transaction)
  : option Transaction :=
  match l with
  | [] => None
  | t :: r => if Nat.eqb (_id t) id then Some t else find_transaction id r
  end.

(** [{ $set: { status } }] on the first document whose [_id] matches. *)
Fixpoint set_status_by_id (id : ObjectId) (s : TxStatus)
  (l : list Transaction) : list Transaction :=
  match l with
  | [] => []
  | t :: r =>
      if Nat.eqb (_id t) id then set_status t s :: r
      else t :: set_status_by_id id s r
  end.

Fixpoint replace_card (c : DebitCard) (l : list DebitCard) : list DebitCard :=
  match l with
  | [] => []
  | x :: r =>
      if Nat.eqb (card_id x) (card_id c) then c :: r
      else x :: replace_card c r
  end.

(** [DebitCard.findOne({ _id })] *)
Definition DebitCard_findOne_id (id : ObjectId) : M (option DebitCard) :=
  storage OpFindCard ;;
  cards <- get_debitCards ;;
  ret (find_card_by_id id cards).

(** [DebitCard.findOne({ accountNumber })] *)
Definition DebitCard_findOne_accountNumber (n : string)
  : M (option DebitCard) :=
  storage OpFindCard ;;
  cards <- get_debitCards ;;
  ret (find_card_by_accountNumber n cards).

(** Schema validation run by [save] and [insertMany]: [vender] is a
    required string, which Mongoose refuses when empty. *)
Definition schema_valid (t : Transaction) : bool :=
  negb (String.eqb (vender t) "").

(** [transaction.save()]: a new document is inserted, a stored one has its
    modified path ([status]) written. *)
Definition Transaction_save (t : Transaction) : M unit :=
  if schema_valid t then
    storage (OpSaveTransaction (_id t)) ;;
    txs <- get_transactions ;;
    match find_transaction (_id t) txs with
    | Some _ => put_transactions (set_status_by_id (_id t) (status t) txs)
    | None => put_transactions (txs ++ [t])
    end
  else throw (Unhandled "ValidationError").

(** [Transaction.updateOne({ _id }, { $set: { status } })] *)
Definition Transaction_updateOne (id : ObjectId) (s : TxStatus) : M unit :=
  storage (OpUpdateOne id) ;;
  txs <- get_transactions ;;
  put_transactions (set_status_by_id id s txs).

(** [debitCard.save()] *)
Definition DebitCard_save (c : DebitCard) : M unit :=
  storage (OpSaveCard (card_id c)) ;;
  cards <- get_debitCards ;;
  put_debitCards (replace_card c cards).

(** ** DebitCard.methods.getBalances *)

Record Totals : Type := mkTotals { completed : Q; pending : Q }.

Record Balances : Type := mkBalances {
  currentBalance : Q;
  pendingBalance : Q;
  finalBalance : Q
}.

(** [{ $cond: [{ $eq: ['$status', s] }, '$amount', 0] }] *)
Definition cond_amount (s : TxStatus) (t : Transaction) : Q :=
  if TxStatus_eqb (status t) s then amount t else 0.

(** [$sum] over the documents of a group. *)
Definition sum_cond (s : TxStatus) (l : list Transaction) : Q :=
  fold_left (fun acc t => acc + cond_amount s t)%Q l 0%Q.

(** The pipeline of [getBalances]: [$match] on the card, one [$group] with
    [_id: null], [$project].  A [$group] over no document yields no
    document. *)
Definition balance_pipeline (card : ObjectId) (l : list Transaction)
  : list Totals :=
  match filter (fun t => Nat.eqb (_debitCard t) card) l with
  | [] => []
  | matched =>
      [ {| completed := sum_cond Completed matched;
           pending := sum_cond Pending matched |} ]
  end.

Definition aggregate_balances (card : ObjectId) : M (list Totals) :=
  storage OpAggregate ;;
  txs <- get_transactions ;;
  ret (balance_pipeline card txs).

Definition getBalances (this : DebitCard) : M Balances :=
  try_catch
    (totals <- aggregate_balances (card_id this) ;;
     match nth_error totals 0 with
     | Some t0 =>
         ret {| currentBalance := completed t0;
                pendingBalance := pending t0;
                finalBalance := (completed t0 + pending t0)%Q |}
     | None =>
         (* totals[0] is undefined: reading .completed throws *)
         throw (Unhandled "TypeError")
     end)
    (fun err =>
       logger_error "Error getting debit card balances" ;;
       throw_handled "Error getting debit card balances" 500).

(** ** Transaction.statics.create *)

(** The [debitCard] parameter: a [DebitCard] instance, a valid [ObjectId],
    or anything else (absent included). *)
Inductive CardRef : Type :=
| CardInstance (c : DebitCard)
| CardObjectId (id : ObjectId)
| CardOther.

Record CreateParams : Type := mkCreateParams {
  p_type : JsVal;
  p_subtype : JsVal;
  p_amount : JsVal;
  p_vender : JsVal;
  p_description : JsVal;
  p_accountNumber : JsVal;
  p_debitCard : CardRef;
  p_skipSave : bool
}.

Definition str_of (v : JsVal) : string :=
  match v with
  | JStr s => s
  | _ => ""
  end.

Definition opt_str_of (v : JsVal) : option string :=
  match v with
  | JStr s => Some s
  | _ => None
  end.

(** [typeof amount !== 'number' || amount <= 0 ||
     Math.round(amount * 100) / 100 !== amount] *)
Definition bad_debit_amount (a : JsVal) : bool :=
  match a with
  | JNum n =>
      js_le n (Fin 0)
      || js_strict_ne (js_div (Math_round (js_mul n (Fin 100))) (Fin 100)) n
  | _ => true
  end.

(** [typeof amount !== 'number' || amount >= 0 ||
     Math.round(amount * 100) / 100 !== amount] *)
Definition bad_withdrawal_amount (a : JsVal) : bool :=
  match a with
  | JNum n =>
      js_ge n (Fin 0)
      || js_strict_ne (js_div (Math_round (js_mul n (Fin 100))) (Fin 100)) n
  | _ => true
  end.

Definition num_of (v : JsVal) : Q :=
  match v with
  | JNum (Fin q) => q
  | _ => 0%Q
  end.

(** The [catch] clause shared by the static and instance methods: a handled
    error is logged and rethrown as it is, anything else is logged and
    replaced by a 500 carrying [thrown]. *)
Definition rethrow {A} (logged thrown : string) (err : Exn) : M A :=
  match err with
  | Handled e =>
      logger_info (logged ++ ": " ++ message e) ;;
      throw (Handled e)
  | Unhandled _ =>
      logger_error logged ;;
      throw_handled thrown 500
  end.

(** [new Transaction({ date, type, subtype, amount, vender, description,
    _debitCard: debitCard._id, _user: debitCard._user })]; [status] takes
    the schema default. *)
Definition new_Transaction (id : ObjectId) (d : Z) (p : CreateParams)
  (debitCard : DebitCard) : Transaction :=
  {| _id := id; date := d;
     type := type_of_string (str_of (p_type p));
     subtype := subtype_of_string (str_of (p_subtype p));
     amount := num_of (p_amount p);
     status := Pending;
     vender := str_of (p_vender p);
     description := opt_str_of (p_description p);
     _debitCard := card_id debitCard;
     _user := card_user debitCard |}.

(** How [create] finds the card: the instance it was given, or a lookup
    by id, or a lookup by account number. *)
Definition resolve_debitCard (p : CreateParams) : M (option DebitCard) :=
  match p_debitCard p with
  | CardInstance c => ret (Some c)
  | CardObjectId id => DebitCard_findOne_id id
  | CardOther =>
      throw_if (negb (String.eqb (typeof (p_accountNumber p)) "string"))
        "Account number required as a string if valid debitCard or id is not provided"
        400 ;;
      DebitCard_findOne_accountNumber (str_of (p_accountNumber p))
  end.

(** The [try] block of [create]. *)
Definition create_try (p : CreateParams) : M Transaction :=
  throw_if (negb (includes TRANSACTION_TYPES (p_type p)))
    "Valid transaction type required" 400 ;;
  (if String.eqb (str_of (p_type p)) "debit" then
     throw_if (negb (includes TRANSACTION_DEBIT_SUBTYPES (p_subtype p)))
       "Valid debit transaction subtype required" 400 ;;
     throw_if (bad_debit_amount (p_amount p))
       "Debit transaction amount required as a positive number with no more than 2 decimal places"
       400
   else
     throw_if (negb (includes TRANSACTION_WITHDRAWAL_SUBTYPES (p_subtype p)))
       "Valid withdrawal transaction subtype required" 400 ;;
     throw_if (bad_withdrawal_amount (p_amount p))
       "Withdrawal transaction amount required as a negative number with no more than 2 decimal places"
       400) ;;
  throw_if (negb (String.eqb (typeof (p_vender p)) "string"))
    "Vender required as a string" 400 ;;
  throw_if (negb (String.eqb (typeof (p_description p)) "undefined")
            && negb (String.eqb (typeof (p_description p)) "string"))
    "Transaction description must be a string" 400 ;;
  debitCard <- resolve_debitCard p ;;
  match debitCard with
  | Some card =>
      throw_if (negb (active card))
        "Debit card not found or inactive for the account number provided"
        400 ;;
      d <- new_Date ;;
      id <- new_ObjectId ;;
      let transaction := new_Transaction id d p card in
      (if negb (p_skipSave p) then Transaction_save transaction else ret tt) ;;
      ret transaction
  | None =>
      throw_handled
        "Debit card not found or inactive for the account number provided"
        400
  end.

Definition create (p : CreateParams) : M Transaction :=
  try_catch (create_try p)
    (rethrow "Error creating transaction" "Error creating transaction").

(** ** Transaction.statics.createTransferTransaction *)

Definition js_neg (a : JsNum) : JsNum :=
  match a with
  | NaN => NaN
  | Fin x => Fin (- x)
  end.

(** [typeof amount !== 'number' || amount <= 0] *)
Definition bad_transfer_amount (a : JsVal) : bool :=
  match a with
  | JNum n => js_le n (Fin 0)
  | _ => true
  end.

Definition jsnum_of (v : JsVal) : JsNum :=
  match v with
  | JNum n => n
  | _ => NaN
  end.

(** The parameters of the two [create] calls of a transfer. *)
Definition sender_params (amount : JsVal) (senderDebitCard receiverDebitCard : DebitCard)
  : CreateParams :=
  {| p_type := JStr "withdrawal"; p_subtype := JStr "transfer";
     p_amount := JNum (js_neg (jsnum_of amount));
     p_vender := JStr "SELF";
     p_description :=
       JStr ("Transfer to " ++ oid_toString (card_user receiverDebitCard));
     p_accountNumber := JUndefined;
     p_debitCard := CardInstance senderDebitCard;
     p_skipSave := false |}.

Definition receiver_params (amount : JsVal) (senderDebitCard receiverDebitCard : DebitCard)
  : CreateParams :=
  {| p_type := JStr "debit"; p_subtype := JStr "credit";
     p_amount := amount;
     p_vender := JStr "SELF";
     p_description :=
       JStr ("Transfer from " ++ oid_toString (card_user senderDebitCard));
     p_accountNumber := JUndefined;
     p_debitCard := CardInstance receiverDebitCard;
     p_skipSave := false |}.

(** The [try] block of [createTransferTransaction]. *)
Definition createTransferTransaction_try
  (senderAccountNumber receiverAccountNumber amount : JsVal)
  : M (Transaction * Transaction) :=
  throw_if (negb (String.eqb (typeof senderAccountNumber) "string"))
    "Valid senderAccountNumber required as a string" 400 ;;
  throw_if (negb (String.eqb (typeof receiverAccountNumber) "string"))
    "Valid receiverAccountNumber required as a string" 400 ;;
  throw_if (bad_transfer_amount amount)
    "Transfer amount required as a positive number" 400 ;;
  sender <- DebitCard_findOne_accountNumber (str_of senderAccountNumber) ;;
  match sender with
  | None => throw_handled "Sender debit card not found or is inactive" 400
  | Some senderDebitCard =>
    throw_if (negb (active senderDebitCard))
      "Sender debit card not found or is inactive" 400 ;;
    receiver <-
      DebitCard_findOne_accountNumber (str_of receiverAccountNumber) ;;
    match receiver with
    | None => throw_handled "Receiver debit card not found or is inactive" 400
    | Some receiverDebitCard =>
      throw_if (negb (active receiverDebitCard))
        "Receiver debit card not found or is inactive" 400 ;;
      senderBalance <- getBalances senderDebitCard ;;
      throw_if (js_lt (Fin (finalBalance senderBalance)) (jsnum_of amount))
        "Insufficient funds for transfer" 400 ;;
      senderTransaction <-
        create (sender_params amount senderDebitCard receiverDebitCard) ;;
      receiverTransaction <-
        create (receiver_params amount senderDebitCard receiverDebitCard) ;;
      ret (senderTransaction, receiverTransaction)
    end
  end.

Definition createTransferTransaction
  (senderAccountNumber receiverAccountNumber amount : JsVal)
  : M (Transaction * Transaction) :=
  try_catch
    (createTransferTransaction_try senderAccountNumber receiverAccountNumber
       amount)
    (rethrow "Error creating transfer transaction"
             "Error creating transfer transactions").

(** ** Transaction.statics.createOverdraftFeeTransaction *)

Definition fee_params (debitCard : DebitCard) : CreateParams :=
  {| p_type := JStr "withdrawal"; p_subtype := JStr "fee";
     p_amount := JNum (Fin (- (10)));
     p_vender := JStr "ONE";
     p_description := JStr "Overdraft fee";
     p_accountNumber := JUndefined;
     p_debitCard := CardInstance debitCard;
     p_skipSave := true |}.

(** The [try] block of [createOverdraftFeeTransaction]. *)
Definition createOverdraftFeeTransaction_try (debitCard : option DebitCard)
  : M Transaction :=
  match debitCard with
  | None =>
      throw_handled "Invalid transaction parameters for overdraft fee" 400
  | Some card =>
      created <- create (fee_params card) ;;
      (* Set status to completed for instant fee *)
      let feeTransaction := set_status created Completed in
      Transaction_save feeTransaction ;;
      d <- new_Date ;;
      DebitCard_save (set_lastOverdraftFee card d) ;;
      ret feeTransaction
  end.

Definition createOverdraftFeeTransaction (debitCard : option DebitCard)
  : M Transaction :=
  try_catch (createOverdraftFeeTransaction_try debitCard)
    (rethrow "Error creating overdraft fee transaction"
             "Error creating overdraft fee transaction").

(** ** Transaction.statics.createCashbackTransaction *)

Section WithConfig.

Variable cfg : Config.

Definition cashback_params (transaction : Transaction) : CreateParams :=
  {| p_type := JStr "debit"; p_subtype := JStr "cashback";
     p_amount :=
       JNum (Fin (round2 (Qabs (amount transaction) * CASHBACK_RATE cfg)));
     p_vender := JStr "ONE";
     p_description :=
       JStr ("Cashback for eligible purchase - "
             ++ oid_toString (_id transaction));
     p_accountNumber := JUndefined;
     p_debitCard := CardObjectId (_debitCard transaction);
     p_skipSave := true |}.

(** The [try] block of [createCashbackTransaction]. *)
Definition createCashbackTransaction_try (transaction : option Transaction)
  : M Transaction :=
  match transaction with
  | None => throw_handled "Invalid transaction parameters for cashback" 400
  | Some t =>
      (* !transaction.amount: a zero amount is falsy *)
      throw_if (Qeq_bool (amount t) 0)
        "Invalid transaction parameters for cashback" 400 ;;
      throw_if (negb (TxStatus_eqb (status t) Completed)
                || negb (TxType_eqb (type t) Withdrawal)
                || negb (TxSubtype_eqb (subtype t) Purchase))
        "Transaction invalid for cashback - must be completed purchase" 400 ;;
      created <- create (cashback_params t) ;;
      (* Set status to completed for instant cashback *)
      let cashbackTransaction := set_status created Completed in
      Transaction_save cashbackTransaction ;;
      ret cashbackTransaction
  end.

Definition createCashbackTransaction (transaction : option Transaction)
  : M Transaction :=
  try_catch (createCashbackTransaction_try transaction)
    (rethrow "Error creating cashback transaction"
             "Error creating cashback transaction").

(** ** Transaction.methods.cancel *)

Definition cancel (this : Transaction) : M Transaction :=
  try_catch
    (throw_if (negb (TxStatus_eqb (status this) Pending))
       "Transaction cannot be canceled once executed" 400 ;;
     let this' := set_status this Canceled in
     Transaction_save this' ;;
     ret this')
    (rethrow "Error canceling transaction" "Error canceling transaction").

(** ** Transaction.statics.validatePending *)

Definition is_pending (t : Transaction) : bool :=
  TxStatus_eqb (status t) Pending.

(** [find({ status: 'pending' }).countDocuments()] *)
Definition count_pending : M nat :=
  storage OpCount ;;
  txs <- get_transactions ;;
  ret (List.length (filter is_pending txs)).

(** [{ $sort: { date: 1 } }], stable. *)
Fixpoint insert_by_date (t : Transaction) (l : list Transaction)
  : list Transaction :=
  match l with
  | [] => [t]
  | x :: r =>
      if (date t <? date x)%Z then t :: x :: r else x :: insert_by_date t r
  end.

Definition sort_by_date (l : list Transaction) : list Transaction :=
  fold_left (fun acc t => insert_by_date t acc) l [].

(** [{ $group: { _id: '$_debitCard', transactions: { $push: '$$ROOT' } } }],
    groups in the order their first document arrives. *)
Fixpoint push_group (t : Transaction)
  (gs : list (ObjectId * list Transaction))
  : list (ObjectId * list Transaction) :=
  match gs with
  | [] => [(_debitCard t, [t])]
  | (k, ts) :: r =>
      if Nat.eqb k (_debitCard t) then (k, (ts ++ [t])%list) :: r
      else (k, ts) :: push_group t r
  end.

Definition group_by_card (l : list Transaction)
  : list (ObjectId * list Transaction) :=
  fold_left (fun gs t => push_group t gs) l [].

Definition pending_pipeline (l : list Transaction)
  : list (ObjectId * list Transaction) :=
  group_by_card (sort_by_date (filter is_pending l)).

Definition aggregate_pending : M (list (ObjectId * list Transaction)) :=
  storage OpAggregate ;;
  txs <- get_transactions ;;
  ret (pending_pipeline txs).

(** A property read on the object returned by [getBalances]; any other
    name is [undefined]. *)
Definition Balances_prop (b : Balances) (name : string) : option Q :=
  if String.eqb name "currentBalance" then Some (currentBalance b)
  else if String.eqb name "pendingBalance" then Some (pendingBalance b)
  else if String.eqb name "finalBalance" then Some (finalBalance b)
  else None.

(** [debitBalance.currentBalance += x] *)
Definition add_currentBalance (b : Balances) (x : Q) : Balances :=
  {| currentBalance := (currentBalance b + x)%Q;
     pendingBalance := pendingBalance b;
     finalBalance := finalBalance b |}.

(** The [catch] of the inner loop: log, swallow, go on. *)
Definition swallow (logged : string) (err : Exn) : M unit :=
  logger_error logged.

(** The body of the loop over one group's transactions.  The assignments to
    the in-memory [transaction] and [debitBalance] come before any awaited
    call and cannot throw, so they are made ahead of the [try] here and
    survive whatever the awaited calls throw. *)
Definition settle (transaction : Transaction) (debitBalance : Balances)
  : M Balances :=
  if TxType_eqb (type transaction) Withdrawal then
    if js_lt (js_add (num_of_prop (Balances_prop debitBalance "currentbalance"))
                     (Fin (amount transaction)))
             (Fin (MAX_NEGATIVE_BALANCE cfg))
    then
      let transaction := set_status transaction Failed in
      try_catch
        (Transaction_updateOne (_id transaction) (status transaction))
        (swallow "Error validating transaction") ;;
      ret debitBalance
    else
      let transaction := set_status transaction Completed in
      let debitBalance := add_currentBalance debitBalance (amount transaction) in
      try_catch
        ((if includes CASHBACK_VENDERS (JStr (toUpperCase (vender transaction)))
          then _ <- createCashbackTransaction (Some transaction) ;; ret tt
          else ret tt) ;;
         Transaction_updateOne (_id transaction) (status transaction))
        (swallow "Error validating transaction") ;;
      ret debitBalance
  else
    let transaction := set_status transaction Completed in
    let debitBalance := add_currentBalance debitBalance (amount transaction) in
    try_catch
      (Transaction_updateOne (_id transaction) (status transaction))
      (swallow "Error validating transaction") ;;
    ret debitBalance.

Fixpoint settle_all (l : list Transaction) (debitBalance : Balances)
  : M Balances :=
  match l with
  | [] => ret debitBalance
  | transaction :: r =>
      debitBalance' <- settle transaction debitBalance ;;
      settle_all r debitBalance'
  end.

(** [debitBalance.currentBalance < 0 && debitCard.lastOverdraftFee &&
     new Date() - debitCard.lastOverdraftFee > FIVE_DAYS]; a [Date] is
    truthy, [undefined] is not. *)
Definition overdraft_due (debitBalance : Balances) (debitCard : DebitCard)
  (today : Z) : bool :=
  Qlt_bool (currentBalance debitBalance) 0
  && match lastOverdraftFee debitCard with
     | Some last => (today - last >? FIVE_DAYS)%Z
     | None => false
     end.

Definition charge_overdraft (debitBalance : Balances) (debitCard : DebitCard)
  : M unit :=
  try_catch
    (today <- new_Date ;;
     if overdraft_due debitBalance debitCard today
     then _ <- createOverdraftFeeTransaction (Some debitCard) ;; ret tt
     else ret tt)
    (swallow "Error creating overdraft fee after validation").

(** The body of the loop over the groups. *)
Definition validate_group (transactionGroup : ObjectId * list Transaction)
  : M unit :=
  found <- DebitCard_findOne_id (fst transactionGroup) ;;
  match found with
  | None =>
      (* debitCard is null: debitCard.getBalances() throws inside the try,
         and the catch clause throws in turn, on debitCard._id, before it
         has logged anything *)
      throw (Unhandled "TypeError")
  | Some debitCard =>
      balances <-
        try_catch
          (b <- getBalances debitCard ;; ret (Some b))
          (fun err =>
             logger_error
               "Error getting balances for debit card during validation" ;;
             ret None) ;;
      match balances with
      | None => ret tt (* continue *)
      | Some debitBalance =>
          debitBalance' <- settle_all (snd transactionGroup) debitBalance ;;
          charge_overdraft debitBalance' debitCard
      end
  end.

Fixpoint validate_groups (gs : list (ObjectId * list Transaction)) : M unit :=
  match gs with
  | [] => ret tt
  | g :: r => validate_group g ;; validate_groups r
  end.

Definition validatePending : M unit :=
  try_catch
    (pendingTransactions <- count_pending ;;
     if Nat.eqb pendingTransactions 0 then ret tt
     else
       transactionsByCard <- aggregate_pending ;;
       validate_groups transactionsByCard)
    (fun err =>
       logger_error "Error validating pending transactions" ;;
       throw_handled "Error validating pending transactions" 500).

(** ** Transaction.statics.addBalanceInterest *)

(** A document of the aggregation: [{ _id, totalBalance, _debitCard }]. *)
Record UserTotal : Type := mkUserTotal {
  ut_id : ObjectId;
  totalBalance : Q;
  ut_debitCard : ObjectId
}.

(** One more document into the [$group] on [_user]:
    [totalBalance: { $sum: '$amount' }], [_debitCard: { $first: ... }]. *)
Fixpoint accumulate_user (t : Transaction) (gs : list UserTotal)
  : list UserTotal :=
  match gs with
  | [] =>
      [ {| ut_id := _user t; totalBalance := (0 + amount t)%Q;
           ut_debitCard := _debitCard t |} ]
  | g :: r =>
      if Nat.eqb (ut_id g) (_user t)
      then {| ut_id := ut_id g;
              totalBalance := (totalBalance g + amount t)%Q;
              ut_debitCard := ut_debitCard g |} :: r
      else g :: accumulate_user t r
  end.

Definition group_by_user (l : list Transaction) : list UserTotal :=
  fold_left (fun gs t => accumulate_user t gs) l [].

Definition is_completed (t : Transaction) : bool :=
  TxStatus_eqb (status t) Completed.

(** [$match completed], [$group] by user, [$match totalBalance > 0]. *)
Definition interest_pipeline (l : list Transaction) : list UserTotal :=
  filter (fun g => Qlt_bool 0 (totalBalance g))
         (group_by_user (filter is_completed l)).

Definition aggregate_interest : M (list UserTotal) :=
  storage OpAggregate ;;
  txs <- get_transactions ;;
  ret (interest_pipeline txs).

(** A plain object pushed on the staging array; it has no [_id] yet. *)
Record TransactionDoc : Type := mkTransactionDoc {
  doc_date : Z;
  doc_type : TxType;
  doc_subtype : TxSubtype;
  doc_amount : Q;
  doc_status : TxStatus;
  doc_vender : string;
  doc_description : option string;
  doc_user : ObjectId;
  doc_debitCard : ObjectId
}.

(** The object the ['data'] handler pushes, built at date [d]. *)
Definition interest_doc (d : Z) (transactionInfo : UserTotal) : TransactionDoc :=
  {| doc_date := d;
     doc_type := Debit;
     doc_subtype := Interest;
     doc_amount := round2 (totalBalance transactionInfo * INTEREST_RATE cfg);
     doc_status := Completed;
     doc_vender := "ONE";
     doc_description := Some "Interest added to account";
     doc_user := ut_id transactionInfo;
     doc_debitCard := ut_debitCard transactionInfo |}.

(** The ['data'] handler. *)
Definition stage_interest (transactionInfo : UserTotal) : M TransactionDoc :=
  d <- new_Date ;;
  ret (interest_doc d transactionInfo).

Fixpoint stage_all (infos : list UserTotal) : M (list TransactionDoc) :=
  match infos with
  | [] => ret []
  | i :: r =>
      d <- stage_interest i ;;
      ds <- stage_all r ;;
      ret (d :: ds)
  end.

Definition hydrate (id : ObjectId) (d : TransactionDoc) : Transaction :=
  {| _id := id; date := doc_date d; type := doc_type d;
     subtype := doc_subtype d; amount := doc_amount d;
     status := doc_status d; vender := doc_vender d;
     description := doc_description d; _debitCard := doc_debitCard d;
     _user := doc_user d |}.

(** [insertMany(docs, { ordered: false })]: every document is attempted;
    the call rejects at the end when some insert failed. *)
Fixpoint insert_each (docs : list TransactionDoc) (failed : bool) : M bool :=
  match docs with
  | [] => ret failed
  | d :: r =>
      id <- new_ObjectId ;;
      ok <-
        try_catch
          (storage (OpInsert id) ;;
           txs <- get_transactions ;;
           put_transactions (txs ++ [hydrate id d]) ;;
           ret true)
          (fun err => ret false) ;;
      insert_each r (failed || negb ok)
  end.

Definition insertMany (docs : list TransactionDoc) : M unit :=
  failed <- insert_each docs false ;;
  if failed then throw (Unhandled "MongoBulkWriteError") else ret tt.

(** The stream handlers run after the function has returned, in the order
    [data]*, [end]; what they throw is outside the function's [try], so the
    job's effect is modelled without it. *)
Definition addBalanceInterest : M unit :=
  infos <- aggregate_interest ;;
  transactions <- stage_all infos ;;
  if negb (Nat.eqb (List.length transactions) 0)
  then insertMany transactions
  else ret tt.

End WithConfig.

(** * Specification vocabulary *)

(** At most two decimal digits: a whole number of hundredths. *)
Definition two_decimals (q : Q) : Prop := exists k : Z, (q == k # 100)%Q.

(** A strictly positive number with at most two decimal digits. *)
Definition valid_debit_amount (v : JsVal) : Prop :=
  exists q, v = JNum (Fin q) /\ (0 < q)%Q /\ two_decimals q.

(** A strictly negative number with at most two decimal digits. *)
Definition valid_withdrawal_amount (v : JsVal) : Prop :=
  exists q, v = JNum (Fin q) /\ (q < 0)%Q /\ two_decimals q.

(** Every stored transaction has an id below the counter, so that a new
    document never takes the id of a stored one. *)
Definition fresh_ids (w : World) : Prop :=
  forall t, In t (transactions w) -> (_id t < nextId w)%nat.

(** [_id] is unique in the collection. *)
Definition unique_ids (w : World) : Prop :=
  NoDup (map _id (transactions w)).

(** The stored document with a given id. *)
Definition stored (w : World) (i : ObjectId) : option Transaction :=
  find_transaction i (transactions w).

(** A status stays as it is, or leaves [Pending] for a terminal one. *)
Definition forward (s s' : TxStatus) : Prop :=
  s' = s \/ (s = Pending /\ s' <> Pending).

(** Between two worlds no stored transaction disappears and every status
    moves [forward]. *)
Definition monotone (w w' : World) : Prop :=
  forall i t, stored w i = Some t ->
    exists t', stored w' i = Some t' /\ forward (status t) (status t').

(** A status stays as it is, or goes from [Pending] to [Completed]. *)
Definition completes (s s' : TxStatus) : Prop :=
  s' = s \/ (s = Pending /\ s' = Completed).

(** Between two worlds no stored transaction disappears and the only
    status written is [Completed], over [Pending]. *)
Definition settles (w w' : World) : Prop :=
  forall i t, stored w i = Some t ->
    exists t', stored w' i = Some t' /\ completes (status t) (status t').

(** A stored document stays as it is, or is a pending one whose status
    becomes [Completed], every other field kept. *)
Definition settled (t t' : Transaction) : Prop :=
  t' = t \/ (status t = Pending /\ t' = set_status t Completed).

(** Between two worlds no stored transaction disappears, and the only
    change made to one is [Completed] written over [Pending]. *)
Definition amends (w w' : World) : Prop :=
  forall i t, stored w i = Some t ->
    exists t', stored w' i = Some t' /\ settled t t'.

(** The sum of the amounts of a list of transactions. *)
Fixpoint total_amount (l : list Transaction) : Q :=
  match l with
  | [] => 0%Q
  | t :: r => (amount t + total_amount r)%Q
  end.

(** The transactions of a card that are in a given status. *)
Definition of_card (card : ObjectId) (s : TxStatus) (l : list Transaction)
  : list Transaction :=
  filter (fun t => Nat.eqb (_debitCard t) card && TxStatus_eqb (status t) s) l.


(** No database call fails from now on. *)
Definition reliable (w : World) : Prop :=
  forall n op, faults w n op = false.

Definition never_fails : nat -> StorageOp -> bool := fun _ _ => false.

(** The card a call to [create] resolves its [debitCard] / [accountNumber]
    parameters to. *)
Definition resolves (p : CreateParams) (w : World) (card : DebitCard) : Prop :=
  match p_debitCard p with
  | CardInstance c => card = c
  | CardObjectId id => find_card_by_id id (debitCards w) = Some card
  | CardOther =>
      typeof (p_accountNumber p) = "string"
      /\ find_card_by_accountNumber (str_of (p_accountNumber p)) (debitCards w)
         = Some card
  end.

(** The parameters pass every check of [create] that does not look at the
    database. *)
Definition valid_params (p : CreateParams) : Prop :=
  ((p_type p = JStr "debit"
    /\ includes TRANSACTION_DEBIT_SUBTYPES (p_subtype p) = true
    /\ valid_debit_amount (p_amount p))
   \/ (p_type p = JStr "withdrawal"
       /\ includes TRANSACTION_WITHDRAWAL_SUBTYPES (p_subtype p) = true
       /\ valid_withdrawal_amount (p_amount p)))
  /\ typeof (p_vender p) = "string"
  /\ (typeof (p_description p) = "undefined"
      \/ typeof (p_description p) = "string").

(** Two worlds hold the same data; the tick and the log may differ. *)
Definition same_data (w w' : World) : Prop :=
  transactions w' = transactions w
  /\ debitCards w' = debitCards w
  /\ nextId w' = nextId w
  /\ now w' = now w
  /\ faults w' = faults w.

(** What no operation of the ledger touches: the clock and the fault
    schedule; the id counter only grows. *)
Definition frame (w w' : World) : Prop :=
  now w' = now w /\ faults w' = faults w /\ (nextId w <= nextId w')%nat.

(** * Example data *)

Definition card_a : DebitCard :=
  {| card_id := 1%nat; accountNumber := "4000000000000001";
     lastFourDigits := "0001"; active := true; lastOverdraftFee := None;
     card_user := 11%nat |}.

Definition card_b : DebitCard :=
  {| card_id := 2%nat; accountNumber := "4000000000000002";
     lastFourDigits := "0002"; active := true; lastOverdraftFee := None;
     card_user := 12%nat |}.

(** A transaction of [card_a]. *)
Definition tx_a (id : ObjectId) (d : Z) (ty : TxType) (st : TxSubtype)
  (a : Q) (s : TxStatus) (v : string) : Transaction :=
  {| _id := id; date := d; type := ty; subtype := st; amount := a;
     status := s; vender := v; description := None;
     _debitCard := 1%nat; _user := 11%nat |}.

(** A transaction of [card_b]. *)
Definition tx_b (id : ObjectId) (d : Z) (ty : TxType) (st : TxSubtype)
  (a : Q) (s : TxStatus) (v : string) : Transaction :=
  {| _id := id; date := d; type := ty; subtype := st; amount := a;
     status := s; vender := v; description := None;
     _debitCard := 2%nat; _user := 12%nat |}.

(** A world over the two cards in which the database never fails. *)
Definition world_of (txs : list Transaction) : World :=
  {| transactions := txs; debitCards := [card_a; card_b];
     nextId := 100%nat; now := 1700000000000; tick := 0%nat;
     faults := never_fails; log := [] |}.

(** Two freshly created accounts: no transaction yet. *)
Definition fresh_accounts : World := world_of [].

(** [card_a] holds a completed credit of 100, a pending purchase of 20.25,
    a failed purchase and a canceled one. *)
Definition funded_world : World :=
  world_of
    [ tx_a 10%nat 1 Debit Credit 100 Completed "MEGACORP";
      tx_a 11%nat 2 Withdrawal Purchase (- (2025 # 100)) Pending "grocer";
      tx_a 12%nat 3 Withdrawal Purchase (- (500)) Failed "jeweller";
      tx_a 13%nat 4 Withdrawal Purchase (- (30)) Canceled "grocer" ].

Definition debit_credit_params (a : JsVal) : CreateParams :=
  {| p_type := JStr "debit"; p_subtype := JStr "credit"; p_amount := a;
     p_vender := JStr "MEGACORP"; p_description := JUndefined;
     p_accountNumber := JStr "4000000000000001";
     p_debitCard := CardOther; p_skipSave := false |}.

(** [card_a] holds 10 and has a pending purchase of 150 at a vendor that
    earns no cashback; it was never charged an overdraft fee. *)
Definition overdrawing_world : World :=
  world_of
    [ tx_a 10%nat 1 Debit Credit 10 Completed "MEGACORP";
      tx_a 11%nat 2 Withdrawal Purchase (- (150)) Pending "grocer" ].

(** The same account with a pending purchase of 50. *)
Definition dipping_world : World :=
  world_of
    [ tx_a 10%nat 1 Debit Credit 10 Completed "MEGACORP";
      tx_a 11%nat 2 Withdrawal Purchase (- (50)) Pending "grocer" ].

Definition has_fee (w : World) : bool :=
  existsb (fun t => TxSubtype_eqb (subtype t) Fee) (transactions w).

(** [card_a] after an overdraft fee charged [ago] milliseconds ago. *)
Definition charged_card (ago : Z) : DebitCard :=
  {| card_id := 1%nat; accountNumber := "4000000000000001";
     lastFourDigits := "0001"; active := true;
     lastOverdraftFee := Some (1700000000000 - ago);
     card_user := 11%nat |}.

Definition charged_world (ago : Z) : World :=
  {| transactions := transactions dipping_world;
     debitCards := [charged_card ago; card_b];
     nextId := 100%nat; now := 1700000000000; tick := 0%nat;
     faults := never_fails; log := [] |}.

(** Two vendor names are the same up to the case of their letters. *)
Definition same_ignoring_case (a b : string) : Prop :=
  toUpperCase a = toUpperCase b.

(** The vendor is one of the cashback vendors, case ignored. *)
Definition cashback_vender (v : string) : Prop :=
  exists c, In c CASHBACK_VENDERS /\ same_ignoring_case v c.

(** The cashback document [createCashbackTransaction] builds for a source
    transaction, once its status is set. *)
Definition cashback_of (cfg : Config) (t : Transaction) (w : World)
  (card : DebitCard) : Transaction :=
  set_status
    (new_Transaction (nextId w) (now w) (cashback_params cfg t) card)
    Completed.

(** The fee document [createOverdraftFeeTransaction] builds. *)
Definition fee_of (w : World) (card : DebitCard) : Transaction :=
  set_status (new_Transaction (nextId w) (now w) (fee_params card) card)
    Completed.

(** The documents of [w'] created since [w]. *)
Definition created_since (w w' : World) : list Transaction :=
  filter (fun c => Nat.leb (nextId w) (_id c)) (transactions w').

(** The stored status of a transaction. *)
Definition stored_status (w : World) (i : ObjectId) : option TxStatus :=
  option_map status (stored w i).

(** [card_a] holds 100 and has three pending purchases at a cashback
    vendor: of 0.25, whose cashback rounds to nothing, of 20 and of 30. *)
Definition shopping_world : World :=
  world_of
    [ tx_a 10%nat 1 Debit Credit 100 Completed "MEGACORP";
      tx_a 11%nat 2 Withdrawal Purchase (- (1 # 4)) Pending "amzn";
      tx_a 12%nat 3 Withdrawal Purchase (- (20)) Pending "Amzn";
      tx_a 13%nat 4 Withdrawal Purchase (- (30)) Pending "grocer" ].

Definition purchase_of_20 : Transaction :=
  tx_a 12%nat 3 Withdrawal Purchase (- (20)) Pending "Amzn".

Definition purchase_of_a_quarter : Transaction :=
  tx_a 11%nat 2 Withdrawal Purchase (- (1 # 4)) Pending "amzn".

Definition balance_of_100 : Balances :=
  {| currentBalance := 100; pendingBalance := - (5025 # 100);
     finalBalance := 4975 # 100 |}.

(** Every transaction of the list is stored and its stored status is
    [Pending]. *)
Definition all_pending (w : World) (l : list Transaction) : Prop :=
  forall t, In t l ->
    exists x, stored w (_id t) = Some x /\ status x = Pending.

(** The stored documents whose id is not in [ids] are left as they were. *)
Definition untouched_outside (ids : list ObjectId) (w w' : World) : Prop :=
  forall j x, stored w j = Some x -> ~ In j ids -> stored w' j = Some x.



(** User 11 has completed transactions summing to 50, user 12 to 100, user
    13 to -5; a pending credit of user 13 does not count. *)
Definition tx_of (id user card : ObjectId) (ty : TxType) (st : TxSubtype)
  (a : Q) (s : TxStatus) : Transaction :=
  {| _id := id; date := 1; type := ty; subtype := st; amount := a;
     status := s; vender := "MEGACORP"; description := None;
     _debitCard := card; _user := user |}.

Definition savers_world : World :=
  world_of
    [ tx_of 10 11 1 Debit Credit 70 Completed;
      tx_of 11 12 2 Debit Credit 100 Completed;
      tx_of 12 11 1 Withdrawal Purchase (- (20)) Completed;
      tx_of 13 13 3 Withdrawal Fee (- (5)) Completed;
      tx_of 14 13 3 Debit Credit 500 Pending ]%nat.

(** * Further methods of the models *)

(** ** Transaction.methods.createRefundTransaction *)

Definition refund_params (this : Transaction) : CreateParams :=
  {| p_type := JStr "debit"; p_subtype := JStr "refund";
     p_amount := JNum (Fin (Qabs (amount this)));
     p_vender := JStr (vender this);
     p_description := JStr ("Refund for " ++ oid_toString (_id this));
     p_accountNumber := JUndefined;
     p_debitCard := CardObjectId (_debitCard this);
     p_skipSave := false |}.

(** The [try] block of [createRefundTransaction]. *)
Definition createRefundTransaction_try (this : Transaction) : M Transaction :=
  (* !this.amount || !this.vender: zero and the empty string are falsy *)
  throw_if (Qeq_bool (amount this) 0 || String.eqb (vender this) "")
    "Invalid transaction parameters for refund" 400 ;;
  throw_if (negb (TxStatus_eqb (status this) Completed)
            || negb (TxType_eqb (type this) Withdrawal)
            || negb (TxSubtype_eqb (subtype this) Purchase))
    "Transaction invalid for refund - must be completed purchase" 400 ;;
  create (refund_params this).

(** Its [catch] clause logs an unhandled error under the message of
    [create]. *)
Definition createRefundTransaction (this : Transaction) : M Transaction :=
  try_catch (createRefundTransaction_try this)
    (fun err =>
       match err with
       | Handled e =>
           logger_info ("Error creating refund transaction: " ++ message e) ;;
           throw (Handled e)
       | Unhandled _ =>
           logger_error "Error creating transaction" ;;
           throw_handled "Error creating refund transaction" 500
       end).

(** * Helpers ([lib/util/helpers.js]) and the schema validators *)

(** ** Regular expressions

    The validators are [RegExp.prototype.test] on patterns anchored at both
    ends, over character classes, concatenation and repetition.  A pattern
    is matched by taking its derivative along the string. *)

Inductive Regex : Type :=
| Nothing
| Empty
| Class (c : ascii -> bool)
| Seq (r s : Regex)
| Alt (r s : Regex)
| Star (r : Regex).

Fixpoint nullable (r : Regex) : bool :=
  match r with
  | Nothing => false
  | Empty => true
  | Class _ => false
  | Seq r s => nullable r && nullable s
  | Alt r s => nullable r || nullable s
  | Star _ => true
  end.

Fixpoint deriv (a : ascii) (r : Regex) : Regex :=
  match r with
  | Nothing => Nothing
  | Empty => Nothing
  | Class c => if c a then Empty else Nothing
  | Seq r s =>
      if nullable r then Alt (Seq (deriv a r) s) (deriv a s)
      else Seq (deriv a r) s
  | Alt r s => Alt (deriv a r) (deriv a s)
  | Star r => Seq (deriv a r) (Star r)
  end.

(** [/^r$/.test(s)] *)
Fixpoint test (r : Regex) (s : string) : bool :=
  match s with
  | EmptyString => nullable r
  | String a s' => test (deriv a r) s'
  end.

(** [r+] *)
Definition Plus (r : Regex) : Regex := Seq r (Star r).

(** [r{n}] *)
Fixpoint Times (n : nat) (r : Regex) : Regex :=
  match n with
  | O => Empty
  | S n' => Seq r (Times n' r)
  end.

(** [r{n,}] *)
Definition AtLeast (n : nat) (r : Regex) : Regex := Seq (Times n r) (Star r).

(** A literal character. *)
Definition Chr (a : ascii) : Regex := Class (Ascii.eqb a).

Definition in_range (lo hi a : ascii) : bool :=
  (nat_of_ascii lo <=? nat_of_ascii a)%nat
  && (nat_of_ascii a <=? nat_of_ascii hi)%nat.

(** [\d] *)
Definition is_digit (a : ascii) : bool := in_range "0" "9" a.

(** [[a-zA-Z]] *)
Definition is_letter (a : ascii) : bool :=
  in_range "a" "z" a || in_range "A" "Z" a.

Definition one_of (l : list ascii) (a : ascii) : bool :=
  existsb (Ascii.eqb a) l.

(** [[a-zA-Z0-9._%+-]] *)
Definition is_local_char (a : ascii) : bool :=
  is_letter a || is_digit a || one_of ["."; "_"; "%"; "+"; "-"]%char a.

(** [[a-zA-Z0-9.-]] *)
Definition is_domain_char (a : ascii) : bool :=
  is_letter a || is_digit a || one_of ["."; "-"]%char a.

(** [/^[a-zA-Z0-9._%+-]+@[a-zA-Z0-9.-]+\.[a-zA-Z]{2,}$/] *)
Definition emailRegex : Regex :=
  Seq (Plus (Class is_local_char))
    (Seq (Chr "@")
       (Seq (Plus (Class is_domain_char))
          (Seq (Chr ".") (AtLeast 2 (Class is_letter))))).

Definition isValidEmail (email : string) : bool := test emailRegex email.

(** [/^\d{3}-\d{3}-\d{4}$/] *)
Definition phoneRegex : Regex :=
  Seq (Times 3 (Class is_digit))
    (Seq (Chr "-")
       (Seq (Times 3 (Class is_digit))
          (Seq (Chr "-") (Times 4 (Class is_digit))))).

Definition isValidPhoneNumber (phoneNumber : string) : bool :=
  test phoneRegex phoneNumber.

(** The validator of [lastFourDigits] in the [DebitCard] schema:
    [d => /^\d{4}$/.test(d)]. *)
Definition lastFourDigits_validator (d : string) : bool :=
  test (Times 4 (Class is_digit)) d.

(** ** generateAccountNumber ([lib/storage/models/debitCard.js]) *)

(** [buf.readUIntBE(offset, byteLength)]: the bytes read as one big-endian
    number; Node throws a [RangeError] unless [byteLength] is between 1 and
    6 and the bytes are inside the buffer. *)
Definition readUIntBE (buf : list Byte.byte) (offset byteLength : nat)
  : option N :=
  if ((1 <=? byteLength) && (byteLength <=? 6)
      && (offset + byteLength <=? List.length buf))%nat
  then Some (fold_left (fun acc b => (acc * 256 + Byte.to_N b)%N)
               (firstn byteLength (skipn offset buf)) 0%N)
  else None.

(** [n.toString()] for a non-negative integer below 2^53. *)
Definition Number_toString (n : N) : string :=
  NilEmpty.string_of_uint (N.to_uint n).

Fixpoint repeat_char (a : ascii) (n : nat) : string :=
  match n with
  | O => EmptyString
  | S n' => String a (repeat_char a n')
  end.

(** [s.padStart(targetLength, pad)] for a pad of one character. *)
Definition padStart (targetLength : nat) (pad : ascii) (s : string) : string :=
  repeat_char pad (targetLength - String.length s) ++ s.

(** [s.slice(0, n)] *)
Definition slice_to (n : nat) (s : string) : string := substring 0 n s.

(** [s.slice(-n)] *)
Definition slice_last (n : nat) (s : string) : string :=
  substring (String.length s - n) n s.

(** [generateAccountNumber], given the bytes drawn by
    [crypto.randomBytes(6)]. *)
Definition generateAccountNumber (randomBytes : list Byte.byte)
  : option string :=
  match readUIntBE randomBytes 0 6 with
  | Some randomNumber =>
      Some (slice_to 16 (padStart 16 "0" (Number_toString randomNumber)))
  | None => None
  end.

(** * The route that creates a transaction ([lib/routes/transactions.js]) *)

(** [Transaction.methods._filter]: what is sent back to the client; the
    vendor is left out.  [date] stands for the instant that [toISOString]
    prints. *)
Record FilteredTransaction : Type := mkFiltered {
  f_id : ObjectId;
  f_date : Z;
  f_type : TxType;
  f_subtype : TxSubtype;
  f_amount : Q;
  f_status : TxStatus;
  f_description : option string;
  f_debitCard : ObjectId;
  f_user : ObjectId
}.

Definition _filter (this : Transaction) : FilteredTransaction :=
  {| f_id := _id this; f_date := date this; f_type := type this;
     f_subtype := subtype this; f_amount := amount this;
     f_status := status this; f_description := description this;
     f_debitCard := _debitCard this; f_user := _user this |}.

(** The JSON bodies of the route's answers. *)
Inductive Body : Type :=
| ErrorBody (error : string)
| TransactionBody (t : FilteredTransaction).

(** [res.status(code).json(body)] *)
Record Response : Type := mkResponse { res_status : Z; res_body : Body }.

(** The [try]/[catch] of a route handler: a handled error is answered with
    its code and message, anything else with a 500. *)
Definition respond (handler : M Response) : World -> Response * World :=
  fun w =>
    match handler w with
    | (Return res, w') => (res, w')
    | (Throw (Handled err), w') =>
        ({| res_status := code err; res_body := ErrorBody (message err) |}, w')
    | (Throw (Unhandled _), w') =>
        ({| res_status := 500;
            res_body := ErrorBody "Internal server error" |}, w')
    end.

(** [v === s] for a string literal [s]. *)
Definition js_is (v : JsVal) (s : string) : bool :=
  match v with
  | JStr x => String.eqb x s
  | _ => false
  end.

(** A word between double quotes. *)
Definition quoted (s : string) : string :=
  String (ascii_of_nat 34) (s ++ String (ascii_of_nat 34) EmptyString).

(** [router.post('/')]: [req.body] is handed to [create] as it is. *)
Definition post_transaction_try (body : CreateParams) : M Response :=
  throw_if (js_is (p_type body) "debit"
            && negb (js_is (p_subtype body) "credit"))
    ("Debit transactions must have a " ++ quoted "credit" ++ " subtype")
    400 ;;
  throw_if (js_is (p_type body) "withdrawal"
            && negb (js_is (p_subtype body) "purchase"))
    ("Withdrawal transactions must have a " ++ quoted "purchase"
     ++ " subtype")
    400 ;;
  transaction <- create body ;;
  ret {| res_status := 200;
         res_body := TransactionBody (_filter transaction) |}.

Definition post_transaction (body : CreateParams)
  : World -> Response * World :=
  respond (post_transaction_try body).

(** * Further specification vocabulary *)

(** What the methods of the models throw to their callers: a
    [HandledError] whose code is 400 or 500. *)
Definition client_or_server_error (e : Exn) : Prop :=
  exists msg c, e = Handled {| message := msg; code := c |}
                /\ (c = 400 \/ c = 500).


(** [throws_only P m]: whatever the world, an exception thrown by [m]
    satisfies [P]. *)
Definition throws_only {A} (P : Exn -> Prop) (m : M A) : Prop :=
  forall w r w', m w = (r, w') ->
    match r with
    | Return _ => True
    | Throw e => P e
    end.

(** What can be thrown inside a [try] block: a 400 or a 500 made by the
    code, or anything raised by the driver or the runtime. *)
Definition any_fault (e : Exn) : Prop :=
  client_or_server_error e \/ exists what, e = Unhandled what.


(** What the reconciliation engine creates by itself: a completed
    cashback, or a completed overdraft fee of -10; both come from vendor
    ONE. *)
Definition engine_made (c : Transaction) : Prop :=
  status c = Completed /\ vender c = "ONE"
  /\ ((type c = Debit /\ subtype c = Cashback)
      \/ (type c = Withdrawal /\ subtype c = Fee /\ amount c = (- (10))%Q)).

(** Every document stored in [w] under an id drawn since [w0] was made by
    the engine. *)
Definition news (w0 w : World) : Prop :=
  forall c, In c (transactions w) -> (nextId w0 <= _id c)%nat -> engine_made c.

(** The documents handed to the loops are the stored ones, and pending. *)
Definition snapshots (w : World) (l : list Transaction) : Prop :=
  forall t, In t l -> stored w (_id t) = Some t /\ status t = Pending.

(** A pending transaction the engine settles without creating a cashback:
    a debit, or a withdrawal at a vendor that earns none. *)
Definition plain (t : Transaction) : Prop :=
  type t = Debit \/ ~ cashback_vender (vender t).

(** Every group has a member, and its members are the transactions of the
    card that is its key. *)
Definition well_grouped (gs : list (ObjectId * list Transaction)) : Prop :=
  forall g, In g gs ->
    snd g <> [] /\ forall t, In t (snd g) -> _debitCard t = fst g.

(** The strings a pattern matches. *)
Inductive Matches : Regex -> string -> Prop :=
| MEmpty : Matches Empty ""
| MClass c a : c a = true -> Matches (Class c) (String a "")
| MSeq r s x y : Matches r x -> Matches s y -> Matches (Seq r s) (x ++ y)
| MAltL r s x : Matches r x -> Matches (Alt r s) x
| MAltR r s x : Matches s x -> Matches (Alt r s) x
| MStar0 r : Matches (Star r) ""
| MStarS r x y :
    Matches r x -> Matches (Star r) y -> Matches (Star r) (x ++ y).

(** Every character of the string is in the class. *)
Fixpoint all_chars (c : ascii -> bool) (s : string) : bool :=
  match s with
  | EmptyString => true
  | String a s' => c a && all_chars c s'
  end.

(** The number a string of decimal digits writes, if it is one. *)
Definition parse_decimal (s : string) : option N :=
  option_map N.of_uint (NilEmpty.uint_of_string s).

(** * Further example data *)

(** A request body that asks for a fee: the route refuses it. *)
Definition fee_request : CreateParams :=
  {| p_type := JStr "withdrawal"; p_subtype := JStr "fee";
     p_amount := JNum (Fin (- (10))); p_vender := JStr "ONE";
     p_description := JUndefined;
     p_accountNumber := JStr "4000000000000001";
     p_debitCard := CardOther; p_skipSave := false |}.



(** [funded_world] after [card_a] was set inactive. *)
Definition closed_card : DebitCard :=
  {| card_id := 1%nat; accountNumber := "4000000000000001";
     lastFourDigits := "0001"; active := false; lastOverdraftFee := None;
     card_user := 11%nat |}.

Definition closed_world : World :=
  {| transactions := transactions funded_world;
     debitCards := [closed_card; card_b];
     nextId := 100%nat; now := 1700000000000; tick := 0%nat;
     faults := never_fails; log := [] |}.


(** [funded_world] with a database that refuses to save the document whose
    id is 101, the second one to be created. *)
Definition flaky_world : World :=
  {| transactions := transactions funded_world;
     debitCards := [card_a; card_b];
     nextId := 100%nat; now := 1700000000000; tick := 0%nat;
     faults := fun _ op =>
                 match op with
                 | OpSaveTransaction id => Nat.eqb id 101
                 | _ => false
                 end;
     log := [] |}.

(** * Rounding and the precision test *)

Lemma Qround_half_up_Z (k : Z) : Qround_half_up (inject_Z k) = k.
Proof.
  unfold Qround_half_up.
  assert (L := Qfloor_le (inject_Z k + (1 # 2))).
  assert (U := Qlt_floor (inject_Z k + (1 # 2))).
  set (f := Qfloor (inject_Z k + (1 # 2))) in *.
  assert (H1 : (inject_Z f < inject_Z (k + 1))%Q).
  { rewrite inject_Z_plus. change (inject_Z 1) with 1%Q. lra. }
  assert (H2 : (inject_Z k < inject_Z (f + 1))%Q).
  { rewrite inject_Z_plus in U |- *. change (inject_Z 1) with 1%Q in *. lra. }
  rewrite <- Zlt_Qlt in H1, H2. lia.
Qed.

Lemma Qround_half_up_comp (x y : Q) :
  (x == y)%Q -> Qround_half_up x = Qround_half_up y.
Proof.
  intros H. unfold Qround_half_up. apply Qfloor_comp. rewrite H. reflexivity.
Qed.

Lemma Qdiv_100 (k : Z) : (inject_Z k / 100 == k # 100)%Q.
Proof. symmetry. exact (Qmake_Qdiv k 100). Qed.

Lemma round2_two_decimals (x : Q) : two_decimals (round2 x).
Proof. exists (Qround_half_up (x * 100)). apply Qdiv_100. Qed.

Lemma round2_fixed (q : Q) : (round2 q == q)%Q <-> two_decimals q.
Proof.
  unfold round2, two_decimals. split.
  - intros H. exists (Qround_half_up (q * 100)).
    rewrite <- Qdiv_100. symmetry. exact H.
  - intros [k Hk].
    assert (E : (q * 100 == inject_Z k)%Q).
    { rewrite Hk. rewrite <- Qdiv_100. field. }
    rewrite (Qround_half_up_comp _ _ E), Qround_half_up_Z.
    rewrite Hk. apply Qdiv_100.
Qed.

Lemma Qlt_bool_iff (x y : Q) : Qlt_bool x y = true <-> (x < y)%Q.
Proof.
  unfold Qlt_bool. rewrite negb_true_iff. split.
  - intros H. apply Qnot_le_lt. intros L.
    apply Qle_bool_iff in L. congruence.
  - intros H. destruct (Qle_bool y x) eqn:E; [|reflexivity].
    apply Qle_bool_iff in E. lra.
Qed.


Lemma Qle_bool_false_iff (x y : Q) : Qle_bool x y = false <-> (y < x)%Q.
Proof.
  rewrite <- Qlt_bool_iff. unfold Qlt_bool.
  destruct (Qle_bool x y); simpl; intuition congruence.
Qed.

(** The precision test of [create] on a finite number. *)
Lemma precision_test (q : Q) :
  js_strict_ne (js_div (Math_round (js_mul (Fin q) (Fin 100))) (Fin 100)) (Fin q)
  = negb (Qeq_bool (round2 q) q).
Proof. reflexivity. Qed.

Lemma bad_debit_amount_false (v : JsVal) :
  bad_debit_amount v = false <-> valid_debit_amount v.
Proof.
  unfold valid_debit_amount. split.
  - destruct v as [| | b | [|q] | s]; simpl; try discriminate.
    rewrite orb_false_iff. intros [Hle Hne].
    exists q. split; [reflexivity|]. split.
    + apply Qle_bool_false_iff. exact Hle.
    + apply round2_fixed. apply Qeq_bool_iff.
      change (negb (Qeq_bool (round2 q) q) = false) in Hne.
      apply negb_false_iff. exact Hne.
  - intros (q & -> & Hpos & Hdec).
    unfold bad_debit_amount. rewrite precision_test.
    apply orb_false_iff. split.
    + apply Qle_bool_false_iff. exact Hpos.
    + apply negb_false_iff, Qeq_bool_iff, round2_fixed. exact Hdec.
Qed.

Lemma bad_withdrawal_amount_false (v : JsVal) :
  bad_withdrawal_amount v = false <-> valid_withdrawal_amount v.
Proof.
  unfold valid_withdrawal_amount. split.
  - destruct v as [| | b | [|q] | s]; simpl; try discriminate.
    rewrite orb_false_iff. intros [Hle Hne].
    exists q. split; [reflexivity|]. split.
    + apply Qle_bool_false_iff. exact Hle.
    + apply round2_fixed. apply Qeq_bool_iff.
      change (negb (Qeq_bool (round2 q) q) = false) in Hne.
      apply negb_false_iff. exact Hne.
  - intros (q & -> & Hneg & Hdec).
    unfold bad_withdrawal_amount. rewrite precision_test.
    apply orb_false_iff. split.
    + apply Qle_bool_false_iff. exact Hneg.
    + apply negb_false_iff, Qeq_bool_iff, round2_fixed. exact Hdec.
Qed.

(** * The collection primitives *)

Lemma find_transaction_set_status_same (i : ObjectId) (s : TxStatus)
  (l : list Transaction) :
  find_transaction i (set_status_by_id i s l)
  = option_map (fun t => set_status t s) (find_transaction i l).
Proof.
  induction l as [|t r IH]; simpl; [reflexivity|].
  destruct (Nat.eqb (_id t) i) eqn:E; simpl.
  - rewrite E. reflexivity.
  - rewrite E. exact IH.
Qed.

Lemma find_transaction_set_status_other (i j : ObjectId) (s : TxStatus)
  (l : list Transaction) :
  j <> i ->
  find_transaction j (set_status_by_id i s l) = find_transaction j l.
Proof.
  intros N. induction l as [|t r IH]; simpl; [reflexivity|].
  destruct (Nat.eqb (_id t) i) eqn:E; simpl.
  - apply Nat.eqb_eq in E.
    destruct (Nat.eqb (_id t) j) eqn:F; [|reflexivity].
    apply Nat.eqb_eq in F. congruence.
  - destruct (Nat.eqb (_id t) j); [reflexivity|exact IH].
Qed.

Lemma find_transaction_app (j : ObjectId) (l1 l2 : list Transaction) :
  find_transaction j (l1 ++ l2)
  = match find_transaction j l1 with
    | Some t => Some t
    | None => find_transaction j l2
    end.
Proof.
  induction l1 as [|t r IH]; simpl; [reflexivity|].
  destruct (Nat.eqb (_id t) j); [reflexivity|exact IH].
Qed.


Lemma find_transaction_None (j : ObjectId) (l : list Transaction) :
  (forall t, In t l -> _id t <> j) -> find_transaction j l = None.
Proof.
  induction l as [|x r IH]; simpl; [reflexivity|].
  intros H. destruct (Nat.eqb (_id x) j) eqn:E.
  - apply Nat.eqb_eq in E. exfalso. apply (H x); auto.
  - apply IH. intros t Ht. apply H. auto.
Qed.

Lemma find_transaction_fresh (w : World) (j : ObjectId) :
  fresh_ids w -> (nextId w <= j)%nat -> find_transaction j (transactions w) = None.
Proof.
  intros F L. apply find_transaction_None. intros t Ht E.
  specialize (F t Ht). lia.
Qed.

Lemma find_transaction_In (l : list Transaction) (t : Transaction) :
  NoDup (map _id l) -> In t l -> find_transaction (_id t) l = Some t.
Proof.
  induction l as [|x r IH]; simpl; [tauto|].
  intros ND [->|Hin].
  - rewrite Nat.eqb_refl. reflexivity.
  - inversion ND as [|? ? Hx ND']; subst.
    destruct (Nat.eqb (_id x) (_id t)) eqn:E.
    + apply Nat.eqb_eq in E. exfalso. apply Hx. rewrite E.
      apply in_map. exact Hin.
    + apply IH; assumption.
Qed.

Lemma set_status_by_id_ids (i : ObjectId) (s : TxStatus) (l : list Transaction) :
  map _id (set_status_by_id i s l) = map _id l.
Proof.
  induction l as [|t r IH]; simpl; [reflexivity|].
  destruct (Nat.eqb (_id t) i); simpl; [reflexivity|].
  rewrite IH. reflexivity.
Qed.

Lemma set_status_by_id_absent (i : ObjectId) (s : TxStatus) (l : list Transaction) :
  find_transaction i l = None -> set_status_by_id i s l = l.
Proof.
  induction l as [|t r IH]; simpl; [reflexivity|].
  destruct (Nat.eqb (_id t) i); [discriminate|].
  intros H. rewrite IH; auto.
Qed.

Lemma find_card_by_id_id (i : ObjectId) (l : list DebitCard) (c : DebitCard) :
  find_card_by_id i l = Some c -> card_id c = i /\ In c l.
Proof.
  induction l as [|x r IH]; simpl; [discriminate|].
  destruct (Nat.eqb (card_id x) i) eqn:E.
  - intros H. injection H as <-. apply Nat.eqb_eq in E. auto.
  - intros H. destruct (IH H). auto.
Qed.

(** * What [create] does *)

Lemma includes_types (v : JsVal) :
  includes TRANSACTION_TYPES v = true ->
  v = JStr "debit" \/ v = JStr "withdrawal".
Proof.
  destruct v; simpl; try discriminate.
  destruct (String.eqb_spec s "debit"); [subst; auto|].
  destruct (String.eqb_spec s "withdrawal"); [subst; auto|].
  discriminate.
Qed.

(** * Stepping through monadic code *)

Lemma same_data_refl (w : World) : same_data w w.
Proof. unfold same_data. auto. Qed.

Lemma same_data_trans (w1 w2 w3 : World) :
  same_data w1 w2 -> same_data w2 w3 -> same_data w1 w3.
Proof. unfold same_data. intuition congruence. Qed.

#[local] Hint Resolve same_data_refl : core.

Lemma bind_inv {A B} (m : M A) (k : A -> M B) (w w' : World) (r : Outcome B) :
  bind m k w = (r, w') ->
  (exists a w1, m w = (Return a, w1) /\ k a w1 = (r, w'))
  \/ (exists e, m w = (Throw e, w') /\ r = Throw e).
Proof.
  unfold bind. destruct (m w) as [[a|e] w1]; intros H.
  - left. eauto.
  - right. injection H as <- <-. eauto.
Qed.

Lemma bind_Return {A B} (m : M A) (k : A -> M B) (w w1 : World) (a : A) :
  m w = (Return a, w1) -> bind m k w = k a w1.
Proof. unfold bind. intros ->. reflexivity. Qed.

Lemma bind_Throw {A B} (m : M A) (k : A -> M B) (w w1 : World) (e : Exn) :
  m w = (Throw e, w1) -> bind m k w = (Throw e, w1).
Proof. unfold bind. intros ->. reflexivity. Qed.

Lemma try_catch_inv {A} (body : M A) (h : Exn -> M A) (w w' : World)
  (r : Outcome A) :
  try_catch body h w = (r, w') ->
  (exists a, body w = (Return a, w') /\ r = Return a)
  \/ (exists e w1, body w = (Throw e, w1) /\ h e w1 = (r, w')).
Proof.
  unfold try_catch. destruct (body w) as [[a|e] w1]; intros H.
  - left. injection H as <- <-. eauto.
  - right. eauto.
Qed.

Lemma try_catch_Return {A} (body : M A) (h : Exn -> M A) (w w1 : World) (a : A) :
  body w = (Return a, w1) -> try_catch body h w = (Return a, w1).
Proof. unfold try_catch. intros ->. reflexivity. Qed.

Lemma try_catch_Throw {A} (body : M A) (h : Exn -> M A) (w w1 : World) (e : Exn) :
  body w = (Throw e, w1) -> try_catch body h w = h e w1.
Proof. unfold try_catch. intros ->. reflexivity. Qed.

Lemma throw_if_inv (c : bool) (msg : string) (k : Z) (w w' : World)
  (r : Outcome unit) :
  throw_if c msg k w = (r, w') ->
  w' = w
  /\ ((c = true /\ r = Throw (Handled {| message := msg; code := k |}))
      \/ (c = false /\ r = Return tt)).
Proof.
  unfold throw_if, throw_handled, throw, ret. destruct c; intros H;
    injection H as <- <-; auto.
Qed.

Lemma throw_if_false (msg : string) (k : Z) (w : World) :
  throw_if false msg k w = (Return tt, w).
Proof. reflexivity. Qed.


Lemma storage_inv (op : StorageOp) (w w' : World) (r : Outcome unit) :
  storage op w = (r, w') ->
  same_data w w' /\ log w' = log w /\ tick w' = S (tick w)
  /\ ((faults w (tick w) op = true /\ r = Throw (Unhandled "MongoError"))
      \/ (faults w (tick w) op = false /\ r = Return tt)).
Proof.
  unfold storage, same_data. destruct (faults w (tick w) op); intros H;
    injection H as <- <-; simpl; intuition auto.
Qed.

Lemma storage_ok (op : StorageOp) (w : World) :
  faults w (tick w) op = false ->
  exists w', storage op w = (Return tt, w') /\ same_data w w'
             /\ log w' = log w /\ tick w' = S (tick w).
Proof.
  intros H. unfold storage. rewrite H. eexists. split; [reflexivity|].
  unfold same_data. simpl. auto 10.
Qed.

Lemma logger_error_inv (msg : string) (w w' : World) (r : Outcome unit) :
  logger_error msg w = (r, w') ->
  r = Return tt /\ same_data w w' /\ log w' = (log w ++ [(LError, msg)])%list
  /\ tick w' = tick w.
Proof.
  unfold logger_error, same_data. intros H. injection H as <- <-. simpl. auto 10.
Qed.

Lemma logger_info_inv (msg : string) (w w' : World) (r : Outcome unit) :
  logger_info msg w = (r, w') ->
  r = Return tt /\ same_data w w' /\ log w' = (log w ++ [(LInfo, msg)])%list
  /\ tick w' = tick w.
Proof.
  unfold logger_info, same_data. intros H. injection H as <- <-. simpl. auto 10.
Qed.

(** What the shared [catch] clause throws is always a [HandledError]: the
    one it caught, or a 500. *)
Lemma rethrow_inv {A} (logged thrown : string) (e : Exn) (w w' : World)
  (r : Outcome A) :
  rethrow logged thrown e w = (r, w') ->
  same_data w w'
  /\ exists he, r = Throw (Handled he)
     /\ match e with
        | Handled he0 => he = he0
        | Unhandled _ => he = {| message := thrown; code := 500 |}
        end.
Proof.
  unfold rethrow, bind, logger_info, logger_error, throw_handled, throw, same_data.
  destruct e; intros H; injection H as <- <-; simpl; eauto 10.
Qed.

Lemma frame_refl (w : World) : frame w w.
Proof. unfold frame. auto. Qed.

Lemma frame_trans (w1 w2 w3 : World) : frame w1 w2 -> frame w2 w3 -> frame w1 w3.
Proof. unfold frame. intros (?&?&?) (?&?&?). repeat split; try congruence; lia. Qed.

Lemma same_data_frame (w w' : World) : same_data w w' -> frame w w'.
Proof. unfold same_data, frame. intros (?&?&?&?&?). repeat split; auto; lia. Qed.

#[local] Hint Resolve frame_refl same_data_frame same_data_refl : core.

Lemma findOne_id_inv (id : ObjectId) (w w' : World) (r : Outcome (option DebitCard)) :
  DebitCard_findOne_id id w = (r, w') ->
  same_data w w' /\ log w' = log w
  /\ ((faults w (tick w) OpFindCard = true /\ r = Throw (Unhandled "MongoError"))
      \/ (faults w (tick w) OpFindCard = false
          /\ r = Return (find_card_by_id id (debitCards w)))).
Proof.
  unfold DebitCard_findOne_id. intros H.
  apply bind_inv in H as [(a & w1 & H1 & H)|(e & H & ->)].
  - apply storage_inv in H1 as (S1 & L1 & _ & [[_ ?]|[F _]]); [discriminate|].
    unfold bind, get_debitCards, ret in H. injection H as <- <-.
    destruct S1 as (?&Hc&?&?&?). rewrite Hc.
    repeat split; auto.
  - apply storage_inv in H as (S1 & L1 & _ & [[F E]|[_ ?]]); [|discriminate].
    injection E as ->. auto 10.
Qed.

Lemma findOne_accountNumber_inv (n : string) (w w' : World)
  (r : Outcome (option DebitCard)) :
  DebitCard_findOne_accountNumber n w = (r, w') ->
  same_data w w' /\ log w' = log w
  /\ ((faults w (tick w) OpFindCard = true /\ r = Throw (Unhandled "MongoError"))
      \/ (faults w (tick w) OpFindCard = false
          /\ r = Return (find_card_by_accountNumber n (debitCards w)))).
Proof.
  unfold DebitCard_findOne_accountNumber. intros H.
  apply bind_inv in H as [(a & w1 & H1 & H)|(e & H & ->)].
  - apply storage_inv in H1 as (S1 & L1 & _ & [[_ ?]|[F _]]); [discriminate|].
    unfold bind, get_debitCards, ret in H. injection H as <- <-.
    destruct S1 as (?&Hc&?&?&?). rewrite Hc.
    repeat split; auto.
  - apply storage_inv in H as (S1 & L1 & _ & [[F E]|[_ ?]]); [|discriminate].
    injection E as ->. auto 10.
Qed.

(** [save] either throws and stores nothing, or stores the document. *)
Lemma Transaction_save_inv (t : Transaction) (w w' : World) (r : Outcome unit) :
  Transaction_save t w = (r, w') ->
  debitCards w' = debitCards w /\ nextId w' = nextId w /\ frame w w'
  /\ log w' = log w
  /\ ((exists what, r = Throw (Unhandled what))
      /\ transactions w' = transactions w
      \/ r = Return tt
         /\ schema_valid t = true
         /\ transactions w'
            = match find_transaction (_id t) (transactions w) with
              | Some _ => set_status_by_id (_id t) (status t) (transactions w)
              | None => (transactions w ++ [t])%list
              end).
Proof.
  unfold Transaction_save. destruct (schema_valid t) eqn:V.
  - intros H. apply bind_inv in H as [(a & w1 & H1 & H)|(e & H & ->)].
    + apply storage_inv in H1 as (S1 & L1 & _ & [[_ ?]|[F _]]); [discriminate|].
      destruct S1 as (Ht&Hc&Hn&Hd&Hf).
      unfold bind, get_transactions, put_transactions, with_transactions in H.
      rewrite Ht in H.
      destruct (find_transaction (_id t) (transactions w)) eqn:E;
        injection H as <- <-; simpl; unfold frame; simpl;
        rewrite ?Hn, ?Hd, ?Hf; repeat split; auto; right; auto.
    + apply storage_inv in H as (S1 & L1 & _ & [[F E]|[_ ?]]); [|discriminate].
      destruct S1 as (Ht&Hc&Hn&Hd&Hf). unfold frame.
      rewrite Hn, Hd, Hf. repeat split; auto. left. eauto.
  - unfold throw. intros H. injection H as <- <-.
    repeat split; auto. left. eauto.
Qed.

Lemma Transaction_updateOne_inv (id : ObjectId) (s : TxStatus) (w w' : World)
  (r : Outcome unit) :
  Transaction_updateOne id s w = (r, w') ->
  debitCards w' = debitCards w /\ nextId w' = nextId w /\ frame w w'
  /\ log w' = log w
  /\ (faults w (tick w) (OpUpdateOne id) = true
      /\ (exists what, r = Throw (Unhandled what))
      /\ transactions w' = transactions w
      \/ faults w (tick w) (OpUpdateOne id) = false
         /\ r = Return tt
         /\ transactions w' = set_status_by_id id s (transactions w)).
Proof.
  unfold Transaction_updateOne. intros H.
  apply bind_inv in H as [(a & w1 & H1 & H)|(e & H & ->)].
  - apply storage_inv in H1 as (S1 & L1 & _ & [[_ ?]|[F _]]); [discriminate|].
    destruct S1 as (Ht&Hc&Hn&Hd&Hf).
    unfold bind, get_transactions, put_transactions, with_transactions in H.
    rewrite Ht in H. injection H as <- <-; simpl; unfold frame; simpl.
    rewrite ?Hn, ?Hd, ?Hf. repeat split; auto.
  - apply storage_inv in H as (S1 & L1 & _ & [[F E]|[_ ?]]); [|discriminate].
    destruct S1 as (Ht&Hc&Hn&Hd&Hf). unfold frame.
    rewrite Hn, Hd, Hf. repeat split; auto. left. eauto.
Qed.

Lemma DebitCard_save_inv (c : DebitCard) (w w' : World) (r : Outcome unit) :
  DebitCard_save c w = (r, w') ->
  transactions w' = transactions w /\ nextId w' = nextId w /\ frame w w'
  /\ log w' = log w
  /\ ((exists what, r = Throw (Unhandled what)) /\ debitCards w' = debitCards w
      \/ r = Return tt /\ debitCards w' = replace_card c (debitCards w)).
Proof.
  unfold DebitCard_save. intros H.
  apply bind_inv in H as [(a & w1 & H1 & H)|(e & H & ->)].
  - apply storage_inv in H1 as (S1 & L1 & _ & [[_ ?]|[F _]]); [discriminate|].
    destruct S1 as (Ht&Hc&Hn&Hd&Hf).
    unfold bind, get_debitCards, put_debitCards, with_debitCards in H.
    rewrite Hc in H. injection H as <- <-; simpl; unfold frame; simpl.
    rewrite ?Hn, ?Hd, ?Hf. repeat split; auto.
  - apply storage_inv in H as (S1 & L1 & _ & [[F E]|[_ ?]]); [|discriminate].
    destruct S1 as (Ht&Hc&Hn&Hd&Hf). unfold frame.
    rewrite Hn, Hd, Hf. repeat split; auto. left. eauto.
Qed.

(** [on_guard H]: [H] says that a [throw_if] followed by more code ended in
    [(r, w')]; either the guard threw, or the rest ran. *)
Ltac on_guard H :=
  let Hg := fresh "Hg" in
  let Hc := fresh "Hc" in
  let Hr := fresh "Hr" in
  apply bind_inv in H as [(? & ? & Hg & H)|(? & Hg & Hr)];
  apply throw_if_inv in Hg as (-> & [[Hc Hg]|[Hc Hg]]);
  try discriminate Hg;
  [ clear Hg | injection Hg as ->; try discriminate Hr; try subst ].

Lemma ret_inv {A} (a : A) (w w' : World) (r : Outcome A) :
  ret a w = (r, w') -> r = Return a /\ w' = w.
Proof. unfold ret. intros H. injection H as <- <-. auto. Qed.

Lemma resolve_debitCard_inv (p : CreateParams) (w w' : World)
  (r : Outcome (option DebitCard)) :
  resolve_debitCard p w = (r, w') ->
  same_data w w' /\ log w' = log w
  /\ match r with
     | Return (Some card) => resolves p w card
     | _ => True
     end.
Proof.
  unfold resolve_debitCard, resolves. destruct (p_debitCard p) as [c|id|].
  - unfold ret. intros H. injection H as <- <-. auto.
  - intros H. apply findOne_id_inv in H as (S & L & [[_ ->]|[_ ->]]); auto.
    destruct (find_card_by_id id (debitCards w)); auto.
  - intros H. on_guard H.
    + apply negb_false_iff in Hc.
      apply findOne_accountNumber_inv in H as (S & L & [[_ ->]|[_ ->]]); auto.
      destruct (find_card_by_accountNumber _ _) eqn:E; auto.
      split; [exact S|]. split; [exact L|]. split; [|reflexivity].
      apply String.eqb_eq. exact Hc.
    + auto.
Qed.

Lemma create_try_inv (p : CreateParams) (w w' : World) (r : Outcome Transaction) :
  create_try p w = (r, w') ->
  debitCards w' = debitCards w /\ frame w w' /\ log w' = log w
  /\ match r with
     | Throw e => transactions w' = transactions w
     | Return t =>
         valid_params p
         /\ (exists card, resolves p w card /\ active card = true
                          /\ t = new_Transaction (nextId w) (now w) p card)
         /\ nextId w' = S (nextId w)
         /\ (if p_skipSave p then transactions w' = transactions w
             else schema_valid t = true
                  /\ transactions w'
                     = match find_transaction (nextId w) (transactions w) with
                       | Some _ =>
                           set_status_by_id (nextId w) Pending (transactions w)
                       | None => (transactions w ++ [t])%list
                       end)
     end.
Proof.
  unfold create_try. intros H.
  on_guard H; [|auto].
  apply negb_false_iff in Hc. rename Hc into Hty.
  apply bind_inv in H as [(u & w1 & H1 & H)|(e & H1 & ->)].
  2:{ destruct (String.eqb (str_of (p_type p)) "debit");
        (on_guard H1;
         [apply throw_if_inv in H1 as (-> & _); auto 10 | auto 10]). }
  assert (Hamt : w1 = w
    /\ ((p_type p = JStr "debit"
         /\ includes TRANSACTION_DEBIT_SUBTYPES (p_subtype p) = true
         /\ valid_debit_amount (p_amount p))
        \/ (p_type p = JStr "withdrawal"
            /\ includes TRANSACTION_WITHDRAWAL_SUBTYPES (p_subtype p) = true
            /\ valid_withdrawal_amount (p_amount p)))).
  { destruct (includes_types _ Hty) as [E|E]; rewrite E in H1; simpl in H1.
    - on_guard H1. apply throw_if_inv in H1 as (-> & [[? ?]|[Ha _]]); [discriminate|].
      split; [reflexivity|]. left. apply negb_false_iff in Hc.
      apply bad_debit_amount_false in Ha. auto.
    - on_guard H1. apply throw_if_inv in H1 as (-> & [[? ?]|[Ha _]]); [discriminate|].
      split; [reflexivity|]. right. apply negb_false_iff in Hc.
      apply bad_withdrawal_amount_false in Ha. auto. }
  destruct Hamt as [-> Hamt]. clear H1.
  on_guard H; [|auto].
  apply negb_false_iff, String.eqb_eq in Hc. rename Hc into Hv.
  on_guard H; [|auto].
  assert (Hd : typeof (p_description p) = "undefined"
               \/ typeof (p_description p) = "string").
  { apply andb_false_iff in Hc as [Hc|Hc];
      apply negb_false_iff, String.eqb_eq in Hc; auto. }
  clear Hc.
  apply bind_inv in H as [(oc & w1 & H1 & H)|(e & H1 & ->)].
  2:{ apply resolve_debitCard_inv in H1 as (S & L & _).
      destruct S as (?&?&?&?&?). repeat split; auto. apply same_data_frame.
      unfold same_data; auto. }
  apply resolve_debitCard_inv in H1 as (S & L & Hres).
  destruct S as (St&Sc&Sn&Sd&Sf).
  destruct oc as [card|].
  2:{ unfold throw_handled, throw in H. injection H as <- <-.
      repeat split; auto; try lia. }
  on_guard H.
  2:{ repeat split; auto; lia. }
  apply negb_false_iff in Hc. rename Hc into Hact.
  unfold bind at 1, new_Date in H. unfold bind at 1, new_ObjectId in H.
  rewrite Sn, Sd in H.
  set (w1' := {| transactions := transactions w1; debitCards := debitCards w1;
                 nextId := S (nextId w); now := now w; tick := tick w1;
                 faults := faults w1; log := log w1 |}) in H.
  assert (Hvp : valid_params p) by (unfold valid_params; auto).
  apply bind_inv in H as [(u2 & w2 & H1 & H)|(e & H1 & ->)].
  - unfold ret in H. injection H as <- <-.
    split; [|split; [|split; [|split; [exact Hvp|split; [eauto|]]]]].
    + destruct (p_skipSave p); simpl in H1.
      * apply ret_inv in H1 as (_ & ->). exact Sc.
      * apply Transaction_save_inv in H1 as (Hc' & _). rewrite Hc'. exact Sc.
    + destruct (p_skipSave p); simpl in H1.
      * apply ret_inv in H1 as (_ & ->). unfold frame. simpl.
        repeat split; auto.
      * apply Transaction_save_inv in H1 as (_ & Hn' & Hf' & _).
        unfold frame in *. simpl in *. destruct Hf' as (-> & -> & _).
        rewrite Hn'. repeat split; auto.
    + destruct (p_skipSave p); simpl in H1.
      * apply ret_inv in H1 as (_ & ->). exact L.
      * apply Transaction_save_inv in H1 as (_ & _ & _ & Hl' & _).
        rewrite Hl'. exact L.
    + destruct (p_skipSave p); simpl in H1.
      * apply ret_inv in H1 as (_ & ->). simpl. auto.
      * apply Transaction_save_inv in H1
          as (_ & Hn' & _ & _ & [[[? ?] _]|(_ & Hsv & Htx)]); [discriminate|].
        simpl in *. rewrite St in Htx. auto.
  - destruct (p_skipSave p); simpl in H1.
    + unfold ret in H1. discriminate.
    + apply Transaction_save_inv in H1
        as (Hc' & Hn' & Hf' & Hl' & [[_ Htx]|(? & _)]); [|discriminate].
      unfold frame in *. simpl in *. destruct Hf' as (-> & -> & _).
      rewrite Hc', Hl', Htx, Hn'. repeat split; auto.
Qed.

(** What [create] throws is a [HandledError] and leaves the collections as
    they were; what it returns is the new document, stored unless
    [skipSave] was asked for. *)
Lemma create_inv (p : CreateParams) (w w' : World) (r : Outcome Transaction) :
  create p w = (r, w') ->
  debitCards w' = debitCards w /\ frame w w'
  /\ match r with
     | Throw e => (exists he, e = Handled he) /\ transactions w' = transactions w
     | Return t =>
         valid_params p
         /\ (exists card, resolves p w card /\ active card = true
                          /\ t = new_Transaction (nextId w) (now w) p card)
         /\ nextId w' = S (nextId w)
         /\ log w' = log w
         /\ (if p_skipSave p then transactions w' = transactions w
             else schema_valid t = true
                  /\ transactions w'
                     = match find_transaction (nextId w) (transactions w) with
                       | Some _ =>
                           set_status_by_id (nextId w) Pending (transactions w)
                       | None => (transactions w ++ [t])%list
                       end)
     end.
Proof.
  unfold create. intros H.
  apply try_catch_inv in H as [(t & H & ->)|(e & w1 & H & Hh)].
  - apply create_try_inv in H as (Hc & Hf & Hl & Hv & Hcard & Hn & Htx).
    auto 10.
  - apply create_try_inv in H as (Hc & Hf & Hl & Htx).
    apply rethrow_inv in Hh as (S & he & -> & _).
    destruct S as (St & Sc & Sn & Sd & Sf).
    split; [congruence|]. split.
    + eapply frame_trans; [exact Hf|]. apply same_data_frame.
      unfold same_data. auto.
    + split; [eauto|congruence].
Qed.

Lemma resolves_fun (p : CreateParams) (w : World) (c1 c2 : DebitCard) :
  resolves p w c1 -> resolves p w c2 -> c1 = c2.
Proof.
  unfold resolves. destruct (p_debitCard p); intros H1 H2.
  - congruence.
  - congruence.
  - destruct H1, H2. congruence.
Qed.

(** When the parameters are valid, the card is found and active, and the
    database answers, [create] returns. *)
Lemma create_returns (p : CreateParams) (w : World) (card : DebitCard) :
  valid_params p ->
  resolves p w card ->
  active card = true ->
  (forall n, faults w n OpFindCard = false) ->
  (p_skipSave p = false ->
   str_of (p_vender p) <> ""
   /\ forall n, faults w n (OpSaveTransaction (nextId w)) = false) ->
  exists w', create p w
             = (Return (new_Transaction (nextId w) (now w) p card), w').
Proof.
  intros (Hamt & Hv & Hd) Hres Hact Hfind Hsave.
  enough (exists w', create_try p w
             = (Return (new_Transaction (nextId w) (now w) p card), w'))
    as (w' & E).
  { exists w'. unfold create. apply try_catch_Return. exact E. }
  unfold create_try.
  assert (Ety : includes TRANSACTION_TYPES (p_type p) = true).
  { destruct Hamt as [(-> & _)|(-> & _)]; reflexivity. }
  rewrite Ety. simpl negb. rewrite (bind_Return _ _ _ _ _ (throw_if_false _ _ w)).
  erewrite (bind_Return _ _ w w tt).
  2:{ destruct Hamt as [(-> & Hs & Ha)|(-> & Hs & Ha)]; simpl;
        rewrite Hs; simpl negb;
        rewrite (bind_Return _ _ _ _ _ (throw_if_false _ _ w)).
      - apply bad_debit_amount_false in Ha. rewrite Ha. reflexivity.
      - apply bad_withdrawal_amount_false in Ha. rewrite Ha. reflexivity. }
  rewrite Hv. simpl negb. rewrite (bind_Return _ _ _ _ _ (throw_if_false _ _ w)).
  erewrite (bind_Return _ _ w w tt).
  2:{ destruct Hd as [-> | ->]; reflexivity. }
  assert (Hr : exists w1, resolve_debitCard p w = (Return (Some card), w1)
                          /\ same_data w w1).
  { unfold resolve_debitCard, resolves in *.
    destruct (p_debitCard p).
    - subst. exists w. auto.
    - unfold DebitCard_findOne_id.
      destruct (storage_ok OpFindCard w (Hfind _)) as (w1 & E & S & _).
      exists w1. rewrite (bind_Return _ _ _ _ _ E).
      unfold bind, get_debitCards, ret. destruct S as (_ & -> & _).
      rewrite Hres. auto using same_data_refl.
      split; [reflexivity|]. destruct (storage_inv _ _ _ _ E) as (S & _). exact S.
    - destruct Hres as [Ht Hres]. rewrite Ht. simpl negb.
      rewrite (bind_Return _ _ _ _ _ (throw_if_false _ _ w)).
      unfold DebitCard_findOne_accountNumber.
      destruct (storage_ok OpFindCard w (Hfind _)) as (w1 & E & S & _).
      exists w1. rewrite (bind_Return _ _ _ _ _ E).
      unfold bind, get_debitCards, ret. destruct S as (_ & -> & _).
      rewrite Hres. split; [reflexivity|].
      destruct (storage_inv _ _ _ _ E) as (S & _). exact S. }
  destruct Hr as (w1 & Er & (St & Sc & Sn & Sd & Sf)).
  rewrite (bind_Return _ _ _ _ _ Er).
  rewrite Hact. simpl negb.
  rewrite (bind_Return _ _ _ _ _ (throw_if_false _ _ w1)).
  unfold bind at 1, new_Date. unfold bind at 1, new_ObjectId.
  rewrite Sn, Sd.
  destruct (p_skipSave p) eqn:Esk; simpl negb; cbv iota.
  - unfold bind, ret, try_catch. eexists. reflexivity.
  - destruct (Hsave eq_refl) as [Hne Hsv].
    unfold Transaction_save.
    assert (Hsch : schema_valid (new_Transaction (nextId w) (now w) p card) = true).
    { unfold schema_valid. simpl. apply negb_true_iff.
      apply String.eqb_neq. exact Hne. }
    rewrite Hsch. simpl _id.
    unfold bind, storage, ret, get_transactions, put_transactions,
      with_transactions. simpl.
    rewrite Sf, Hsv. simpl.
    destruct (find_transaction (nextId w) (transactions w1)); eexists; reflexivity.
Qed.

(** * getBalances *)




Lemma aggregate_balances_inv (card : ObjectId) (w w' : World)
  (r : Outcome (list Totals)) :
  aggregate_balances card w = (r, w') ->
  same_data w w' /\ log w' = log w
  /\ ((faults w (tick w) OpAggregate = true /\ r = Throw (Unhandled "MongoError"))
      \/ (faults w (tick w) OpAggregate = false
          /\ r = Return (balance_pipeline card (transactions w)))).
Proof.
  unfold aggregate_balances. intros H.
  apply bind_inv in H as [(a & w1 & H1 & H)|(e & H & ->)].
  - apply storage_inv in H1 as (S1 & L1 & _ & [[_ ?]|[F _]]); [discriminate|].
    unfold bind, get_transactions, ret in H. injection H as <- <-.
    destruct S1 as (Ht&?&?&?&?). rewrite Ht.
    split; [unfold same_data; auto|]. auto.
  - apply storage_inv in H as (S1 & L1 & _ & [[F E]|[_ ?]]); [|discriminate].
    injection E as ->. auto 10.
Qed.

(** [getBalances] returns exactly when the aggregation answers and the
    card has a transaction; otherwise it throws its 500.  It never changes
    the collections. *)
Lemma getBalances_inv (this : DebitCard) (w w' : World) (r : Outcome Balances) :
  getBalances this w = (r, w') ->
  same_data w w'
  /\ match r with
     | Return b =>
         faults w (tick w) OpAggregate = false
         /\ log w' = log w
         /\ filter (fun t => Nat.eqb (_debitCard t) (card_id this))
                   (transactions w) <> []
         /\ b = (let m := filter (fun t => Nat.eqb (_debitCard t) (card_id this))
                                 (transactions w) in
                 {| currentBalance := sum_cond Completed m;
                    pendingBalance := sum_cond Pending m;
                    finalBalance := (sum_cond Completed m + sum_cond Pending m)%Q |})
     | Throw e =>
         e = Handled {| message := "Error getting debit card balances";
                        code := 500 |}
         /\ (faults w (tick w) OpAggregate = true
             \/ filter (fun t => Nat.eqb (_debitCard t) (card_id this))
                       (transactions w) = [])
     end.
Proof.
  unfold getBalances. intros H.
  apply try_catch_inv in H as [(b & H & ->)|(e & w1 & H & Hh)].
  - apply bind_inv in H as [(totals & w1 & H1 & H)|(e & H & ?)]; [|discriminate].
    apply aggregate_balances_inv in H1 as (S & L & [[_ ?]|[F E]]); [discriminate|].
    injection E as ->. unfold balance_pipeline in H.
    destruct (filter _ (transactions w)) as [|t0 m] eqn:Em; simpl in H.
    + discriminate.
    + apply ret_inv in H as (E & ->). injection E as <-.
      split; [exact S|]. repeat split; auto. discriminate.
  - unfold bind in Hh. destruct (logger_error _ w1) as [ro w2] eqn:El.
    apply logger_error_inv in El as (-> & S2 & _).
    unfold throw_handled, throw in Hh. injection Hh as <- <-.
    apply bind_inv in H as [(totals & w0 & H1 & H)|(e0 & H & ?)].
    + apply aggregate_balances_inv in H1 as (S & L & [[_ ?]|[F E]]); [discriminate|].
      injection E as ->. unfold balance_pipeline in H.
      destruct (filter _ (transactions w)) as [|t0 m] eqn:Em; simpl in H.
      * unfold throw in H. injection H as _ <-.
        split; [eapply same_data_trans; eauto|]. auto.
      * discriminate.
    + apply aggregate_balances_inv in H as (S & L & [[F _]|[_ ?]]); [|discriminate].
      split; [eapply same_data_trans; eauto|]. auto.
Qed.

Lemma getBalances_returns (this : DebitCard) (w : World) :
  faults w (tick w) OpAggregate = false ->
  filter (fun t => Nat.eqb (_debitCard t) (card_id this)) (transactions w) <> [] ->
  exists b w', getBalances this w = (Return b, w').
Proof.
  intros F Hm.
  destruct (getBalances this w) as [[b|e] w'] eqn:E; [eauto|].
  apply getBalances_inv in E as (_ & _ & [F'|Hm']); [congruence|contradiction].
Qed.

Lemma filter_nil_iff {A} (f : A -> bool) (l : list A) :
  filter f l = [] <-> forall x, In x l -> f x = false.
Proof.
  induction l as [|x r IH]; simpl.
  - split; [intros _ y []|reflexivity].
  - destruct (f x) eqn:E.
    + split; [discriminate|]. intros H. specialize (H x (or_introl eq_refl)).
      congruence.
    + rewrite IH. split.
      * intros H y [<-|Hy]; auto.
      * intros H y Hy. apply H. auto.
Qed.

(** * Balances (C4, C10) *)


(** C4 does not hold of the code: on an account that has no transaction
    yet the balances are not the three empty sums; [getBalances] throws its
    500. *)
Theorem getBalances_fresh_account_throws :
  fst (getBalances card_a fresh_accounts)
  = Throw (Handled {| message := "Error getting debit card balances";
                      code := 500 |})
  /\ of_card (card_id card_a) Completed (transactions fresh_accounts) = []
  /\ of_card (card_id card_a) Pending (transactions fresh_accounts) = [].
Proof. repeat split. Qed.

(** The same run on an account with history: completed 100, pending -20.25,
    the failed and the canceled purchase left out. *)
Example getBalances_funded :
  match fst (getBalances card_a funded_world) with
  | Return b =>
      (currentBalance b == 100)%Q /\ (pendingBalance b == - (2025 # 100))%Q
      /\ (finalBalance b == 7975 # 100)%Q
  | Throw _ => False
  end.
Proof. vm_compute. repeat split. Qed.

Lemma createTransfer_try_inv (s r a : JsVal) (w w' : World)
  (res : Outcome (Transaction * Transaction)) :
  createTransferTransaction_try s r a w = (res, w') ->
  (exists e, res = Throw e /\ transactions w' = transactions w
             /\ debitCards w' = debitCards w /\ frame w w')
  \/ exists scard rcard w1 bal w2,
       typeof s = "string" /\ typeof r = "string"
       /\ bad_transfer_amount a = false
       /\ find_card_by_accountNumber (str_of s) (debitCards w) = Some scard
       /\ active scard = true
       /\ find_card_by_accountNumber (str_of r) (debitCards w) = Some rcard
       /\ active rcard = true
       /\ same_data w w1
       /\ getBalances scard w1 = (Return bal, w2)
       /\ js_lt (Fin (finalBalance bal)) (jsnum_of a) = false
       /\ (senderTransaction <- create (sender_params a scard rcard) ;;
           receiverTransaction <- create (receiver_params a scard rcard) ;;
           ret (senderTransaction, receiverTransaction)) w2 = (res, w').
Proof.
  unfold createTransferTransaction_try. intros H.
  on_guard H; [|left; eauto 10].
  apply negb_false_iff, String.eqb_eq in Hc. rename Hc into Hs.
  on_guard H; [|left; eauto 10].
  apply negb_false_iff, String.eqb_eq in Hc. rename Hc into Hr.
  on_guard H; [|left; eauto 10]. rename Hc into Ha.
  apply bind_inv in H as [(so & w1 & H1 & H)|(e & H1 & ->)].
  2:{ apply findOne_accountNumber_inv in H1 as (S & _). left.
      exists e. destruct S as (?&?&?&?&?). unfold frame.
      repeat split; auto; lia. }
  apply findOne_accountNumber_inv in H1 as (S1 & _ & [[_ ?]|[_ E]]); [discriminate|].
  injection E as ->.
  destruct (find_card_by_accountNumber (str_of s) (debitCards w)) as [scard|] eqn:Es.
  2:{ unfold throw_handled, throw in H. injection H as <- <-. left.
      destruct S1 as (?&?&?&?&?). unfold frame. eexists. repeat split; eauto; lia. }
  on_guard H.
  2:{ left. destruct S1 as (?&?&?&?&?). unfold frame.
      eexists. repeat split; eauto; lia. }
  apply negb_false_iff in Hc. rename Hc into Hsa.
  apply bind_inv in H as [(ro & w2 & H1 & H)|(e & H1 & ->)].
  2:{ apply findOne_accountNumber_inv in H1 as (S & _). left.
      pose proof (same_data_trans _ _ _ S1 S) as (?&?&?&?&?).
      exists e. unfold frame. repeat split; auto; lia. }
  apply findOne_accountNumber_inv in H1 as (S2 & _ & [[_ ?]|[_ E]]); [discriminate|].
  injection E as ->.
  pose proof (same_data_trans _ _ _ S1 S2) as S12.
  destruct S1 as (_ & Sc1 & _). rewrite Sc1 in H.
  destruct (find_card_by_accountNumber (str_of r) (debitCards w)) as [rcard|] eqn:Er.
  2:{ unfold throw_handled, throw in H. injection H as <- <-. left.
      destruct S12 as (?&?&?&?&?). unfold frame. eexists. repeat split; eauto; lia. }
  on_guard H.
  2:{ left. destruct S12 as (?&?&?&?&?). unfold frame.
      eexists. repeat split; eauto; lia. }
  apply negb_false_iff in Hc. rename Hc into Hra.
  apply bind_inv in H as [(bal & w3 & H1 & H)|(e & H1 & ->)].
  2:{ apply getBalances_inv in H1 as (S3 & _). left.
      pose proof (same_data_trans _ _ _ S12 S3) as (?&?&?&?&?).
      exists e. unfold frame. repeat split; auto; lia. }
  pose proof (getBalances_inv _ _ _ _ H1) as (S3 & _).
  on_guard H.
  2:{ left. pose proof (same_data_trans _ _ _ S12 S3) as (?&?&?&?&?).
      unfold frame. eexists. repeat split; eauto; lia. }
  right. exists scard, rcard, w2, bal, w3. repeat split; auto; try apply S12.
Qed.

(** C10. For an account that has no transaction at all, [getBalances] does
    not return zero balances: it throws the generic 500 (the aggregation
    yields no document and [totals[0]] is read all the same), whatever the
    database does; so a transfer out of such an account always fails, and
    creates nothing. *)
Theorem getBalances_no_transactions (w : World) (this : DebitCard)
  (Hnone : forall t, In t (transactions w) -> _debitCard t <> card_id this) :
  (exists w',
     getBalances this w
     = (Throw (Handled {| message := "Error getting debit card balances";
                          code := 500 |}), w')
     /\ same_data w w')
  /\ (forall receiverAccountNumber amount,
        find_card_by_accountNumber (accountNumber this) (debitCards w)
        = Some this ->
        exists he w',
          createTransferTransaction (JStr (accountNumber this))
            receiverAccountNumber amount w
          = (Throw (Handled he), w')
          /\ transactions w' = transactions w).
Proof.
  assert (Hempty : forall w1, same_data w w1 ->
            filter (fun t => Nat.eqb (_debitCard t) (card_id this))
                   (transactions w1) = []).
  { intros w1 (-> & _). apply filter_nil_iff. intros t Ht.
    apply Nat.eqb_neq. apply Hnone. exact Ht. }
  split.
  - destruct (getBalances this w) as [[b|e] w'] eqn:E.
    + apply getBalances_inv in E as (_ & _ & _ & Hm & _).
      exfalso. apply Hm. apply Hempty. apply same_data_refl.
    + apply getBalances_inv in E as (S & -> & _). eauto.
  - intros r a Hfind. unfold createTransferTransaction.
    destruct (createTransferTransaction_try (JStr (accountNumber this)) r a w)
      as [res w1] eqn:E.
    apply createTransfer_try_inv in E as Hinv.
    destruct Hinv as [(e & -> & Ht & _)|Hinv].
    + rewrite (try_catch_Throw _ _ _ _ _ E).
      destruct (rethrow _ _ e w1) as [r2 w2] eqn:E2.
      apply rethrow_inv in E2 as ((Ht2 & _) & he & -> & _).
      exists he, w2. split; [reflexivity|congruence].
    + exfalso.
      destruct Hinv as (scard & rcard & w0 & bal & w2 & _ & _ & _ & Hs & _ & _
                        & _ & S & Hb & _).
      simpl in Hs. rewrite Hfind in Hs. injection Hs as <-.
      apply getBalances_inv in Hb as (_ & _ & _ & Hm & _).
      apply Hm. apply Hempty. exact S.
Qed.

(** [card_a] of [fresh_accounts] is such an account. *)
Lemma getBalances_no_transactions_witness :
  (exists w',
     getBalances card_a fresh_accounts
     = (Throw (Handled {| message := "Error getting debit card balances";
                          code := 500 |}), w')
     /\ same_data fresh_accounts w')
  /\ (forall receiverAccountNumber amount,
        find_card_by_accountNumber (accountNumber card_a)
          (debitCards fresh_accounts) = Some card_a ->
        exists he w',
          createTransferTransaction (JStr (accountNumber card_a))
            receiverAccountNumber amount fresh_accounts
          = (Throw (Handled he), w')
          /\ transactions w' = transactions fresh_accounts).
Proof.
  apply (getBalances_no_transactions fresh_accounts card_a).
  simpl. intros t [].
Defined.

(** With valid parameters and a database that answers, the transfer out of
    a fresh account fails with that 500, not with "insufficient funds". *)
Example transfer_from_fresh_account :
  fst (createTransferTransaction (JStr "4000000000000001")
         (JStr "4000000000000002") (JNum (Fin 20)) fresh_accounts)
  = Throw (Handled {| message := "Error getting debit card balances";
                      code := 500 |}).
Proof. reflexivity. Qed.

(** * Creation-time validation (C8) *)




(** The unit tests' rejected amount, 99.999999, and an accepted one. *)
Example create_rejects_six_decimals :
  fst (create (debit_credit_params (JNum (Fin (99999999 # 1000000)))) funded_world)
  = Throw (Handled
             {| message :=
                  "Debit transaction amount required as a positive number with no more than 2 decimal places";
                code := 400 |}).
Proof. reflexivity. Qed.

Example create_accepts_two_decimals :
  match fst (create (debit_credit_params (JNum (Fin (1050 # 100)))) funded_world) with
  | Return t => type t = Debit /\ status t = Pending /\ (amount t == 1050 # 100)%Q
  | Throw _ => False
  end.
Proof. vm_compute. repeat split. Qed.

(** * Transfers (C6) *)

Lemma reliable_frame (w w' : World) : frame w w' -> reliable w -> reliable w'.
Proof. intros (_ & F & _) R n op. rewrite F. apply R. Qed.

Lemma fresh_ids_same (w w' : World) :
  transactions w' = transactions w -> (nextId w <= nextId w')%nat ->
  fresh_ids w -> fresh_ids w'.
Proof.
  intros Ht Hn F t Hin. rewrite Ht in Hin. specialize (F t Hin). lia.
Qed.

Lemma fresh_ids_app (w w' : World) (t : Transaction) :
  transactions w' = (transactions w ++ [t])%list ->
  (_id t < nextId w')%nat -> (nextId w <= nextId w')%nat ->
  fresh_ids w -> fresh_ids w'.
Proof.
  intros Ht Hid Hn F x Hin. rewrite Ht in Hin. apply in_app_or in Hin as [Hin|[<-|[]]].
  - specialize (F x Hin). lia.
  - exact Hid.
Qed.





Lemma reliable_world_of (txs : list Transaction) : reliable (world_of txs).
Proof. intros n op. reflexivity. Qed.

Lemma fresh_ids_funded_world : fresh_ids funded_world.
Proof.
  intros t Hin. simpl in Hin.
  repeat (destruct Hin as [<-|Hin]; [simpl; lia|]). destruct Hin.
Qed.



(** * The balance floor (C1) *)

(** The object returned by [getBalances] has no property [currentbalance]:
    the floor test adds the amount to [undefined] and compares [NaN]. *)
Lemma floor_test_never_fires (cfg : Config) (debitBalance : Balances)
  (transaction : Transaction) :
  js_lt (js_add (num_of_prop (Balances_prop debitBalance "currentbalance"))
                (Fin (amount transaction)))
        (Fin (MAX_NEGATIVE_BALANCE cfg))
  = false.
Proof. reflexivity. Qed.

(** C1 does not hold of the code: the running balance is 10, the floor
    -100 and the pending withdrawal -150, so the withdrawal would leave -140,
    below the floor; the engine stores it as [Completed]. *)
Theorem validatePending_completes_below_floor :
  (10 + - (150) < MAX_NEGATIVE_BALANCE default_config)%Q
  /\ option_map status (stored overdrawing_world 11%nat) = Some Pending
  /\ option_map status
       (stored (snd (validatePending default_config overdrawing_world)) 11%nat)
     = Some Completed.
Proof.
  split; [|split; reflexivity].
  vm_compute. reflexivity.
Qed.

(** * The overdraft fee (C2) *)

(** An account that was never charged is never due. *)
Lemma overdraft_never_due_first_time (debitBalance : Balances)
  (debitCard : DebitCard) (today : Z) :
  lastOverdraftFee debitCard = None ->
  overdraft_due debitBalance debitCard today = false.
Proof.
  intros H. unfold overdraft_due. rewrite H. apply andb_false_r.
Qed.

(** C2 does not hold of the code: the account was never charged a fee and
    its balance after settlement is 10 - 50 = -40, yet no fee transaction
    is created and [lastOverdraftFee] stays unset. *)
Theorem validatePending_charges_no_first_fee :
  let w' := snd (validatePending default_config dipping_world) in
  option_map status (stored w' 11%nat) = Some Completed
  /\ (total_amount (of_card 1%nat Completed (transactions w')) < 0)%Q
  /\ has_fee w' = false
  /\ option_map lastOverdraftFee (find_card_by_id 1%nat (debitCards w'))
     = Some None.
Proof.
  repeat split.
Qed.

(** Once a fee was charged more than five days ago the next one is charged;
    within the five days it is not. *)
Example validatePending_charges_after_cooldown :
  has_fee (snd (validatePending default_config (charged_world (FIVE_DAYS + 1))))
  = true
  /\ has_fee (snd (validatePending default_config (charged_world FIVE_DAYS)))
     = false.
Proof. split; reflexivity. Qed.

(** * Derived transactions: cashback and fee *)

Lemma TxStatus_eqb_eq (a b : TxStatus) : TxStatus_eqb a b = true <-> a = b.
Proof. destruct a, b; simpl; split; intros H; congruence. Qed.

Lemma TxType_eqb_eq (a b : TxType) : TxType_eqb a b = true <-> a = b.
Proof. destruct a, b; simpl; split; intros H; congruence. Qed.

Lemma TxSubtype_eqb_eq (a b : TxSubtype) : TxSubtype_eqb a b = true <-> a = b.
Proof. destruct a, b; simpl; split; intros H; congruence. Qed.

(** Saving a document whose id is not in the collection appends it. *)
Lemma save_new (t : Transaction) (w w' : World) (r : Outcome unit) :
  find_transaction (_id t) (transactions w) = None ->
  Transaction_save t w = (r, w') ->
  debitCards w' = debitCards w /\ nextId w' = nextId w /\ frame w w'
  /\ log w' = log w
  /\ ((exists what, r = Throw (Unhandled what))
      /\ transactions w' = transactions w
      \/ r = Return tt /\ transactions w' = (transactions w ++ [t])%list).
Proof.
  intros Hnew H.
  apply Transaction_save_inv in H as (Hc & Hn & Hf & Hl & [Hthrow|(-> & _ & Htx)]).
  - auto 10.
  - rewrite Hnew in Htx. auto 10.
Qed.

Lemma createCashback_inv (cfg : Config) (t : Transaction) (w w' : World)
  (r : Outcome Transaction) :
  fresh_ids w ->
  createCashbackTransaction cfg (Some t) w = (r, w') ->
  debitCards w' = debitCards w /\ frame w w'
  /\ match r with
     | Throw e =>
         (exists he, e = Handled he) /\ transactions w' = transactions w
     | Return c =>
         status t = Completed /\ type t = Withdrawal /\ subtype t = Purchase
         /\ (exists card,
               find_card_by_id (_debitCard t) (debitCards w) = Some card
               /\ active card = true
               /\ c = cashback_of cfg t w card)
         /\ (0 < round2 (Qabs (amount t) * CASHBACK_RATE cfg))%Q
         /\ nextId w' = S (nextId w)
         /\ log w' = log w
         /\ transactions w' = (transactions w ++ [c])%list
     end.
Proof.
  intros F H. unfold createCashbackTransaction in H.
  apply try_catch_inv in H as [(c & H & ->)|(e & w1 & H & Hh)].
  - unfold createCashbackTransaction_try in H.
    on_guard H. on_guard H.
    apply orb_false_iff in Hc0 as [Hc0 Hsub].
    apply orb_false_iff in Hc0 as [Hst Hty].
    apply negb_false_iff, TxStatus_eqb_eq in Hst.
    apply negb_false_iff, TxType_eqb_eq in Hty.
    apply negb_false_iff, TxSubtype_eqb_eq in Hsub.
    apply bind_inv in H as [(created & w1 & H1 & H)|(e & _ & ?)]; [|discriminate].
    apply create_inv in H1
      as (Hc1 & Hf1 & Hv & (card & Hres & Hact & ->) & Hn1 & Hl1 & Htx1).
    simpl in Htx1.
    apply bind_inv in H as [(u & w2 & H2 & H)|(e & _ & ?)]; [|discriminate].
    apply ret_inv in H as (E & ->). injection E as ->.
    apply save_new in H2 as (Hc2 & Hn2 & Hf2 & Hl2 & [[[? ?] _]|[_ Htx2]]);
      [discriminate| |rewrite Htx1; apply find_transaction_fresh; auto].
    split; [congruence|]. split; [eapply frame_trans; eauto|].
    repeat split; auto; try congruence.
    + exists card. unfold resolves in Hres. simpl in Hres. auto.
    + destruct Hv as ([(_ & _ & (q & Eq & Hpos & _))|(E & _)] & _);
        [|discriminate E].
      simpl in Eq. injection Eq as <-. exact Hpos.
  - apply rethrow_inv in Hh as (S & he & -> & _).
    assert (debitCards w1 = debitCards w /\ frame w w1
            /\ transactions w1 = transactions w) as (Hc1 & Hf1 & Htx1).
    { unfold createCashbackTransaction_try in H.
      on_guard H; [|auto]. on_guard H; [|auto].
      apply bind_inv in H as [(created & w2 & H1 & H)|(e0 & H1 & E)].
      - apply create_inv in H1
          as (Hc1 & Hf1 & Hv & (card & Hres & Hact & ->) & Hn1 & Hl1 & Htx1).
        simpl in Htx1.
        apply bind_inv in H as [(u & w3 & H2 & H)|(e0 & H2 & E)].
        + apply ret_inv in H as (? & _). discriminate.
        + apply save_new in H2 as (Hc2 & Hn2 & Hf2 & Hl2 & [[_ Htx2]|[? _]]);
            [|discriminate|rewrite Htx1; apply find_transaction_fresh; auto].
          split; [congruence|]. split; [eapply frame_trans; eauto|congruence].
      - apply create_inv in H1 as (Hc1 & Hf1 & _ & Htx1). auto. }
    destruct S as (St & Sc & Sn & Sd & Sf).
    split; [congruence|]. split.
    + eapply frame_trans; [exact Hf1|]. apply same_data_frame.
      unfold same_data. auto.
    + split; [eauto|congruence].
Qed.

(** * Settling one transaction *)

Lemma settle_unfold (cfg : Config) (t : Transaction) (bal : Balances) :
  settle cfg t bal
  = (try_catch
       ((if TxType_eqb (type t) Withdrawal
            && includes CASHBACK_VENDERS (JStr (toUpperCase (vender t)))
         then _ <- createCashbackTransaction cfg (Some (set_status t Completed)) ;;
              ret tt
         else ret tt) ;;
        Transaction_updateOne (_id t) Completed)
       (swallow "Error validating transaction") ;;
     ret (add_currentBalance bal (amount t))).
Proof.
  unfold settle. rewrite floor_test_never_fires.
  destruct (TxType_eqb (type t) Withdrawal); reflexivity.
Qed.

(** What one turn of the loop does.  It never throws and always adds the
    amount to the running balance.  It creates at most one document, the
    cashback; then either the [Completed] status is stored, or an error is
    logged and the stored status is left as it was. *)
Lemma settle_inv (cfg : Config) (t : Transaction) (bal : Balances)
  (w w' : World) (r : Outcome Balances) :
  fresh_ids w ->
  settle cfg t bal w = (r, w') ->
  r = Return (add_currentBalance bal (amount t))
  /\ debitCards w' = debitCards w /\ frame w w'
  /\ exists new,
       (new = []
        \/ type t = Withdrawal
           /\ includes CASHBACK_VENDERS (JStr (toUpperCase (vender t))) = true
           /\ subtype t = Purchase
           /\ exists card,
                find_card_by_id (_debitCard t) (debitCards w) = Some card
                /\ active card = true
                /\ new = [cashback_of cfg t w card])
       /\ (nextId w + List.length new <= nextId w')%nat
       /\ (transactions w'
           = set_status_by_id (_id t) Completed (transactions w ++ new)%list
           /\ log w' = log w
           /\ (type t = Withdrawal ->
               includes CASHBACK_VENDERS (JStr (toUpperCase (vender t))) = true ->
               new <> [])
           \/ transactions w' = (transactions w ++ new)%list
              /\ In (LError, "Error validating transaction") (log w')
              /\ (new <> [] ->
                  exists n, faults w n (OpUpdateOne (_id t)) = true)).
Proof.
  intros F H. rewrite settle_unfold in H.
  apply bind_inv in H as [(u & w3 & H & Hret)|(e & H & _)].
  2:{ exfalso. apply try_catch_inv in H as [(a & _ & ?)|(e0 & w1 & _ & Hs)];
        [discriminate|].
      unfold swallow in Hs. apply logger_error_inv in Hs as (? & _). discriminate. }
  apply ret_inv in Hret as (-> & ->). split; [reflexivity|].
  (* the cashback part *)
  assert (Hcb : forall r1 w1,
    (if TxType_eqb (type t) Withdrawal
        && includes CASHBACK_VENDERS (JStr (toUpperCase (vender t)))
     then _ <- createCashbackTransaction cfg (Some (set_status t Completed)) ;;
          ret tt
     else ret tt) w = (r1, w1) ->
    debitCards w1 = debitCards w /\ frame w w1
    /\ match r1 with
       | Throw _ => transactions w1 = transactions w
       | Return _ =>
           exists new,
             (new = [] /\ w1 = w
              /\ ((type t = Withdrawal ->
                   includes CASHBACK_VENDERS (JStr (toUpperCase (vender t)))
                   = true -> False))
              \/ type t = Withdrawal
                 /\ includes CASHBACK_VENDERS (JStr (toUpperCase (vender t))) = true
                 /\ subtype t = Purchase
                 /\ log w1 = log w
                 /\ exists card,
                      find_card_by_id (_debitCard t) (debitCards w) = Some card
                      /\ active card = true
                      /\ new = [cashback_of cfg t w card])
             /\ nextId w1 = (nextId w + List.length new)%nat
             /\ transactions w1 = (transactions w ++ new)%list
       end).
  { intros r1 w1 H1.
    destruct (TxType_eqb (type t) Withdrawal) eqn:Ety; cbn [andb] in H1.
    - destruct (includes CASHBACK_VENDERS (JStr (toUpperCase (vender t)))) eqn:Ev.
      + apply TxType_eqb_eq in Ety.
        apply bind_inv in H1 as [(c & w2 & H1 & Hret)|(e & H1 & ->)].
        * apply ret_inv in Hret as (-> & ->).
          apply createCashback_inv in H1
            as (Hc & Hf & _ & _ & Hsub & Hcard & _ & Hn & Hl & Htx); [|exact F].
          split; [exact Hc|]. split; [exact Hf|].
          exists [c]. split; [right|].
          -- destruct Hcard as (card & ? & ? & ->). repeat split; auto.
             exists card. auto.
          -- simpl. split; [lia|exact Htx].
        * apply createCashback_inv in H1 as (Hc & Hf & _ & Htx); [|exact F].
          auto.
      + apply ret_inv in H1 as (-> & ->). split; [reflexivity|].
        split; [apply frame_refl|]. exists []. split.
        * left. repeat split. intros _ ?. discriminate.
        * simpl. rewrite app_nil_r. split; [lia|reflexivity].
    - apply ret_inv in H1 as (-> & ->). split; [reflexivity|].
      split; [apply frame_refl|]. exists []. split.
      + left. repeat split. intros E _. apply TxType_eqb_eq in E. congruence.
      + simpl. rewrite app_nil_r. split; [lia|reflexivity]. }
  apply try_catch_inv in H as [(a & H & _)|(e0 & w1 & H & Hs)].
  - (* nothing thrown: the status is stored *)
    apply bind_inv in H as [(u1 & w1 & H1 & H)|(e & _ & ?)]; [|discriminate].
    apply Hcb in H1 as (Hc1 & Hf1 & new & Hnew & Hn1 & Htx1).
    apply Transaction_updateOne_inv in H
      as (Hc2 & Hn2 & Hf2 & Hl2 & [(_ & [? ?] & _)|(_ & _ & Htx2)]); [discriminate|].
    split; [congruence|]. split; [eapply frame_trans; eauto|].
    exists new. split; [|split; [lia|left]].
    + destruct Hnew as [(-> & _)|(? & ? & ? & _ & ?)]; auto.
    + rewrite Htx2, Htx1. split; [reflexivity|]. split.
      * destruct Hnew as [(_ & -> & _)|(_ & _ & _ & Hl & _)]; congruence.
      * intros Ety Ev. destruct Hnew as [(_ & _ & Hno)|(_ & _ & _ & _ & card & _ & _ & ->)].
        -- exfalso. auto.
        -- discriminate.
  - (* something was thrown, logged and swallowed *)
    unfold swallow in Hs. apply logger_error_inv in Hs as (_ & S & Hl & _).
    assert (Hlog : In (LError, "Error validating transaction") (log w3)).
    { rewrite Hl. apply in_or_app. right. left. reflexivity. }
    destruct S as (St & Sc & Sn & Sd & Sf).
    apply bind_inv in H as [(u1 & w2 & H1 & H)|(e & H1 & _)].
    + apply Hcb in H1 as (Hc1 & Hf1 & new & Hnew & Hn1 & Htx1).
      apply Transaction_updateOne_inv in H
        as (Hc2 & Hn2 & Hf2 & Hl2 & [(Hfault & _ & Htx2)|(_ & ? & _)]);
        [|discriminate].
      split; [congruence|]. split.
      { eapply frame_trans; [exact Hf1|]. eapply frame_trans; [exact Hf2|].
        apply same_data_frame. unfold same_data. auto. }
      exists new. split; [|split; [lia|right]].
      * destruct Hnew as [(-> & _)|(? & ? & ? & _ & ?)]; auto.
      * split; [congruence|]. split; [exact Hlog|].
        intros _. exists (tick w2). destruct Hf1 as (_ & <- & _). exact Hfault.
    + apply Hcb in H1 as (Hc1 & Hf1 & Htx1).
      split; [congruence|]. split.
      { eapply frame_trans; [exact Hf1|].
        apply same_data_frame. unfold same_data. auto. }
      exists []. split; [auto|]. split; [destruct Hf1 as (_ & _ & ?); simpl; lia|right].
      rewrite app_nil_r. split; [congruence|]. split; [exact Hlog|].
      intros N. contradiction.
Qed.

(** * Cashback (C3) *)

(** The test of the engine, [CASHBACK_VENDERS.includes(vender.toUpperCase())],
    is membership in the vendor set up to the case of the letters. *)
Lemma cashback_vender_iff (v : string) :
  includes CASHBACK_VENDERS (JStr (toUpperCase v)) = true <-> cashback_vender v.
Proof.
  unfold cashback_vender, same_ignoring_case, includes. rewrite existsb_exists.
  split.
  - intros (c & Hin & E). apply String.eqb_eq in E. exists c. split; [exact Hin|].
    rewrite E. simpl in Hin.
    destruct Hin as [<-|[<-|[<-|[]]]]; reflexivity.
  - intros (c & Hin & E). exists c. split; [exact Hin|].
    apply String.eqb_eq. rewrite E. simpl in Hin.
    destruct Hin as [<-|[<-|[<-|[]]]]; reflexivity.
Qed.


Lemma created_since_old (w : World) :
  fresh_ids w ->
  filter (fun c => Nat.leb (nextId w) (_id c)) (transactions w) = [].
Proof.
  intros F. apply filter_nil_iff. intros t Ht. apply Nat.leb_gt. apply F. exact Ht.
Qed.



Lemma fresh_ids_shopping_world : fresh_ids shopping_world.
Proof.
  intros t Hin. simpl in Hin.
  repeat (destruct Hin as [<-|Hin]; [simpl; lia|]). destruct Hin.
Qed.


Example cashback_of_purchase_of_20 :
  map (fun c => (subtype c, status c, description c))
      (created_since shopping_world
         (snd (settle default_config purchase_of_20 balance_of_100
                 shopping_world)))
  = [(Cashback, Completed, Some "Cashback for eligible purchase - 12")]
  /\ Forall (fun c => (amount c == 20 # 100)%Q)
       (created_since shopping_world
          (snd (settle default_config purchase_of_20 balance_of_100
                  shopping_world))).
Proof.
  split; [reflexivity|]. vm_compute. constructor; [reflexivity|constructor].
Qed.

(** A whole run over the same account: of the three pending purchases only
    the one of 20 at "Amzn" yields a cashback; the one at "grocer" is not
    eligible, and the one of 0.25 at "amzn" is not stored as completed. *)
Example validatePending_cashback_run :
  let w' := snd (validatePending default_config shopping_world) in
  fst (validatePending default_config shopping_world) = Return tt
  /\ map (fun c => (type c, subtype c, status c, description c))
         (created_since shopping_world w')
     = [(Debit, Cashback, Completed,
         Some "Cashback for eligible purchase - 12")]
  /\ Forall (fun c => (amount c == 20 # 100)%Q)
       (created_since shopping_world w')
  /\ map (stored_status w') [11; 12; 13]%nat
     = [Some Pending; Some Completed; Some Completed].
Proof.
  split; [reflexivity|]. split; [reflexivity|]. split; [|reflexivity].
  vm_compute. constructor; [reflexivity|constructor].
Qed.

(** * Failing forward (C5) *)

(** When the cashback cannot be created the turn stores nothing: the
    status update is skipped. *)
Lemma settle_cashback_failure (cfg : Config) (t : Transaction) (bal : Balances)
  (w w2 : World) (e : Exn) :
  fresh_ids w ->
  type t = Withdrawal ->
  includes CASHBACK_VENDERS (JStr (toUpperCase (vender t))) = true ->
  createCashbackTransaction cfg (Some (set_status t Completed)) w = (Throw e, w2) ->
  exists w1,
    settle cfg t bal w = (Return (add_currentBalance bal (amount t)), w1)
    /\ transactions w1 = transactions w
    /\ In (LError, "Error validating transaction") (log w1).
Proof.
  intros F Hty Hv Hcb.
  rewrite settle_unfold, Hty, Hv. cbn [TxType_eqb andb].
  pose proof (createCashback_inv _ _ _ _ _ F Hcb) as (_ & _ & _ & Htx).
  eexists. split.
  - unfold bind at 1.
    rewrite (try_catch_Throw _ _ w w2 e).
    + unfold swallow, logger_error, ret. reflexivity.
    + apply bind_Throw. apply bind_Throw. exact Hcb.
  - simpl. split; [exact Htx|].
    apply in_or_app. right. left. reflexivity.
Qed.

(** C5, as amended.  A turn of the per-account loop never throws: whatever
    fails while settling one transaction, the status update or the creation
    of its cashback, the loop goes on with the remaining transactions of the
    group, on a running balance that includes the amount.  When a stored
    transaction is not [Completed] after its turn, the error was logged.
    And when the creation of the cashback fails, the status update is
    skipped: the collection is left as it was, so the withdrawal stays
    pending. *)
Theorem settle_fails_forward (cfg : Config) (t : Transaction)
  (rest : list Transaction) (bal : Balances) (w : World)
  (F : fresh_ids w) :
  exists w1,
    settle cfg t bal w = (Return (add_currentBalance bal (amount t)), w1)
    /\ settle_all cfg (t :: rest) bal w
       = settle_all cfg rest (add_currentBalance bal (amount t)) w1
    /\ ((exists x, stored w (_id t) = Some x) ->
        stored_status w1 (_id t) <> Some Completed ->
        In (LError, "Error validating transaction") (log w1))
    /\ (forall e w2,
          type t = Withdrawal ->
          cashback_vender (vender t) ->
          createCashbackTransaction cfg (Some (set_status t Completed)) w
          = (Throw e, w2) ->
          transactions w1 = transactions w
          /\ In (LError, "Error validating transaction") (log w1)).
Proof.
  destruct (settle cfg t bal w) as [r w1] eqn:E.
  pose proof (settle_inv _ _ _ _ _ _ F E) as (-> & _ & _ & new & _ & _ & Hout).
  exists w1. split; [reflexivity|]. split; [|split].
  - simpl. unfold bind. rewrite E. reflexivity.
  - intros (x & Hx) Hst.
    destruct Hout as [(Htx & _)|(_ & Hlog & _)]; [|exact Hlog].
    exfalso. apply Hst. unfold stored_status, stored. rewrite Htx.
    rewrite find_transaction_set_status_same, find_transaction_app.
    unfold stored in Hx. rewrite Hx. reflexivity.
  - intros e w2 Hty Hv Hcb. apply cashback_vender_iff in Hv.
    destruct (settle_cashback_failure cfg t bal w w2 e F Hty Hv Hcb)
      as (w1' & E' & Htx & Hlog).
    rewrite E in E'. injection E' as <-. auto.
Qed.

(** The purchase of 0.25 at "amzn", whose cashback of 0.0025 rounds to 0
    and is refused by [create]. *)
Lemma settle_fails_forward_witness :
  exists w1,
    settle default_config purchase_of_a_quarter balance_of_100 shopping_world
    = (Return (add_currentBalance balance_of_100 (amount purchase_of_a_quarter)),
       w1)
    /\ settle_all default_config [purchase_of_a_quarter; purchase_of_20]
         balance_of_100 shopping_world
       = settle_all default_config [purchase_of_20]
           (add_currentBalance balance_of_100 (amount purchase_of_a_quarter)) w1
    /\ ((exists x, stored shopping_world (_id purchase_of_a_quarter) = Some x) ->
        stored_status w1 (_id purchase_of_a_quarter) <> Some Completed ->
        In (LError, "Error validating transaction") (log w1))
    /\ (forall e w2,
          type purchase_of_a_quarter = Withdrawal ->
          cashback_vender (vender purchase_of_a_quarter) ->
          createCashbackTransaction default_config
            (Some (set_status purchase_of_a_quarter Completed)) shopping_world
          = (Throw e, w2) ->
          transactions w1 = transactions shopping_world
          /\ In (LError, "Error validating transaction") (log w1)).
Proof.
  exact (settle_fails_forward default_config purchase_of_a_quarter
           [purchase_of_20] balance_of_100 shopping_world
           fresh_ids_shopping_world).
Defined.

(** C5, as stated, fails.  The purchase of 0.25 at "amzn" is a pending
    withdrawal within the floor; creating its cashback fails (the rounded
    amount is 0); after the run it is still [Pending], not [Completed],
    while the purchases after it in the group were settled. *)
Lemma cashback_failure_leaves_withdrawal_pending :
  let w' := snd (validatePending default_config shopping_world) in
  stored_status shopping_world 11%nat = Some Pending
  /\ fst (createCashbackTransaction default_config
            (Some (set_status purchase_of_a_quarter Completed)) shopping_world)
     = Throw (Handled
                {| message :=
                     "Debit transaction amount required as a positive number with no more than 2 decimal places";
                   code := 400 |})
  /\ stored_status w' 11%nat = Some Pending
  /\ stored_status w' 12%nat = Some Completed
  /\ stored_status w' 13%nat = Some Completed.
Proof. repeat split. Qed.

(** * Status transitions (C9) *)

Lemma forward_refl (s : TxStatus) : forward s s.
Proof. left. reflexivity. Qed.

Lemma forward_trans (a b c : TxStatus) : forward a b -> forward b c -> forward a c.
Proof.
  unfold forward. intros [->|[-> Hb]] [->|[E Hc]]; auto.
Qed.

Lemma monotone_refl (w : World) : monotone w w.
Proof. intros i t H. exists t. split; [exact H|apply forward_refl]. Qed.

Lemma monotone_trans (w1 w2 w3 : World) :
  monotone w1 w2 -> monotone w2 w3 -> monotone w1 w3.
Proof.
  intros H12 H23 i t H. destruct (H12 i t H) as (t2 & H2 & F2).
  destruct (H23 i t2 H2) as (t3 & H3 & F3).
  exists t3. split; [exact H3|eapply forward_trans; eauto].
Qed.



Lemma untouched_append (w w' : World) (new : list Transaction) (ids : list ObjectId) :
  transactions w' = (transactions w ++ new)%list -> untouched_outside ids w w'.
Proof.
  intros E j x H _. unfold stored in *. rewrite E, find_transaction_app, H.
  reflexivity.
Qed.

Lemma fresh_ids_grow (w w' : World) (new : list Transaction) :
  fresh_ids w ->
  map _id (transactions w') = map _id (transactions w ++ new)%list ->
  (forall c, In c new -> _id c = nextId w) ->
  (nextId w + List.length new <= nextId w')%nat ->
  fresh_ids w'.
Proof.
  intros F Hids Hnew Hn t Ht.
  assert (Hin : In (_id t) (map _id (transactions w ++ new)%list)).
  { rewrite <- Hids. apply in_map. exact Ht. }
  apply in_map_iff in Hin as (x & Ex & Hx). rewrite <- Ex.
  apply in_app_or in Hx as [Hx|Hx].
  - specialize (F x Hx). lia.
  - rewrite (Hnew x Hx). destruct new; [destruct Hx|simpl in Hn; lia].
Qed.

(** One turn of the loop, seen from each stored document: the others are
    left as they were; the one the turn is about keeps its status or becomes
    [Completed]. *)
Lemma settle_pointwise (cfg : Config) (t : Transaction) (bal : Balances)
  (w w' : World) (r : Outcome Balances) :
  fresh_ids w ->
  settle cfg t bal w = (r, w') ->
  r = Return (add_currentBalance bal (amount t))
  /\ fresh_ids w' /\ frame w w' /\ debitCards w' = debitCards w
  /\ untouched_outside [_id t] w w'
  /\ (forall x, stored w (_id t) = Some x ->
        stored w' (_id t) = Some x
        \/ stored w' (_id t) = Some (set_status x Completed)).
Proof.
  intros F E.
  apply settle_inv in E as (-> & Hc & Hf & new & Hnew & Hn & Hout); [|exact F].
  split; [reflexivity|].
  assert (Hnew_id : forall c, In c new -> _id c = nextId w).
  { intros c Hc'. destruct Hnew as [->|(_ & _ & _ & card & _ & _ & ->)];
      [destruct Hc'|]. destruct Hc' as [<-|[]]. reflexivity. }
  split; [|split; [exact Hf|split; [exact Hc|split]]].
  - apply (fresh_ids_grow w w' new F); auto.
    destruct Hout as [(-> & _)|(-> & _)]; [apply set_status_by_id_ids|reflexivity].
  - intros j x Hx Hj. unfold stored in *.
    assert (Hne : j <> _id t) by (intros ->; apply Hj; left; reflexivity).
    destruct Hout as [(-> & _)|(-> & _)].
    + rewrite find_transaction_set_status_other by exact Hne.
      rewrite find_transaction_app, Hx. reflexivity.
    + rewrite find_transaction_app, Hx. reflexivity.
  - intros x Hx. unfold stored in *.
    destruct Hout as [(-> & _)|(-> & _)].
    + right. rewrite find_transaction_set_status_same, find_transaction_app, Hx.
      reflexivity.
    + left. rewrite find_transaction_app, Hx. reflexivity.
Qed.

Lemma completes_refl (s : TxStatus) : completes s s.
Proof. left. reflexivity. Qed.

Lemma completes_trans (a b c : TxStatus) :
  completes a b -> completes b c -> completes a c.
Proof.
  unfold completes. intros [->|[-> ->]] [->|[E ->]]; auto.
Qed.


Lemma settles_refl (w : World) : settles w w.
Proof. intros i t H. exists t. split; [exact H|apply completes_refl]. Qed.

Lemma settles_trans (w1 w2 w3 : World) :
  settles w1 w2 -> settles w2 w3 -> settles w1 w3.
Proof.
  intros H12 H23 i t H. destruct (H12 i t H) as (t2 & H2 & F2).
  destruct (H23 i t2 H2) as (t3 & H3 & F3).
  exists t3. split; [exact H3|eapply completes_trans; eauto].
Qed.

Lemma settles_same (w w' : World) :
  transactions w' = transactions w -> settles w w'.
Proof.
  intros E i t H. exists t. unfold stored in *. rewrite E.
  split; [exact H|apply completes_refl].
Qed.

Lemma untouched_settles (w w' : World) :
  untouched_outside [] w w' -> settles w w'.
Proof.
  intros U i t H. exists t. split; [apply U; auto|apply completes_refl].
Qed.


Lemma settled_refl (t : Transaction) : settled t t.
Proof. left. reflexivity. Qed.

Lemma settled_trans (a b c : Transaction) :
  settled a b -> settled b c -> settled a c.
Proof.
  unfold settled. intros [->|[Ha ->]] [->|[Hb ->]]; auto.
Qed.

Lemma settled_completes (a b : Transaction) :
  settled a b -> completes (status a) (status b).
Proof.
  intros [->|[Ha ->]]; [left; reflexivity|right; auto].
Qed.

Lemma amends_refl (w : World) : amends w w.
Proof. intros i t H. exists t. split; [exact H|apply settled_refl]. Qed.

Lemma amends_trans (w1 w2 w3 : World) :
  amends w1 w2 -> amends w2 w3 -> amends w1 w3.
Proof.
  intros H12 H23 i t H. destruct (H12 i t H) as (t2 & H2 & F2).
  destruct (H23 i t2 H2) as (t3 & H3 & F3).
  exists t3. split; [exact H3|eapply settled_trans; eauto].
Qed.

Lemma amends_same (w w' : World) :
  transactions w' = transactions w -> amends w w'.
Proof.
  intros E i t H. exists t. unfold stored in *. rewrite E.
  split; [exact H|apply settled_refl].
Qed.

Lemma untouched_amends (w w' : World) :
  untouched_outside [] w w' -> amends w w'.
Proof.
  intros U i t H. exists t. split; [apply U; auto|apply settled_refl].
Qed.

Lemma amends_settles (w w' : World) : amends w w' -> settles w w'.
Proof.
  intros H i t Ht. destruct (H i t Ht) as (t' & Ht' & C).
  exists t'. split; [exact Ht'|apply settled_completes; exact C].
Qed.

Lemma settle_amends (cfg : Config) (t : Transaction) (bal : Balances)
  (w w' : World) (r : Outcome Balances) :
  fresh_ids w ->
  all_pending w [t] ->
  settle cfg t bal w = (r, w') ->
  amends w w'.
Proof.
  intros F Hp E.
  apply settle_pointwise in E as (_ & _ & _ & _ & U & Hself); [|exact F].
  intros i x Hx. destruct (Nat.eq_dec i (_id t)) as [->|Hne].
  - destruct (Hp t (or_introl eq_refl)) as (x' & Hx' & Hst).
    rewrite Hx in Hx'. injection Hx' as <-.
    destruct (Hself x Hx) as [H|H].
    + exists x. split; [exact H|apply settled_refl].
    + exists (set_status x Completed). split; [exact H|].
      right. split; [exact Hst|reflexivity].
  - exists x. split; [|apply settled_refl]. apply U; [exact Hx|].
    intros [E|[]]. congruence.
Qed.

Lemma all_pending_untouched (w w' : World) (ids : list ObjectId)
  (l : list Transaction) :
  untouched_outside ids w w' ->
  (forall t, In t l -> ~ In (_id t) ids) ->
  all_pending w l -> all_pending w' l.
Proof.
  intros U Hdisj Hp t Ht. destruct (Hp t Ht) as (x & Hx & Hst).
  exists x. split; [|exact Hst]. apply U; [exact Hx|]. apply Hdisj. exact Ht.
Qed.

Lemma untouched_trans (w1 w2 w3 : World) (ids1 ids2 : list ObjectId) :
  untouched_outside ids1 w1 w2 -> untouched_outside ids2 w2 w3 ->
  untouched_outside (ids1 ++ ids2) w1 w3.
Proof.
  intros U1 U2 j x Hx Hj. apply U2.
  - apply U1; [exact Hx|]. intros H. apply Hj. apply in_or_app. auto.
  - intros H. apply Hj. apply in_or_app. auto.
Qed.

Lemma untouched_weaken (w w' : World) (ids ids' : list ObjectId) :
  untouched_outside ids w w' -> (forall j, In j ids -> In j ids') ->
  untouched_outside ids' w w'.
Proof. intros U Hsub j x Hx Hj. apply U; auto. Qed.

(** The loop over one group. *)
Lemma settle_all_amends (cfg : Config) (l : list Transaction) :
  forall (bal : Balances) (w w' : World) (r : Outcome Balances),
  fresh_ids w ->
  NoDup (map _id l) ->
  all_pending w l ->
  settle_all cfg l bal w = (r, w') ->
  (exists b, r = Return b)
  /\ fresh_ids w' /\ frame w w' /\ debitCards w' = debitCards w
  /\ amends w w'
  /\ untouched_outside (map _id l) w w'.
Proof.
  induction l as [|t rest IH]; intros bal w w' r F ND Hp E.
  - simpl in E. apply ret_inv in E as (-> & ->).
    repeat split; eauto using amends_refl.
    intros j x Hx _. exact Hx.
  - simpl in E. inversion ND as [|? ? Hnot ND']; subst.
    apply bind_inv in E as [(b1 & w1 & E1 & E)|(e & E1 & _)].
    2:{ apply settle_pointwise in E1 as (? & _); [discriminate|exact F]. }
    assert (M1 : amends w w1).
    { apply (settle_amends cfg t bal w w1 (Return b1) F); [|exact E1].
      intros x [<-|[]]. apply Hp. left. reflexivity. }
    apply settle_pointwise in E1 as (_ & F1 & Fr1 & Hc1 & U1 & _); [|exact F].
    assert (Hp1 : all_pending w1 rest).
    { apply (all_pending_untouched w w1 [_id t] rest U1).
      - intros x Hx [Ex|[]]. apply Hnot. rewrite Ex. apply in_map. exact Hx.
      - intros x Hx. apply Hp. right. exact Hx. }
    apply IH in E as (Hr & F2 & Fr2 & Hc2 & M2 & U2); auto.
    split; [exact Hr|]. split; [exact F2|].
    split; [eapply frame_trans; eauto|]. split; [congruence|].
    split; [eapply amends_trans; eauto|].
    apply (untouched_trans w w1 w' [_id t] (map _id rest) U1 U2).
Qed.

(** The fee: at most one document is appended, [Completed] from the start;
    the stored ones are left alone. *)
Lemma createOverdraftFee_inv (debitCard : option DebitCard) (w w' : World)
  (r : Outcome Transaction) :
  fresh_ids w ->
  createOverdraftFeeTransaction debitCard w = (r, w') ->
  frame w w'
  /\ (exists new,
        (new = [] \/ exists card, debitCard = Some card /\ new = [fee_of w card])
        /\ transactions w' = (transactions w ++ new)%list
        /\ (nextId w + List.length new <= nextId w')%nat
        /\ match r with
           | Return f => new = [f]
           | Throw e => exists he, e = Handled he
           end)
  /\ (debitCards w' = debitCards w
      \/ exists card, debitCard = Some card
         /\ debitCards w'
            = replace_card (set_lastOverdraftFee card (now w)) (debitCards w)).
Proof.
  intros F H. unfold createOverdraftFeeTransaction in H.
  assert (Hbody : forall r1 w1,
    createOverdraftFeeTransaction_try debitCard w = (r1, w1) ->
    frame w w1
    /\ (exists new,
          (new = [] \/ exists card, debitCard = Some card /\ new = [fee_of w card])
          /\ transactions w1 = (transactions w ++ new)%list
          /\ (nextId w + List.length new <= nextId w1)%nat
          /\ match r1 with
             | Return f => new = [f]
             | Throw e => True
             end)
    /\ (debitCards w1 = debitCards w
        \/ exists card, debitCard = Some card
           /\ debitCards w1
              = replace_card (set_lastOverdraftFee card (now w)) (debitCards w))).
  { intros r1 w1 H1. unfold createOverdraftFeeTransaction_try in H1.
    destruct debitCard as [card|].
    2:{ unfold throw_handled, throw in H1. injection H1 as <- <-.
        split; [apply frame_refl|]. split; [|auto].
        exists []. rewrite app_nil_r. simpl. repeat split; auto; lia. }
    apply bind_inv in H1 as [(created & w2 & Hcr & H1)|(e & Hcr & ->)].
    2:{ apply create_inv in Hcr as (Hc & Hf & _ & Htx).
        split; [exact Hf|]. split; [|auto].
        exists []. rewrite app_nil_r. destruct Hf as (_ & _ & ?).
        simpl. repeat split; auto; lia. }
    apply create_inv in Hcr
      as (Hc2 & Hf2 & Hv & (card' & Hres & Hact & ->) & Hn2 & Hl2 & Htx2).
    simpl in Htx2. unfold resolves in Hres. simpl in Hres. subst card'.
    assert (Hnone : find_transaction (nextId w) (transactions w2) = None).
    { rewrite Htx2. apply find_transaction_fresh; auto. }
    apply bind_inv in H1 as [(u & w3 & Hsv & H1)|(e & Hsv & ->)].
    2:{ apply save_new in Hsv as (Hc3 & Hn3 & Hf3 & _ & [[_ Htx3]|[? _]]);
          [|discriminate|exact Hnone].
        split; [eapply frame_trans; eauto|]. split; [|left; congruence].
        exists []. rewrite app_nil_r. simpl.
        repeat split; auto; try congruence; lia. }
    apply save_new in Hsv as (Hc3 & Hn3 & Hf3 & _ & [[[? ?] _]|[_ Htx3]]);
      [discriminate| |exact Hnone].
    unfold bind at 1, new_Date in H1.
    assert (Hnow : now w3 = now w).
    { destruct Hf2 as (? & _), Hf3 as (? & _). congruence. }
    rewrite Hnow in H1.
    assert (Hnew : transactions w3 = (transactions w ++ [fee_of w card])%list).
    { rewrite Htx3, Htx2. reflexivity. }
    assert (Hfr : frame w w3) by (eapply frame_trans; eauto).
    apply bind_inv in H1 as [(u2 & w4 & Hcs & H1)|(e & Hcs & ->)].
    + apply ret_inv in H1 as (-> & ->).
      apply DebitCard_save_inv in Hcs
        as (Htx4 & Hn4 & Hf4 & _ & [[[? ?] _]|[_ Hc4]]); [discriminate|].
      split; [eapply frame_trans; eauto|]. split.
      * exists [fee_of w card]. simpl.
        repeat split; eauto; try congruence; lia.
      * right. exists card. split; [reflexivity|]. congruence.
    + apply DebitCard_save_inv in Hcs
        as (Htx4 & Hn4 & Hf4 & _ & [[_ Hc4]|[? _]]); [|discriminate].
      split; [eapply frame_trans; eauto|]. split.
      * exists [fee_of w card]. simpl.
        repeat split; eauto; try congruence; lia.
      * left. congruence. }
  apply try_catch_inv in H as [(f & H & ->)|(e & w1 & H & Hh)].
  - apply Hbody in H. exact H.
  - apply Hbody in H as (Hf & (new & Hnew & Htx & Hn & _) & Hc).
    apply rethrow_inv in Hh as (S & he & -> & _).
    destruct S as (St & Sc & Sn & Sd & Sf).
    split.
    { eapply frame_trans; [exact Hf|]. apply same_data_frame.
      unfold same_data. auto. }
    split.
    + exists new. repeat split; eauto; try congruence; lia.
    + rewrite Sc. exact Hc.
Qed.

Lemma charge_overdraft_inv (bal : Balances) (card : DebitCard)
  (w w' : World) (r : Outcome unit) :
  fresh_ids w ->
  charge_overdraft bal card w = (r, w') ->
  r = Return tt /\ fresh_ids w' /\ frame w w'
  /\ untouched_outside [] w w'
  /\ (created_since w w' = []
      \/ overdraft_due bal card (now w) = true
         /\ created_since w w' = [fee_of w card]).
Proof.
  intros F H. unfold charge_overdraft in H.
  assert (Hbody : forall r1 w1,
    (today <- new_Date ;;
     if overdraft_due bal card today
     then _ <- createOverdraftFeeTransaction (Some card) ;; ret tt
     else ret tt) w = (r1, w1) ->
    frame w w1
    /\ exists new,
         (new = []
          \/ overdraft_due bal card (now w) = true /\ new = [fee_of w card])
         /\ transactions w1 = (transactions w ++ new)%list
         /\ (nextId w + List.length new <= nextId w1)%nat).
  { intros r1 w1 H1. unfold bind at 1, new_Date in H1.
    destruct (overdraft_due bal card (now w)) eqn:Edue.
    - apply bind_inv in H1 as [(f & w2 & Hfee & H1)|(e & Hfee & ->)].
      + apply ret_inv in H1 as (-> & ->).
        apply createOverdraftFee_inv in Hfee
          as (Hf & (new & Hnew & Htx & Hn & ->) & _); [|exact F].
        split; [exact Hf|]. exists [f]. repeat split; auto.
        right. split; [reflexivity|].
        destruct Hnew as [?|(c & Ec & ?)]; [discriminate|].
        injection Ec as <-. assumption.
      + apply createOverdraftFee_inv in Hfee
          as (Hf & (new & Hnew & Htx & Hn & _) & _); [|exact F].
        split; [exact Hf|]. exists new. repeat split; auto.
        destruct Hnew as [->|(c & Ec & ->)]; [auto|].
        injection Ec as <-. auto.
    - apply ret_inv in H1 as (-> & ->). split; [apply frame_refl|].
      exists []. rewrite app_nil_r. simpl. repeat split; auto; lia. }
  assert (Hfin : forall w1 new,
    frame w w1 ->
    (new = [] \/ overdraft_due bal card (now w) = true /\ new = [fee_of w card]) ->
    transactions w1 = (transactions w ++ new)%list ->
    (nextId w + List.length new <= nextId w1)%nat ->
    fresh_ids w1 /\ untouched_outside [] w w1
    /\ (created_since w w1 = []
        \/ overdraft_due bal card (now w) = true
           /\ created_since w w1 = [fee_of w card])).
  { intros w1 new Hf Hnew Htx Hn. split; [|split].
    - apply (fresh_ids_grow w w1 new F); [rewrite Htx; reflexivity| |exact Hn].
      intros c Hc. destruct Hnew as [->|(_ & ->)]; [destruct Hc|].
      destruct Hc as [<-|[]]. reflexivity.
    - apply (untouched_append w w1 new). exact Htx.
    - unfold created_since. rewrite Htx, filter_app, (created_since_old w F).
      destruct Hnew as [->|(Hd & ->)]; [left; reflexivity|right].
      split; [exact Hd|]. simpl. rewrite Nat.leb_refl. reflexivity. }
  apply try_catch_inv in H as [(a & H & ->)|(e & w1 & H & Hs)].
  - destruct a. apply Hbody in H as (Hf & new & Hnew & Htx & Hn).
    destruct (Hfin w' new Hf Hnew Htx Hn) as (F' & U & Hc). auto.
  - apply Hbody in H as (Hf & new & Hnew & Htx & Hn).
    unfold swallow in Hs. apply logger_error_inv in Hs as (-> & S & _).
    destruct S as (St & Sc & Sn & Sd & Sf).
    assert (Hf' : frame w w').
    { eapply frame_trans; [exact Hf|]. apply same_data_frame.
      unfold same_data. auto. }
    rewrite <- St in Htx. rewrite <- Sn in Hn.
    destruct (Hfin w' new Hf' Hnew Htx Hn) as (F' & U & Hc). auto.
Qed.

Lemma same_data_untouched (w w' : World) (ids : list ObjectId) :
  transactions w' = transactions w -> untouched_outside ids w w'.
Proof. intros E j x H _. unfold stored in *. rewrite E. exact H. Qed.

Lemma all_pending_same (w w' : World) (l : list Transaction) :
  transactions w' = transactions w -> all_pending w l -> all_pending w' l.
Proof.
  intros E Hp t Ht. destruct (Hp t Ht) as (x & Hx & Hs). exists x.
  unfold stored in *. rewrite E. auto.
Qed.

(** The body of the loop over the groups. *)
Lemma validate_group_amends (cfg : Config) (g : ObjectId * list Transaction)
  (w w' : World) (r : Outcome unit) :
  fresh_ids w ->
  NoDup (map _id (snd g)) ->
  all_pending w (snd g) ->
  validate_group cfg g w = (r, w') ->
  fresh_ids w' /\ frame w w' /\ amends w w'
  /\ untouched_outside (map _id (snd g)) w w'.
Proof.
  intros F ND Hp H. unfold validate_group in H.
  apply bind_inv in H as [(found & w1 & H1 & H)|(e & H1 & ->)].
  2:{ apply findOne_id_inv in H1 as (S & _).
      pose proof S as (Ht & _ & Hn & _).
      split; [apply (fresh_ids_same w w' Ht); [lia|exact F]|].
      split; [apply same_data_frame; exact S|].
      split; [apply amends_same; exact Ht|apply same_data_untouched; exact Ht]. }
  apply findOne_id_inv in H1 as (S1 & _).
  assert (F1 : fresh_ids w1).
  { destruct S1 as (Ht & _ & Hn & _). apply (fresh_ids_same w w1 Ht); [lia|exact F]. }
  destruct found as [debitCard|].
  2:{ unfold throw in H. injection H as <- <-.
      pose proof S1 as (Ht & _ & Hn & _).
      split; [exact F1|].
      split; [apply same_data_frame; exact S1|].
      split; [apply amends_same; exact Ht|apply same_data_untouched; exact Ht]. }
  apply bind_inv in H as [(balances & w2 & H2 & H)|(e & H2 & ->)].
  2:{ exfalso. apply try_catch_inv in H2 as [(a & _ & ?)|(e0 & w0 & _ & Hh)];
        [discriminate|].
      apply bind_inv in Hh as [(u & w3 & _ & Hh)|(e1 & Hh & _)].
      - apply ret_inv in Hh as (? & _). discriminate.
      - apply logger_error_inv in Hh as (? & _). discriminate. }
  assert (S2 : same_data w1 w2).
  { apply try_catch_inv in H2 as [(a & H2 & _)|(e0 & w0 & H2 & Hh)].
    - apply bind_inv in H2 as [(b & w3 & Hb & H2)|(e1 & _ & ?)]; [|discriminate].
      apply ret_inv in H2 as (_ & ->).
      apply getBalances_inv in Hb as (S & _). exact S.
    - apply bind_inv in H2 as [(b & w3 & _ & H2)|(e1 & H2 & _)].
      { apply ret_inv in H2 as (? & _). discriminate. }
      apply getBalances_inv in H2 as (S & _).
      apply bind_inv in Hh as [(u & w3 & Hl & Hh)|(e2 & Hl & _)].
      + apply ret_inv in Hh as (_ & ->).
        apply logger_error_inv in Hl as (_ & S3 & _).
        eapply same_data_trans; eauto.
      + apply logger_error_inv in Hl as (? & _). discriminate. }
  pose proof (same_data_trans _ _ _ S1 S2) as S12.
  assert (F2 : fresh_ids w2).
  { destruct S12 as (Ht & _ & Hn & _). apply (fresh_ids_same w w2 Ht); [lia|exact F]. }
  destruct balances as [debitBalance|].
  2:{ apply ret_inv in H as (_ & ->). pose proof S12 as (Ht & _ & Hn & _).
      split; [exact F2|].
      split; [apply same_data_frame; exact S12|].
      split; [apply amends_same; exact Ht|apply same_data_untouched; exact Ht]. }
  assert (Hp2 : all_pending w2 (snd g)).
  { apply (all_pending_same w w2); [apply S12|exact Hp]. }
  apply bind_inv in H as [(b3 & w3 & H3 & H)|(e & H3 & ->)].
  2:{ apply settle_all_amends in H3 as ((? & ?) & _); auto. discriminate. }
  apply settle_all_amends in H3 as (_ & F3 & Fr3 & _ & M3 & U3); auto.
  apply charge_overdraft_inv in H as (_ & F4 & Fr4 & U4 & _); [|exact F3].
  assert (M12 : amends w w2) by (apply amends_same; apply S12).
  assert (U12 : untouched_outside [] w w2)
    by (apply same_data_untouched; apply S12).
  split; [exact F4|].
  split.
  { eapply frame_trans; [apply same_data_frame; exact S12|].
    eapply frame_trans; eauto. }
  split.
  - eapply amends_trans; [exact M12|].
    eapply amends_trans; [exact M3|]. apply untouched_amends. exact U4.
  - pose proof (untouched_trans _ _ _ _ _ U12 U3) as U.
    pose proof (untouched_trans _ _ _ _ _ U U4) as U'.
    eapply untouched_weaken; [exact U'|].
    intros j Hj. simpl in Hj. rewrite app_nil_r in Hj. exact Hj.
Qed.

Lemma NoDup_app_disjoint {A} (l1 l2 : list A) :
  NoDup (l1 ++ l2) -> forall a, In a l1 -> ~ In a l2.
Proof.
  induction l1 as [|x r IH]; simpl; intros ND a Ha H2; [destruct Ha|].
  inversion ND as [|? ? Hx ND']; subst.
  destruct Ha as [->|Ha].
  - apply Hx. apply in_or_app. auto.
  - exact (IH ND' a Ha H2).
Qed.

Lemma validate_groups_amends (cfg : Config)
  (gs : list (ObjectId * list Transaction)) :
  forall (w w' : World) (r : Outcome unit),
  fresh_ids w ->
  NoDup (map _id (List.concat (map snd gs))) ->
  all_pending w (List.concat (map snd gs)) ->
  validate_groups cfg gs w = (r, w') ->
  fresh_ids w' /\ frame w w' /\ amends w w'.
Proof.
  induction gs as [|g rest IH]; intros w w' r F ND Hp H.
  - simpl in H. apply ret_inv in H as (_ & ->).
    auto using amends_refl.
  - simpl in H, ND, Hp. rewrite map_app in ND.
    assert (NDg : NoDup (map _id (snd g))) by (eapply NoDup_app_remove_r; eauto).
    assert (NDr : NoDup (map _id (List.concat (map snd rest))))
      by (eapply NoDup_app_remove_l; eauto).
    assert (Hpg : all_pending w (snd g)).
    { intros t Ht. apply Hp. apply in_or_app. auto. }
    apply bind_inv in H as [(u & w1 & H1 & H)|(e & H1 & ->)].
    + apply validate_group_amends in H1 as (F1 & Fr1 & M1 & U1); auto.
      assert (Hpr : all_pending w1 (List.concat (map snd rest))).
      { apply (all_pending_untouched w w1 (map _id (snd g)) _ U1).
        - intros t Ht Hin.
          apply (NoDup_app_disjoint _ _ ND (_id t) Hin).
          apply in_map. exact Ht.
        - intros t Ht. apply Hp. apply in_or_app. auto. }
      apply IH in H as (F2 & Fr2 & M2); auto.
      split; [exact F2|]. split; [eapply frame_trans; eauto|].
      eapply amends_trans; eauto.
    + apply validate_group_amends in H1 as (F1 & Fr1 & M1 & U1); auto.
Qed.

(** ** The aggregation of the pending transactions *)

Lemma insert_by_date_perm (t : Transaction) (l : list Transaction) :
  Permutation (insert_by_date t l) (t :: l).
Proof.
  induction l as [|x r IH]; simpl; [reflexivity|].
  destruct (date t <? date x)%Z; [reflexivity|].
  rewrite IH. apply perm_swap.
Qed.

Lemma sort_by_date_perm (l : list Transaction) :
  Permutation (sort_by_date l) l.
Proof.
  unfold sort_by_date.
  assert (G : forall acc, Permutation (fold_left (fun acc t => insert_by_date t acc) l acc)
                                      (acc ++ l)%list).
  { induction l as [|t r IH]; intros acc; simpl.
    - rewrite app_nil_r. reflexivity.
    - rewrite IH, insert_by_date_perm. simpl. apply Permutation_middle. }
  apply (G []).
Qed.

Lemma push_group_perm (t : Transaction) (gs : list (ObjectId * list Transaction)) :
  Permutation (List.concat (map snd (push_group t gs)))
              (List.concat (map snd gs) ++ [t])%list.
Proof.
  induction gs as [|[k ts] r IH]; simpl; [reflexivity|].
  destruct (Nat.eqb k (_debitCard t)); simpl.
  - rewrite <- !app_assoc.
    apply Permutation_app_head. apply Permutation_app_comm.
  - rewrite IH, app_assoc. reflexivity.
Qed.

Lemma group_by_card_perm (l : list Transaction) :
  Permutation (List.concat (map snd (group_by_card l))) l.
Proof.
  unfold group_by_card.
  assert (G : forall gs,
    Permutation (List.concat (map snd (fold_left (fun gs t => push_group t gs) l gs)))
                (List.concat (map snd gs) ++ l)%list).
  { induction l as [|t r IH]; intros gs; simpl.
    - rewrite app_nil_r. reflexivity.
    - rewrite IH, push_group_perm, <- app_assoc. reflexivity. }
  apply (G []).
Qed.

Lemma pending_pipeline_perm (l : list Transaction) :
  Permutation (List.concat (map snd (pending_pipeline l))) (filter is_pending l).
Proof.
  unfold pending_pipeline. rewrite group_by_card_perm. apply sort_by_date_perm.
Qed.

Lemma filter_keeps_keys_distinct {V K} (key : V -> K) (keep : V -> bool)
  (vs : list V) :
  NoDup (map key vs) -> NoDup (map key (filter keep vs)).
Proof.
  intros Hdistinct. induction vs as [|v rest IHrest]; simpl; [constructor|].
  simpl in Hdistinct. apply NoDup_cons_iff in Hdistinct as [Hv Hrest].
  destruct (keep v); simpl; [|auto].
  apply NoDup_cons; [|auto]. intros Hin. apply Hv.
  apply in_map_iff in Hin as (y & Ey & Hy). rewrite <- Ey.
  apply in_map. apply filter_In in Hy. apply Hy.
Qed.

(** The documents handed to the loops are the stored pending ones, each
    once. *)
Lemma pending_pipeline_snapshots (w : World) :
  unique_ids w ->
  NoDup (map _id (List.concat (map snd (pending_pipeline (transactions w)))))
  /\ all_pending w (List.concat (map snd (pending_pipeline (transactions w)))).
Proof.
  intros U. pose proof (pending_pipeline_perm (transactions w)) as P. split.
  - apply (Permutation_NoDup (Permutation_sym (Permutation_map _id P))).
    apply filter_keeps_keys_distinct. exact U.
  - intros t Ht. apply (Permutation_in _ P) in Ht.
    apply filter_In in Ht as [Hin Hst].
    exists t. split; [apply find_transaction_In; assumption|].
    apply TxStatus_eqb_eq. exact Hst.
Qed.

Lemma validatePending_amends (cfg : Config) (w w' : World) (r : Outcome unit) :
  unique_ids w -> fresh_ids w ->
  validatePending cfg w = (r, w') ->
  fresh_ids w' /\ frame w w' /\ amends w w'.
Proof.
  intros U F H. unfold validatePending in H.
  assert (Hbody : forall r1 w1,
    (pendingTransactions <- count_pending ;;
     if Nat.eqb pendingTransactions 0 then ret tt
     else
       transactionsByCard <- aggregate_pending ;;
       validate_groups cfg transactionsByCard) w = (r1, w1) ->
    fresh_ids w1 /\ frame w w1 /\ amends w w1).
  { intros r1 w1 H1.
    assert (Hsame : forall w0, same_data w w0 ->
              fresh_ids w0 /\ frame w w0 /\ amends w w0).
    { intros w0 S. pose proof S as (Ht & _ & Hn & _).
      split; [apply (fresh_ids_same w w0 Ht); [lia|exact F]|].
      split; [apply same_data_frame; exact S|apply amends_same; exact Ht]. }
    apply bind_inv in H1 as [(n & w2 & Hc & H1)|(e & Hc & ->)].
    2:{ unfold count_pending in Hc.
        apply bind_inv in Hc as [(u & w3 & Hs & Hc)|(e0 & Hs & _)].
        - unfold bind, get_transactions, ret in Hc. discriminate.
        - apply storage_inv in Hs as (S & _). auto. }
    assert (S2 : same_data w w2).
    { unfold count_pending in Hc.
      apply bind_inv in Hc as [(u & w3 & Hs & Hc)|(e0 & _ & ?)]; [|discriminate].
      apply storage_inv in Hs as (S & _).
      unfold bind, get_transactions, ret in Hc. injection Hc as _ <-. exact S. }
    destruct (Nat.eqb n 0).
    { apply ret_inv in H1 as (_ & ->). auto. }
    apply bind_inv in H1 as [(gs & w3 & Ha & H1)|(e & Ha & ->)].
    2:{ unfold aggregate_pending in Ha.
        apply bind_inv in Ha as [(u & w4 & Hs & Ha)|(e0 & Hs & _)].
        - unfold bind, get_transactions, ret in Ha. discriminate.
        - apply storage_inv in Hs as (S & _).
          apply Hsame. eapply same_data_trans; eauto. }
    assert (S3 : same_data w w3 /\ gs = pending_pipeline (transactions w)).
    { unfold aggregate_pending in Ha.
      apply bind_inv in Ha as [(u & w4 & Hs & Ha)|(e0 & _ & ?)]; [|discriminate].
      apply storage_inv in Hs as (S & _).
      unfold bind, get_transactions, ret in Ha. injection Ha as <- <-.
      pose proof (same_data_trans _ _ _ S2 S) as S'.
      split; [exact S'|]. destruct S' as (-> & _). reflexivity. }
    destruct S3 as (S3 & ->).
    destruct (pending_pipeline_snapshots w U) as (ND & Hp).
    destruct (Hsame w3 S3) as (F3 & Fr3 & M3).
    apply validate_groups_amends in H1 as (F4 & Fr4 & M4); auto.
    - split; [exact F4|]. split; [eapply frame_trans; eauto|].
      eapply amends_trans; eauto.
    - apply (all_pending_same w w3); [apply S3|exact Hp]. }
  apply try_catch_inv in H as [(a & H & _)|(e & w1 & H & Hh)].
  - apply Hbody in H. exact H.
  - apply Hbody in H as (F1 & Fr1 & M1).
    apply bind_inv in Hh as [(u & w2 & Hl & Hh)|(e0 & Hl & _)].
    + apply logger_error_inv in Hl as (_ & S & _).
      unfold throw_handled, throw in Hh. injection Hh as _ <-.
      pose proof S as (Ht & _ & Hn & _).
      split; [apply (fresh_ids_same w1 w2 Ht); [lia|exact F1]|].
      split; [eapply frame_trans; [exact Fr1|apply same_data_frame; exact S]|].
      eapply amends_trans; [exact M1|apply amends_same; exact Ht].
    + apply logger_error_inv in Hl as (? & _). discriminate.
Qed.

Lemma validatePending_settles (cfg : Config) (w w' : World) (r : Outcome unit) :
  unique_ids w -> fresh_ids w ->
  validatePending cfg w = (r, w') ->
  fresh_ids w' /\ frame w w' /\ settles w w'.
Proof.
  intros U F H. apply validatePending_amends in H as (F' & Fr & S); auto.
  auto using amends_settles.
Qed.


(** No run of the engine marks a transaction failed, whatever the balances
    and the floor: a pending transaction stays pending or is completed. *)
Lemma validatePending_marks_nothing_failed (cfg : Config) (w : World)
    (i : ObjectId) (t : Transaction) :
  unique_ids w -> fresh_ids w ->
  stored w i = Some t -> status t = Pending ->
  let w' := snd (validatePending cfg w) in
  stored_status w' i = Some Pending \/ stored_status w' i = Some Completed.
Proof.
  intros U F Ht Hs w'.
  destruct (validatePending cfg w) as [r w1] eqn:E. subst w'. cbn [snd].
  apply validatePending_settles in E as (_ & _ & S); auto.
  destruct (S i t Ht) as (t' & Ht' & [C|[_ C]]);
    unfold stored_status; rewrite Ht'; cbn [option_map]; rewrite C;
    [left; rewrite Hs|right]; reflexivity.
Qed.

(** ** Cancelling *)







Lemma unique_ids_shopping_world : unique_ids shopping_world.
Proof.
  unfold unique_ids. simpl.
  repeat (constructor; [simpl; intuition discriminate|]). constructor.
Qed.


(** The unit tests' two cases of [cancel]. *)
Example cancel_pending_and_completed :
  stored_status (snd (cancel purchase_of_20 shopping_world)) 12%nat
  = Some Canceled
  /\ fst (cancel (set_status purchase_of_20 Completed) shopping_world)
     = Throw (Handled
                {| message := "Transaction cannot be canceled once executed";
                   code := 400 |}).
Proof. split; reflexivity. Qed.

(** * Interest (C7) *)

Lemma total_amount_app (l1 l2 : list Transaction) :
  (total_amount (l1 ++ l2) == total_amount l1 + total_amount l2)%Q.
Proof.
  induction l1 as [|t r IH]; simpl; [ring|]. rewrite IH. ring.
Qed.
















Example interest_of_50_and_100 :
  map (fun t => (_user t, _debitCard t, subtype t, status t))
      (created_since savers_world
         (snd (addBalanceInterest default_config savers_world)))
  = [(11%nat, 1%nat, Interest, Completed); (12%nat, 2%nat, Interest, Completed)]
  /\ Forall2 (fun t a => (amount t == a)%Q)
       (created_since savers_world
          (snd (addBalanceInterest default_config savers_world)))
       [50 # 100; 1]%Q.
Proof.
  split; [reflexivity|]. vm_compute.
  repeat (constructor; [reflexivity|]). constructor.
Qed.

(** * What the methods throw *)

Lemma throws_only_ret {A} (P : Exn -> Prop) (a : A) : throws_only P (ret a).
Proof. intros w r w' H. apply ret_inv in H as (-> & _). exact I. Qed.

Lemma throws_only_throw {A} (P : Exn -> Prop) (e : Exn) :
  P e -> throws_only P (@throw A e).
Proof. intros He w r w' H. unfold throw in H. injection H as <- _. exact He. Qed.

Lemma throws_only_bind {A B} (P : Exn -> Prop) (m : M A) (k : A -> M B) :
  throws_only P m -> (forall a, throws_only P (k a)) ->
  throws_only P (bind m k).
Proof.
  intros Hm Hk w r w' H.
  apply bind_inv in H as [(a & w1 & H1 & H)|(e & H1 & ->)].
  - exact (Hk a w1 r w' H).
  - exact (Hm w (Throw e) w' H1).
Qed.

Lemma throws_only_try_catch {A} (P Q : Exn -> Prop) (body : M A)
  (h : Exn -> M A) :
  throws_only Q body -> (forall e, Q e -> throws_only P (h e)) ->
  throws_only P (try_catch body h).
Proof.
  intros Hb Hh w r w' H.
  apply try_catch_inv in H as [(a & _ & ->)|(e & w1 & H1 & H)]; [exact I|].
  exact (Hh e (Hb w (Throw e) w1 H1) w1 r w' H).
Qed.

Lemma throws_only_weaken {A} (P Q : Exn -> Prop) (m : M A) :
  (forall e, P e -> Q e) -> throws_only P m -> throws_only Q m.
Proof.
  intros HPQ Hm w r w' H. specialize (Hm w r w' H).
  destruct r; [exact I|auto].
Qed.

Lemma client_error_400 (msg : string) :
  client_or_server_error (Handled {| message := msg; code := 400 |}).
Proof. exists msg, 400. auto. Qed.

Lemma server_error_500 (msg : string) :
  client_or_server_error (Handled {| message := msg; code := 500 |}).
Proof. exists msg, 500. auto. Qed.

Lemma any_fault_400 (msg : string) :
  any_fault (Handled {| message := msg; code := 400 |}).
Proof. left. exists msg, 400. auto. Qed.

Lemma any_fault_500 (msg : string) :
  any_fault (Handled {| message := msg; code := 500 |}).
Proof. left. exists msg, 500. auto. Qed.

Lemma any_fault_raw (what : string) : any_fault (Unhandled what).
Proof. right. eauto. Qed.

Lemma client_or_server_fault (e : Exn) :
  client_or_server_error e -> any_fault e.
Proof. left. assumption. Qed.

Create HintDb faults.

#[local] Hint Resolve client_error_400 server_error_500 any_fault_400
  any_fault_500 any_fault_raw : faults.

Lemma throws_only_throw_if (P : Exn -> Prop) (c : bool) (msg : string)
  (k : Z) :
  P (Handled {| message := msg; code := k |}) ->
  throws_only P (throw_if c msg k).
Proof.
  intros HP w r w' H. apply throw_if_inv in H as (_ & [[_ ->]|[_ ->]]);
    [exact HP|exact I].
Qed.

Lemma throws_only_throw_handled {A} (P : Exn -> Prop) (msg : string) (k : Z) :
  P (Handled {| message := msg; code := k |}) ->
  throws_only P (@throw_handled A msg k).
Proof. intros HP. apply throws_only_throw. exact HP. Qed.

Lemma throws_only_storage (op : StorageOp) : throws_only any_fault (storage op).
Proof.
  intros w r w' H. apply storage_inv in H as (_ & _ & _ & [[_ ->]|[_ ->]]);
    [auto with faults|exact I].
Qed.

Lemma throws_only_logger_info (P : Exn -> Prop) (msg : string) :
  throws_only P (logger_info msg).
Proof. intros w r w' H. apply logger_info_inv in H as (-> & _). exact I. Qed.

Lemma throws_only_logger_error (P : Exn -> Prop) (msg : string) :
  throws_only P (logger_error msg).
Proof. intros w r w' H. apply logger_error_inv in H as (-> & _). exact I. Qed.

Lemma throws_only_state {A} (P : Exn -> Prop) (f : World -> A * World) :
  throws_only P (fun w => (Return (fst (f w)), snd (f w))).
Proof. intros w r w' H. injection H as <- _. exact I. Qed.

(** The shared [catch] clause turns any fault into a 400 or a 500. *)
Lemma throws_only_rethrow {A} (logged thrown : string) (e : Exn) :
  any_fault e ->
  throws_only client_or_server_error (@rethrow A logged thrown e).
Proof.
  intros He w r w' H. apply rethrow_inv in H as (_ & he & -> & Hhe).
  destruct e as [he0|what].
  - subst he. destruct He as [He|(? & He)]; [exact He|discriminate].
  - subst he. exists thrown, 500. auto.
Qed.

(** [solve_throws] walks down a [try] block. *)
Ltac solve_throws :=
  repeat first
    [ apply throws_only_ret
    | apply throws_only_storage
    | apply throws_only_logger_info
    | apply throws_only_logger_error
    | apply throws_only_throw_if; solve [auto with faults]
    | apply throws_only_throw_handled; solve [auto with faults]
    | apply throws_only_throw; solve [auto with faults]
    | apply throws_only_bind; [|intros ?; cbv beta]
    | match goal with
      | |- throws_only _ (if ?c then _ else _) => destruct c
      | |- throws_only _ (match ?x with Some _ => _ | None => _ end) =>
          destruct x
      | |- throws_only _ (match ?x with
                          | CardInstance _ => _
                          | CardObjectId _ => _
                          | CardOther => _
                          end) => destruct x
      end ].

Lemma throws_only_get_transactions (P : Exn -> Prop) :
  throws_only P get_transactions.
Proof. intros w r w' H. injection H as <- _. exact I. Qed.

Lemma throws_only_put_transactions (P : Exn -> Prop) (l : list Transaction) :
  throws_only P (put_transactions l).
Proof. intros w r w' H. injection H as <- _. exact I. Qed.

Lemma throws_only_get_debitCards (P : Exn -> Prop) :
  throws_only P get_debitCards.
Proof. intros w r w' H. injection H as <- _. exact I. Qed.

Lemma throws_only_put_debitCards (P : Exn -> Prop) (l : list DebitCard) :
  throws_only P (put_debitCards l).
Proof. intros w r w' H. injection H as <- _. exact I. Qed.

Lemma throws_only_new_Date (P : Exn -> Prop) : throws_only P new_Date.
Proof. intros w r w' H. injection H as <- _. exact I. Qed.

Lemma throws_only_new_ObjectId (P : Exn -> Prop) : throws_only P new_ObjectId.
Proof. intros w r w' H. injection H as <- _. exact I. Qed.

#[local] Hint Resolve throws_only_get_transactions throws_only_put_transactions
  throws_only_get_debitCards throws_only_put_debitCards throws_only_new_Date
  throws_only_new_ObjectId : faults.

Lemma throws_findOne_id (id : ObjectId) :
  throws_only any_fault (DebitCard_findOne_id id).
Proof. unfold DebitCard_findOne_id. solve_throws; auto with faults. Qed.

Lemma throws_findOne_accountNumber (n : string) :
  throws_only any_fault (DebitCard_findOne_accountNumber n).
Proof. unfold DebitCard_findOne_accountNumber. solve_throws; auto with faults. Qed.

Lemma throws_Transaction_save (t : Transaction) :
  throws_only any_fault (Transaction_save t).
Proof. unfold Transaction_save. solve_throws; auto with faults. Qed.

Lemma throws_Transaction_updateOne (id : ObjectId) (s : TxStatus) :
  throws_only any_fault (Transaction_updateOne id s).
Proof. unfold Transaction_updateOne. solve_throws; auto with faults. Qed.

Lemma throws_DebitCard_save (c : DebitCard) :
  throws_only any_fault (DebitCard_save c).
Proof. unfold DebitCard_save. solve_throws; auto with faults. Qed.

#[local] Hint Resolve throws_findOne_id throws_findOne_accountNumber
  throws_Transaction_save throws_Transaction_updateOne throws_DebitCard_save
  : faults.

Lemma throws_create (p : CreateParams) :
  throws_only client_or_server_error (create p).
Proof.
  unfold create.
  apply (throws_only_try_catch _ any_fault); [|apply throws_only_rethrow].
  unfold create_try, resolve_debitCard. solve_throws; auto with faults.
Qed.

Lemma throws_getBalances (this : DebitCard) :
  throws_only client_or_server_error (getBalances this).
Proof.
  unfold getBalances.
  apply (throws_only_try_catch _ (fun _ => True)).
  - intros w r w' _. destruct r; exact I.
  - intros e _. solve_throws.
Qed.

Lemma throws_inner {A} (m : M A) :
  throws_only client_or_server_error m -> throws_only any_fault m.
Proof. apply throws_only_weaken. apply client_or_server_fault. Qed.

#[local] Hint Resolve throws_create throws_getBalances throws_inner : faults.








(** * Refunds *)




Lemma Qeq_bool_false (a b : Q) : Qeq_bool a b = false <-> ~ (a == b)%Q.
Proof.
  split.
  - intros H E. apply Qeq_bool_iff in E. congruence.
  - intros H. destruct (Qeq_bool a b) eqn:E; [|reflexivity].
    apply Qeq_bool_iff in E. contradiction.
Qed.

Lemma eqb_false_neq (a b : string) : String.eqb a b = false <-> a <> b.
Proof. apply String.eqb_neq. Qed.

(** The guards of [createRefundTransaction] let through exactly the
    completed purchases with an amount and a vendor. *)
Lemma refund_guards (this : Transaction) :
  (Qeq_bool (amount this) 0 || String.eqb (vender this) "" = false
   /\ negb (TxStatus_eqb (status this) Completed)
      || negb (TxType_eqb (type this) Withdrawal)
      || negb (TxSubtype_eqb (subtype this) Purchase) = false)
  <-> (~ (amount this == 0)%Q /\ vender this <> ""
       /\ status this = Completed /\ type this = Withdrawal
       /\ subtype this = Purchase).
Proof.
  rewrite !orb_false_iff, !negb_false_iff, Qeq_bool_false, eqb_false_neq,
    TxStatus_eqb_eq, TxType_eqb_eq, TxSubtype_eqb_eq.
  tauto.
Qed.

Lemma createRefund_try_inv (this : Transaction) (w w' : World)
  (r : Outcome Transaction) :
  createRefundTransaction_try this w = (r, w') ->
  (exists msg, r = Throw (Handled {| message := msg; code := 400 |})
               /\ w' = w
               /\ ~ (~ (amount this == 0)%Q /\ vender this <> ""
                     /\ status this = Completed /\ type this = Withdrawal
                     /\ subtype this = Purchase))
  \/ ((~ (amount this == 0)%Q /\ vender this <> ""
       /\ status this = Completed /\ type this = Withdrawal
       /\ subtype this = Purchase)
      /\ create (refund_params this) w = (r, w')).
Proof.
  unfold createRefundTransaction_try. intros H.
  on_guard H.
  - on_guard H.
    + right. split; [|exact H]. apply refund_guards. auto.
    + left. eexists. split; [reflexivity|]. split; [reflexivity|].
      intros G. apply refund_guards in G as [_ G]. congruence.
  - left. eexists. split; [reflexivity|]. split; [reflexivity|].
    intros G. apply refund_guards in G as [G _]. congruence.
Qed.


Lemma fresh_ids_savers_world : fresh_ids savers_world.
Proof.
  intros t Hin. simpl in Hin.
  repeat (destruct Hin as [<-|Hin]; [simpl; lia|]). destruct Hin.
Qed.


(** X3.  Whatever the database does, [createRefundTransaction] stores a
    transaction only for a completed purchase that has an amount and a
    vendor, on a card that is found and active, and then exactly the one it
    returns; in every other case it throws and the collections are as they
    were. It never changes or removes a stored transaction. *)
Theorem refund_stores_only_for_completed_purchase (w : World)
  (this : Transaction) (F : fresh_ids w) :
  let r := fst (createRefundTransaction this w) in
  let w' := snd (createRefundTransaction this w) in
  debitCards w' = debitCards w
  /\ match r with
     | Return t =>
         status this = Completed /\ type this = Withdrawal
         /\ subtype this = Purchase
         /\ ~ (amount this == 0)%Q /\ vender this <> ""
         /\ (exists card,
               find_card_by_id (_debitCard this) (debitCards w) = Some card
               /\ active card = true)
         /\ transactions w' = (transactions w ++ [t])%list
     | Throw e => transactions w' = transactions w
     end.
Proof.
  destruct (createRefundTransaction this w) as [r w'] eqn:E. cbn [fst snd].
  unfold createRefundTransaction in E.
  apply try_catch_inv in E as [(t & E & ->)|(e & w1 & E & Hh)].
  - apply createRefund_try_inv in E as [(msg & ? & _)|(G & E)]; [discriminate|].
    destruct G as (Hnz & Hv & Hst & Hty & Hsub).
    apply create_inv in E as (Hc & _ & _ & (card & Hres & Hact & _) & _ & _ & Htx).
    simpl in Htx. destruct Htx as [_ Htx].
    rewrite (find_transaction_fresh w (nextId w) F (le_n _)) in Htx.
    split; [exact Hc|]. repeat split; auto. exists card. split; assumption.
  - assert (Hbody : transactions w1 = transactions w
                    /\ debitCards w1 = debitCards w).
    { apply createRefund_try_inv in E as [(msg & _ & -> & _)|(_ & E)]; [auto|].
      apply create_inv in E as (Hc & _ & _ & Ht). auto. }
    destruct Hbody as [Ht Hc].
    destruct e as [he|what].
    + apply bind_inv in Hh as [(u & w2 & Hl & Hh)|(e0 & Hl & _)].
      * apply logger_info_inv in Hl as (_ & (St & Sc & _) & _).
        unfold throw in Hh. injection Hh as <- <-. split; congruence.
      * apply logger_info_inv in Hl as (? & _). discriminate.
    + apply bind_inv in Hh as [(u & w2 & Hl & Hh)|(e0 & Hl & _)].
      * apply logger_error_inv in Hl as (_ & (St & Sc & _) & _).
        unfold throw_handled, throw in Hh. injection Hh as <- <-.
        split; congruence.
      * apply logger_error_inv in Hl as (? & _). discriminate.
Qed.

Lemma refund_stores_only_for_completed_purchase_witness :
  let this := tx_of 14%nat 13%nat 3%nat Debit Credit 500 Pending in
  let r := fst (createRefundTransaction this savers_world) in
  let w' := snd (createRefundTransaction this savers_world) in
  debitCards w' = debitCards savers_world
  /\ match r with
     | Return t =>
         status this = Completed /\ type this = Withdrawal
         /\ subtype this = Purchase
         /\ ~ (amount this == 0)%Q /\ vender this <> ""
         /\ (exists card,
               find_card_by_id (_debitCard this) (debitCards savers_world)
               = Some card
               /\ active card = true)
         /\ transactions w' = (transactions savers_world ++ [t])%list
     | Throw e => transactions w' = transactions savers_world
     end.
Proof.
  exact (refund_stores_only_for_completed_purchase savers_world
           (tx_of 14%nat 13%nat 3%nat Debit Credit 500 Pending) fresh_ids_savers_world).
Defined.

(** * Creating, canceling and charging, and the balances *)

(** X4.  [create] stores nothing on a card that is missing or inactive. *)
Theorem create_needs_active_card (p : CreateParams) (w : World)
  (Hnone : forall card, resolves p w card -> active card = false) :
  exists he w',
    create p w = (Throw (Handled he), w')
    /\ transactions w' = transactions w /\ debitCards w' = debitCards w.
Proof.
  destruct (create p w) as [[t|e] w'] eqn:E.
  - apply create_inv in E as (_ & _ & _ & (card & Hres & Hact & _) & _).
    rewrite (Hnone card Hres) in Hact. discriminate.
  - apply create_inv in E as (Hc & _ & (he & ->) & Ht). eauto.
Qed.

Lemma create_needs_active_card_witness :
  exists he w',
    create (debit_credit_params (JNum (Fin 10))) closed_world
    = (Throw (Handled he), w')
    /\ transactions w' = transactions closed_world
    /\ debitCards w' = debitCards closed_world.
Proof.
  apply (create_needs_active_card (debit_credit_params (JNum (Fin 10)))
           closed_world).
  unfold resolves. simpl. intros card [_ H]. injection H as <-. reflexivity.
Defined.

Lemma of_card_app (c : ObjectId) (s : TxStatus) (l1 l2 : list Transaction) :
  of_card c s (l1 ++ l2) = (of_card c s l1 ++ of_card c s l2)%list.
Proof. unfold of_card. apply filter_app. Qed.



(** ** Canceling *)


Lemma find_transaction_In_id (i : ObjectId) (l : list Transaction)
  (x : Transaction) :
  find_transaction i l = Some x -> In x l /\ _id x = i.
Proof.
  induction l as [|t r IH]; simpl; [discriminate|].
  destruct (Nat.eqb (_id t) i) eqn:E.
  - intros H. injection H as <-. apply Nat.eqb_eq in E. auto.
  - intros H. destruct (IH H). auto.
Qed.


Lemma find_set_status_by_id (i j : ObjectId) (s : TxStatus)
  (l : list Transaction) :
  find_transaction j (set_status_by_id i s l)
  = if Nat.eqb j i then option_map (fun x => set_status x s) (find_transaction i l)
    else find_transaction j l.
Proof.
  destruct (Nat.eqb j i) eqn:E.
  - apply Nat.eqb_eq in E. subst j.
    induction l as [|t r IH]; simpl; [reflexivity|].
    destruct (Nat.eqb (_id t) i) eqn:E; simpl; rewrite E; [reflexivity|exact IH].
  - apply Nat.eqb_neq in E.
    apply find_transaction_set_status_other. exact E.
Qed.

Lemma Transaction_save_returns (t : Transaction) (w : World) :
  reliable w -> schema_valid t = true ->
  exists w', Transaction_save t w = (Return tt, w').
Proof.
  intros R V. destruct (Transaction_save t w) as [[[]|e] w'] eqn:E; [eauto|].
  exfalso. unfold Transaction_save in E. rewrite V in E.
  apply bind_inv in E as [(u & w1 & H1 & E)|(e0 & H1 & _)].
  - unfold bind, get_transactions, put_transactions in E.
    destruct (find_transaction (_id t) (transactions w1)); discriminate.
  - apply storage_inv in H1 as (_ & _ & _ & [[Hf _]|[_ ?]]); [|discriminate].
    rewrite R in Hf. discriminate.
Qed.




(** ** The overdraft fee *)

Lemma DebitCard_save_returns (c : DebitCard) (w : World) :
  reliable w -> exists w', DebitCard_save c w = (Return tt, w').
Proof.
  intros R. destruct (DebitCard_save c w) as [[[]|e] w'] eqn:E; [eauto|].
  exfalso. unfold DebitCard_save in E.
  apply bind_inv in E as [(u & w1 & H1 & E)|(e0 & H1 & _)].
  - unfold bind, get_debitCards, put_debitCards in E. discriminate.
  - apply storage_inv in H1 as (_ & _ & _ & [[Hf _]|[_ ?]]); [|discriminate].
    rewrite R in Hf. discriminate.
Qed.

Lemma find_replace_card (c : DebitCard) (l : list DebitCard) (c0 : DebitCard) :
  find_card_by_id (card_id c) l = Some c0 ->
  find_card_by_id (card_id c) (replace_card c l) = Some c.
Proof.
  induction l as [|x r IH]; simpl; [discriminate|].
  destruct (Nat.eqb (card_id x) (card_id c)) eqn:E; simpl.
  - intros _. rewrite Nat.eqb_refl. reflexivity.
  - intros H. rewrite E. exact (IH H).
Qed.

(** X7.  With a database that answers, charging the overdraft fee of an
    active card stores a completed withdrawal of subtype fee, of -10, from
    vendor ONE, and records the date on the card; from then on and for five
    days the engine's test for a new fee is false, whatever the balance. The
    fee counts at once in the current balance. *)
Theorem overdraft_fee_starts_cooldown (w : World) (card c0 : DebitCard)
  (R : reliable w) (F : fresh_ids w)
  (Hstored : find_card_by_id (card_id card) (debitCards w) = Some c0)
  (Hact : active card = true) :
  exists f w',
    createOverdraftFeeTransaction (Some card) w = (Return f, w')
    /\ type f = Withdrawal /\ subtype f = Fee /\ amount f = (- (10))%Q
    /\ status f = Completed /\ vender f = "ONE"
    /\ _debitCard f = card_id card
    /\ transactions w' = (transactions w ++ [f])%list
    /\ (exists card',
          find_card_by_id (card_id card) (debitCards w') = Some card'
          /\ lastOverdraftFee card' = Some (now w)
          /\ forall debitBalance today,
               (today - now w <= FIVE_DAYS)%Z ->
               overdraft_due debitBalance card' today = false)
    /\ (total_amount (of_card (card_id card) Completed (transactions w'))
        == total_amount (of_card (card_id card) Completed (transactions w))
           - 10)%Q.
Proof.
  assert (Hvp : valid_params (fee_params card)).
  { unfold valid_params. simpl. split; [right|auto].
    repeat split; auto. exists (- (10))%Q. split; [reflexivity|].
    split; [reflexivity|]. exists (- 1000)%Z. reflexivity. }
  destruct (create_returns (fee_params card) w card Hvp eq_refl Hact
              (fun n => R n _)) as (w1 & E1).
  { simpl. discriminate. }
  pose proof E1 as E1'.
  apply create_inv in E1' as (Hc1 & Hf1 & _ & _ & Hn1 & _ & Htx1).
  simpl in Htx1.
  set (f := set_status
              (new_Transaction (nextId w) (now w) (fee_params card) card)
              Completed).
  assert (R1 : reliable w1) by (apply (reliable_frame w w1); auto).
  destruct (Transaction_save_returns f w1 R1 eq_refl) as (w2 & E2).
  pose proof E2 as E2'.
  apply save_new in E2' as (Hc2 & Hn2 & Hf2 & _ & [[[? ?] _]|[_ Htx2]]);
    [discriminate| |].
  2:{ simpl. rewrite Htx1. apply find_transaction_fresh; auto. }
  assert (R2 : reliable w2) by (apply (reliable_frame w1 w2); auto).
  assert (Hnow : now w2 = now w).
  { destruct Hf1 as (? & _), Hf2 as (? & _). congruence. }
  destruct (DebitCard_save_returns (set_lastOverdraftFee card (now w)) w2 R2)
    as (w3 & E3).
  pose proof E3 as E3'.
  apply DebitCard_save_inv in E3'
    as (Htx3 & _ & _ & _ & [[[? ?] _]|[_ Hc3]]); [discriminate|].
  exists f, w3. split.
  { unfold createOverdraftFeeTransaction. apply try_catch_Return.
    unfold createOverdraftFeeTransaction_try.
    rewrite (bind_Return _ _ _ _ _ E1). fold f.
    rewrite (bind_Return _ _ _ _ _ E2).
    unfold bind at 1, new_Date. rewrite Hnow.
    rewrite (bind_Return _ _ _ _ _ E3). reflexivity. }
  assert (Htx : transactions w3 = (transactions w ++ [f])%list)
    by congruence.
  repeat split; try reflexivity; try exact Htx.
  - exists (set_lastOverdraftFee card (now w)). split; [|split].
    + rewrite Hc3, Hc2, Hc1.
      apply (find_replace_card (set_lastOverdraftFee card (now w))
               (debitCards w) c0). exact Hstored.
    + reflexivity.
    + intros bal today Hle. unfold overdraft_due. simpl.
      replace (today - now w >? FIVE_DAYS)%Z with false; [apply andb_false_r|].
      symmetry. rewrite Z.gtb_ltb. apply Z.ltb_ge. exact Hle.
  - rewrite Htx, of_card_app, total_amount_app. unfold of_card at 2. simpl.
    rewrite Nat.eqb_refl. simpl. ring.
Qed.

Lemma overdraft_fee_starts_cooldown_witness :
  exists f w',
    createOverdraftFeeTransaction (Some card_a) dipping_world = (Return f, w')
    /\ type f = Withdrawal /\ subtype f = Fee /\ amount f = (- (10))%Q
    /\ status f = Completed /\ vender f = "ONE"
    /\ _debitCard f = card_id card_a
    /\ transactions w' = (transactions dipping_world ++ [f])%list
    /\ (exists card',
          find_card_by_id (card_id card_a) (debitCards w') = Some card'
          /\ lastOverdraftFee card' = Some (now dipping_world)
          /\ forall debitBalance today,
               (today - now dipping_world <= FIVE_DAYS)%Z ->
               overdraft_due debitBalance card' today = false)
    /\ (total_amount (of_card (card_id card_a) Completed (transactions w'))
        == total_amount
             (of_card (card_id card_a) Completed (transactions dipping_world))
           - 10)%Q.
Proof.
  apply (overdraft_fee_starts_cooldown dipping_world card_a card_a
           (reliable_world_of _)).
  - intros t Hin. simpl in Hin.
    repeat (destruct Hin as [<-|Hin]; [simpl; lia|]). destruct Hin.
  - reflexivity.
  - reflexivity.
Defined.

(** ** Transfers *)

Lemma transfer_creates_inv (a : JsVal) (scard rcard : DebitCard)
  (w w' : World) (res : Outcome (Transaction * Transaction)) :
  fresh_ids w ->
  (senderTransaction <- create (sender_params a scard rcard) ;;
   receiverTransaction <- create (receiver_params a scard rcard) ;;
   ret (senderTransaction, receiverTransaction)) w = (res, w') ->
  debitCards w' = debitCards w
  /\ exists new,
       transactions w' = (transactions w ++ new)%list
       /\ match res with
          | Return (st, rt) =>
              new = [st; rt]
              /\ type st = Withdrawal /\ subtype st = Transfer
              /\ type rt = Debit /\ subtype rt = Credit
              /\ status st = Pending /\ status rt = Pending
              /\ (amount st + amount rt == 0)%Q
          | Throw _ =>
              new = []
              \/ exists st, new = [st] /\ type st = Withdrawal
                            /\ subtype st = Transfer /\ status st = Pending
          end.
Proof.
  intros F H.
  apply bind_inv in H as [(st & w1 & H1 & H)|(e & H1 & ->)].
  2:{ apply create_inv in H1 as (Hc & _ & _ & Ht). split; [exact Hc|].
      exists []. rewrite app_nil_r. auto. }
  apply create_inv in H1
    as (Hc1 & Hf1 & Hv1 & (c1 & Hres1 & _ & Est) & Hn1 & _ & Htx1).
  simpl in Htx1. destruct Htx1 as [_ Htx1].
  rewrite (find_transaction_fresh w (nextId w) F (le_n _)) in Htx1.
  assert (F1 : fresh_ids w1).
  { apply (fresh_ids_app w w1 st Htx1); auto; rewrite Hn1; [|lia].
    rewrite Est. simpl. lia. }
  assert (Hst : type st = Withdrawal /\ subtype st = Transfer
                /\ status st = Pending).
  { rewrite Est. simpl. auto. }
  apply bind_inv in H as [(rt & w2 & H2 & H)|(e & H2 & ->)].
  2:{ apply create_inv in H2 as (Hc & _ & _ & Ht). split; [congruence|].
      exists [st]. split; [congruence|]. right. exists st. tauto. }
  apply ret_inv in H as (-> & ->).
  apply create_inv in H2
    as (Hc2 & _ & Hv2 & (c2 & _ & _ & Ert) & _ & _ & Htx2).
  simpl in Htx2. destruct Htx2 as [_ Htx2].
  rewrite (find_transaction_fresh w1 (nextId w1) F1 (le_n _)) in Htx2.
  split; [congruence|]. exists [st; rt]. split.
  { rewrite Htx2, Htx1, <- app_assoc. reflexivity. }
  destruct Hst as (Hty & Hsub & Hstat).
  split; [reflexivity|]. split; [exact Hty|]. split; [exact Hsub|].
  rewrite Ert. simpl. repeat split; auto.
  destruct Hv2 as ([(_ & _ & (q & Eq & _))|(Ety & _)] & _);
    [|simpl in Ety; discriminate].
  simpl in Eq. rewrite Est. simpl. rewrite Eq. simpl. ring.
Qed.

(** X8.  Whatever the parameters and the faults of the database, a transfer
    stores nothing, or the sender's withdrawal alone, or the sender's
    withdrawal followed by the receiver's credit: never the credit without
    the withdrawal. It returns exactly in the last case, and the two amounts
    then cancel out. The cards are not changed. *)
Theorem transfer_never_credits_alone (w : World) (s r a : JsVal)
  (F : fresh_ids w) :
  let res := fst (createTransferTransaction s r a w) in
  let w' := snd (createTransferTransaction s r a w) in
  debitCards w' = debitCards w
  /\ exists new,
       transactions w' = (transactions w ++ new)%list
       /\ match res with
          | Return (st, rt) =>
              new = [st; rt]
              /\ type st = Withdrawal /\ subtype st = Transfer
              /\ type rt = Debit /\ subtype rt = Credit
              /\ status st = Pending /\ status rt = Pending
              /\ (amount st + amount rt == 0)%Q
          | Throw _ =>
              new = []
              \/ exists st, new = [st] /\ type st = Withdrawal
                            /\ subtype st = Transfer /\ status st = Pending
          end.
Proof.
  destruct (createTransferTransaction s r a w) as [res w'] eqn:E.
  cbn [fst snd].
  assert (Hbody : forall res1 w1,
    createTransferTransaction_try s r a w = (res1, w1) ->
    debitCards w1 = debitCards w
    /\ exists new,
         transactions w1 = (transactions w ++ new)%list
         /\ match res1 with
            | Return (st, rt) =>
                new = [st; rt]
                /\ type st = Withdrawal /\ subtype st = Transfer
                /\ type rt = Debit /\ subtype rt = Credit
                /\ status st = Pending /\ status rt = Pending
                /\ (amount st + amount rt == 0)%Q
            | Throw _ =>
                new = []
                \/ exists st, new = [st] /\ type st = Withdrawal
                              /\ subtype st = Transfer /\ status st = Pending
            end).
  { intros res1 w1 H.
    apply createTransfer_try_inv in H
      as [(e & -> & Ht & Hc & _)
         |(scard & rcard & w2 & bal & w3 & _ & _ & _ & _ & _ & _ & _
           & S2 & Hb & _ & H)].
    - split; [exact Hc|]. exists []. rewrite app_nil_r. auto.
    - apply getBalances_inv in Hb as (S3 & _).
      pose proof (same_data_trans _ _ _ S2 S3) as (Ht & Hc & Hn & _).
      assert (F3 : fresh_ids w3).
      { apply (fresh_ids_same w w3 Ht); [lia|exact F]. }
      apply transfer_creates_inv in H as (Hc' & new & Ht' & Hres); [|exact F3].
      split; [congruence|]. exists new. split; [congruence|exact Hres]. }
  unfold createTransferTransaction in E.
  apply try_catch_inv in E as [(p & E & ->)|(e & w1 & E & Hh)].
  - exact (Hbody _ _ E).
  - apply Hbody in E as (Hc & new & Ht & Hres).
    apply rethrow_inv in Hh as ((St & Sc & _) & he & -> & _).
    split; [congruence|]. exists new. split; [congruence|exact Hres].
Qed.

Lemma transfer_never_credits_alone_witness :
  let res := fst (createTransferTransaction (JStr "4000000000000001")
                    (JStr "4000000000000002") (JNum (Fin 20)) flaky_world) in
  let w' := snd (createTransferTransaction (JStr "4000000000000001")
                   (JStr "4000000000000002") (JNum (Fin 20)) flaky_world) in
  debitCards w' = debitCards flaky_world
  /\ exists new,
       transactions w' = (transactions flaky_world ++ new)%list
       /\ match res with
          | Return (st, rt) =>
              new = [st; rt]
              /\ type st = Withdrawal /\ subtype st = Transfer
              /\ type rt = Debit /\ subtype rt = Credit
              /\ status st = Pending /\ status rt = Pending
              /\ (amount st + amount rt == 0)%Q
          | Throw _ =>
              new = []
              \/ exists st, new = [st] /\ type st = Withdrawal
                            /\ subtype st = Transfer /\ status st = Pending
          end.
Proof.
  apply (transfer_never_credits_alone flaky_world).
  intros t Hin. simpl in Hin.
  repeat (destruct Hin as [<-|Hin]; [simpl; lia|]). destruct Hin.
Defined.

(** The middle case happens: the receiver's credit cannot be saved and the
    sender's withdrawal of 20 stays, alone. *)
Example transfer_interrupted :
  let run := createTransferTransaction (JStr "4000000000000001")
               (JStr "4000000000000002") (JNum (Fin 20)) flaky_world in
  fst run = Throw (Handled {| message := "Error creating transaction";
                              code := 500 |})
  /\ map (fun t => (_id t, type t, subtype t, _debitCard t))
         (created_since flaky_world (snd run))
     = [(100%nat, Withdrawal, Transfer, 1%nat)].
Proof. split; reflexivity. Qed.

(** * The reconciliation run as a whole *)

Lemma charge_overdraft_appends (bal : Balances) (card : DebitCard)
  (w w' : World) (r : Outcome unit) :
  fresh_ids w ->
  charge_overdraft bal card w = (r, w') ->
  exists new,
    (new = [] \/ new = [fee_of w card])
    /\ transactions w' = (transactions w ++ new)%list
    /\ (debitCards w' = debitCards w
        \/ debitCards w'
           = replace_card (set_lastOverdraftFee card (now w)) (debitCards w)).
Proof.
  intros F H. unfold charge_overdraft in H.
  assert (Hbody : forall r1 w1,
    (today <- new_Date ;;
     if overdraft_due bal card today
     then _ <- createOverdraftFeeTransaction (Some card) ;; ret tt
     else ret tt) w = (r1, w1) ->
    exists new,
      (new = [] \/ new = [fee_of w card])
      /\ transactions w1 = (transactions w ++ new)%list
      /\ (debitCards w1 = debitCards w
          \/ debitCards w1
             = replace_card (set_lastOverdraftFee card (now w)) (debitCards w))).
  { intros r1 w1 H1. unfold bind at 1, new_Date in H1.
    destruct (overdraft_due bal card (now w)).
    - assert (Hfee : exists rf wf,
                createOverdraftFeeTransaction (Some card) w = (rf, wf)
                /\ wf = w1).
      { apply bind_inv in H1 as [(f & w2 & Hfee & H1)|(e & Hfee & _)].
        - apply ret_inv in H1 as (_ & ->). eauto.
        - eauto. }
      destruct Hfee as (rf & wf & Hfee & ->).
      apply createOverdraftFee_inv in Hfee
        as (_ & (new & Hnew & Htx & _) & Hcards); [|exact F].
      exists new. split; [|split; [exact Htx|]].
      + destruct Hnew as [->|(c & Ec & ->)]; [auto|].
        injection Ec as <-. auto.
      + destruct Hcards as [Hc|(c & Ec & Hc)]; [auto|].
        injection Ec as <-. auto.
    - apply ret_inv in H1 as (_ & ->). exists []. rewrite app_nil_r. auto. }
  apply try_catch_inv in H as [(a & H & _)|(e & w1 & H & Hs)].
  - exact (Hbody _ _ H).
  - apply Hbody in H as (new & Hnew & Htx & Hc).
    unfold swallow in Hs. apply logger_error_inv in Hs as (_ & S & _).
    destruct S as (St & Sc & _). exists new. rewrite St, Sc. auto.
Qed.

(** The body of the loop over the groups either leaves the collections as
    they were, or found the card, read its balances, and ran the two
    inner steps. *)
Lemma validate_group_shape (cfg : Config) (g : ObjectId * list Transaction)
  (w w' : World) (r : Outcome unit) :
  fresh_ids w ->
  validate_group cfg g w = (r, w') ->
  (transactions w' = transactions w /\ debitCards w' = debitCards w
   /\ frame w w' /\ nextId w' = nextId w)
  \/ exists card bal w2 b3 w3,
       find_card_by_id (fst g) (debitCards w) = Some card
       /\ same_data w w2
       /\ settle_all cfg (snd g) bal w2 = (Return b3, w3)
       /\ charge_overdraft b3 card w3 = (r, w').
Proof.
  intros F H. unfold validate_group in H.
  assert (Hsame : forall w0, same_data w w0 ->
            transactions w0 = transactions w /\ debitCards w0 = debitCards w
            /\ frame w w0 /\ nextId w0 = nextId w).
  { intros w0 S. pose proof S as (? & ? & ? & _). auto using same_data_frame. }
  apply bind_inv in H as [(found & w1 & H1 & H)|(e & H1 & ->)].
  2:{ apply findOne_id_inv in H1 as (S & _). left. auto. }
  apply findOne_id_inv in H1 as (S1 & _ & [[_ ?]|[_ Efound]]); [discriminate|].
  injection Efound as ->.
  destruct (find_card_by_id (fst g) (debitCards w)) as [debitCard|] eqn:Ecard.
  2:{ unfold throw in H. injection H as <- <-. left. auto. }
  apply bind_inv in H as [(balances & w2 & H2 & H)|(e & H2 & ->)].
  2:{ exfalso. apply try_catch_inv in H2 as [(a & _ & ?)|(e0 & w0 & _ & Hh)];
        [discriminate|].
      apply bind_inv in Hh as [(u & w3 & _ & Hh)|(e1 & Hh & _)].
      - apply ret_inv in Hh as (? & _). discriminate.
      - apply logger_error_inv in Hh as (? & _). discriminate. }
  assert (S2 : same_data w1 w2).
  { apply try_catch_inv in H2 as [(a & H2 & _)|(e0 & w0 & H2 & Hh)].
    - apply bind_inv in H2 as [(b & w3 & Hb & H2)|(e1 & _ & ?)]; [|discriminate].
      apply ret_inv in H2 as (_ & ->).
      apply getBalances_inv in Hb as (S & _). exact S.
    - apply bind_inv in H2 as [(b & w3 & _ & H2)|(e1 & H2 & _)].
      { apply ret_inv in H2 as (? & _). discriminate. }
      apply getBalances_inv in H2 as (S & _).
      apply bind_inv in Hh as [(u & w3 & Hl & Hh)|(e2 & Hl & _)].
      + apply ret_inv in Hh as (_ & ->).
        apply logger_error_inv in Hl as (_ & S3 & _).
        eapply same_data_trans; eauto.
      + apply logger_error_inv in Hl as (? & _). discriminate. }
  pose proof (same_data_trans _ _ _ S1 S2) as S12.
  destruct balances as [debitBalance|].
  2:{ apply ret_inv in H as (_ & ->). left. auto. }
  right.
  apply bind_inv in H as [(b3 & w3 & H3 & H)|(e & H3 & ->)].
  - exists debitCard, debitBalance, w2, b3, w3. auto.
  - exfalso.
    assert (F2 : fresh_ids w2).
    { destruct S12 as (Ht & _ & Hn & _).
      apply (fresh_ids_same w w2 Ht); [lia|exact F]. }
    clear - H3 F2. revert debitBalance w2 F2 H3.
    induction (snd g) as [|t rest IH]; intros bal w2 F2 H3; simpl in H3.
    + apply ret_inv in H3 as (? & _). discriminate.
    + apply bind_inv in H3 as [(b1 & w1 & E1 & H3)|(e1 & E1 & _)].
      * apply settle_pointwise in E1 as (_ & F1 & _); [|exact F2].
        exact (IH _ _ F1 H3).
      * apply settle_pointwise in E1 as (? & _); [discriminate|exact F2].
Qed.

(** ** What a run changes in the stored documents *)

(** X9.  Whatever the database does, a run of [validatePending] removes no
    stored transaction and rewrites none: a transaction that is not pending
    is left exactly as it was, and a pending one is left as it was or gets
    the status completed, every other field kept. *)
Theorem validatePending_only_completes (cfg : Config) (w : World)
  (U : unique_ids w) (F : fresh_ids w) :
  let w' := snd (validatePending cfg w) in
  forall i t, stored w i = Some t ->
    (status t <> Pending -> stored w' i = Some t)
    /\ (status t = Pending ->
        stored w' i = Some t
        \/ stored w' i = Some (set_status t Completed)).
Proof.
  intros w' i t Ht. subst w'.
  destruct (validatePending cfg w) as [r w'] eqn:E. cbn [snd].
  apply validatePending_amends in E as (_ & _ & A); auto.
  destruct (A i t Ht) as (t' & Ht' & [->|[Hp ->]]).
  - split; auto.
  - split; [intros Hn; contradiction|auto].
Qed.

Lemma validatePending_only_completes_witness :
  let w' := snd (validatePending default_config shopping_world) in
  (status purchase_of_20 <> Pending ->
   stored w' 12%nat = Some purchase_of_20)
  /\ (status purchase_of_20 = Pending ->
      stored w' 12%nat = Some purchase_of_20
      \/ stored w' 12%nat = Some (set_status purchase_of_20 Completed)).
Proof.
  exact (validatePending_only_completes default_config shopping_world
           unique_ids_shopping_world fresh_ids_shopping_world
           12%nat purchase_of_20 eq_refl).
Defined.

(** ** What a run creates *)

Lemma engine_made_set_status (c : Transaction) :
  engine_made c -> engine_made (set_status c Completed).
Proof. intros (_ & Hv & H). unfold engine_made. simpl. auto. Qed.

Lemma In_set_status_by_id (i : ObjectId) (s : TxStatus) (l : list Transaction)
  (c : Transaction) :
  In c (set_status_by_id i s l) ->
  exists c0, In c0 l /\ (c = c0 \/ c = set_status c0 s).
Proof.
  induction l as [|t r IH]; simpl; [intros []|].
  destruct (Nat.eqb (_id t) i).
  - intros [<-|H]; eauto 6.
  - intros [<-|H]; [eauto 6|]. destruct (IH H) as (c0 & Hin & Hc). eauto 6.
Qed.

Lemma news_step (w0 w w' : World) (i : ObjectId) (new : list Transaction) :
  news w0 w ->
  (forall c, In c new -> engine_made c) ->
  (transactions w' = (transactions w ++ new)%list
   \/ transactions w'
      = set_status_by_id i Completed (transactions w ++ new)%list) ->
  news w0 w'.
Proof.
  intros N Hnew Htx.
  assert (Hbase : forall c, In c (transactions w ++ new)%list ->
                    (nextId w0 <= _id c)%nat -> engine_made c).
  { intros c Hc Hid. apply in_app_or in Hc as [Hc|Hc]; auto. }
  intros c Hc Hid. destruct Htx as [Htx|Htx]; rewrite Htx in Hc.
  - auto.
  - apply In_set_status_by_id in Hc as (c0 & Hin & [-> | ->]); [auto|].
    apply engine_made_set_status. apply Hbase; [exact Hin|exact Hid].
Qed.

Lemma news_same (w0 w w' : World) :
  transactions w' = transactions w -> news w0 w -> news w0 w'.
Proof. intros E N c Hc. rewrite E in Hc. auto. Qed.

Lemma cashback_of_engine_made (cfg : Config) (t : Transaction) (w : World)
  (card : DebitCard) : engine_made (cashback_of cfg t w card).
Proof. unfold engine_made. simpl. auto. Qed.

Lemma fee_of_engine_made (w : World) (card : DebitCard) :
  engine_made (fee_of w card).
Proof. unfold engine_made. simpl. auto 10. Qed.

Lemma settle_news (cfg : Config) (w0 : World) (t : Transaction)
  (bal : Balances) (w w' : World) (r : Outcome Balances) :
  fresh_ids w -> news w0 w ->
  settle cfg t bal w = (r, w') ->
  news w0 w'.
Proof.
  intros F N E.
  apply settle_inv in E as (_ & _ & _ & new & Hnew & _ & Hout); [|exact F].
  apply (news_step w0 w w' (_id t) new N).
  - intros c Hc. destruct Hnew as [->|(_ & _ & _ & card & _ & _ & ->)];
      [destruct Hc|]. destruct Hc as [<-|[]]. apply cashback_of_engine_made.
  - destruct Hout as [(-> & _)|(-> & _)]; auto.
Qed.

Lemma settle_all_news (cfg : Config) (w0 : World) (l : list Transaction) :
  forall (bal : Balances) (w w' : World) (r : Outcome Balances),
  fresh_ids w -> news w0 w ->
  settle_all cfg l bal w = (r, w') ->
  fresh_ids w' /\ news w0 w'.
Proof.
  induction l as [|t rest IH]; intros bal w w' r F N E; simpl in E.
  - apply ret_inv in E as (_ & ->). auto.
  - apply bind_inv in E as [(b1 & w1 & E1 & E)|(e & E1 & _)].
    + pose proof (settle_news cfg w0 t bal w w1 _ F N E1) as N1.
      apply settle_pointwise in E1 as (_ & F1 & _); [|exact F].
      exact (IH _ _ _ _ F1 N1 E).
    + pose proof (settle_news cfg w0 t bal w w' _ F N E1) as N1.
      apply settle_pointwise in E1 as (_ & F1 & _); [|exact F]. auto.
Qed.

Lemma validate_group_news (cfg : Config) (w0 : World)
  (g : ObjectId * list Transaction) (w w' : World) (r : Outcome unit) :
  fresh_ids w -> news w0 w ->
  validate_group cfg g w = (r, w') ->
  fresh_ids w' /\ news w0 w'.
Proof.
  intros F N H.
  apply validate_group_shape in H
    as [(Ht & _ & (_ & _ & Hn) & _)
       |(card & bal & w2 & b3 & w3 & _ & S2 & H3 & H4)]; [| |exact F].
  - split; [apply (fresh_ids_same w w' Ht); auto|].
    apply (news_same w0 w w' Ht N).
  - destruct S2 as (Ht & _ & Hn & _).
    assert (F2 : fresh_ids w2) by (apply (fresh_ids_same w w2 Ht); [lia|exact F]).
    assert (N2 : news w0 w2) by (apply (news_same w0 w w2 Ht N)).
    apply settle_all_news with (w0 := w0) in H3 as (F3 & N3); auto.
    pose proof H4 as H4'.
    apply charge_overdraft_inv in H4' as (_ & F4 & _); [|exact F3].
    split; [exact F4|].
    apply charge_overdraft_appends in H4 as (new & Hnew & Htx & _); [|exact F3].
    apply (news_step w0 w3 w' 0%nat new N3); [|auto].
    intros c Hc. destruct Hnew as [-> | ->]; [destruct Hc|].
    destruct Hc as [<-|[]]. apply fee_of_engine_made.
Qed.

Lemma validate_groups_news (cfg : Config) (w0 : World)
  (gs : list (ObjectId * list Transaction)) :
  forall (w w' : World) (r : Outcome unit),
  fresh_ids w -> news w0 w ->
  validate_groups cfg gs w = (r, w') ->
  news w0 w'.
Proof.
  induction gs as [|g rest IH]; intros w w' r F N H; simpl in H.
  - apply ret_inv in H as (_ & ->). exact N.
  - apply bind_inv in H as [(u & w1 & H1 & H)|(e & H1 & _)].
    + apply validate_group_news with (w0 := w0) in H1 as (F1 & N1); auto.
      exact (IH _ _ _ F1 N1 H).
    + apply validate_group_news with (w0 := w0) in H1 as (_ & N1); auto.
Qed.

(** X10.  Whatever the database does, every document a run of
    [validatePending] adds to the collection is a completed cashback or a
    completed overdraft fee of -10, from vendor ONE. In particular a run
    creates no pending transaction: it leaves no work of its own making to
    the next run. *)
Theorem validatePending_creates_cashbacks_and_fees (cfg : Config) (w : World)
  (F : fresh_ids w) :
  forall c, In c (created_since w (snd (validatePending cfg w))) ->
    engine_made c.
Proof.
  intros c Hc. unfold created_since in Hc.
  apply filter_In in Hc as [Hin Hid]. apply Nat.leb_le in Hid.
  enough (N : news w (snd (validatePending cfg w))) by exact (N c Hin Hid).
  clear c Hin Hid.
  assert (N0 : news w w).
  { intros c Hc Hid. specialize (F c Hc). lia. }
  destruct (validatePending cfg w) as [r w'] eqn:E. cbn [snd].
  unfold validatePending in E.
  assert (Hbody : forall r1 w1,
    (pendingTransactions <- count_pending ;;
     if Nat.eqb pendingTransactions 0 then ret tt
     else
       transactionsByCard <- aggregate_pending ;;
       validate_groups cfg transactionsByCard) w = (r1, w1) ->
    news w w1).
  { intros r1 w1 H1.
    apply bind_inv in H1 as [(n & w2 & Hc & H1)|(e & Hc & _)].
    2:{ unfold count_pending in Hc.
        apply bind_inv in Hc as [(u & w3 & Hs & Hc)|(e0 & Hs & _)].
        - unfold bind, get_transactions, ret in Hc. discriminate.
        - apply storage_inv in Hs as ((Ht & _) & _).
          exact (news_same w w w1 Ht N0). }
    assert (S2 : same_data w w2).
    { unfold count_pending in Hc.
      apply bind_inv in Hc as [(u & w3 & Hs & Hc)|(e0 & _ & ?)]; [|discriminate].
      apply storage_inv in Hs as (S & _).
      unfold bind, get_transactions, ret in Hc. injection Hc as _ <-. exact S. }
    destruct (Nat.eqb n 0).
    { apply ret_inv in H1 as (_ & ->). destruct S2 as (Ht & _).
      exact (news_same w w w2 Ht N0). }
    apply bind_inv in H1 as [(gs & w3 & Ha & H1)|(e & Ha & _)].
    2:{ unfold aggregate_pending in Ha.
        apply bind_inv in Ha as [(u & w4 & Hs & Ha)|(e0 & Hs & _)].
        - unfold bind, get_transactions, ret in Ha. discriminate.
        - apply storage_inv in Hs as (S & _).
          destruct (same_data_trans _ _ _ S2 S) as (Ht & _).
          exact (news_same w w w1 Ht N0). }
    assert (S3 : same_data w w3).
    { unfold aggregate_pending in Ha.
      apply bind_inv in Ha as [(u & w4 & Hs & Ha)|(e0 & _ & ?)]; [|discriminate].
      apply storage_inv in Hs as (S & _).
      unfold bind, get_transactions, ret in Ha. injection Ha as _ <-.
      exact (same_data_trans _ _ _ S2 S). }
    destruct S3 as (Ht & _ & Hn & _).
    assert (F3 : fresh_ids w3) by (apply (fresh_ids_same w w3 Ht); [lia|exact F]).
    apply (validate_groups_news cfg w gs w3 w1 r1 F3); [|exact H1].
    exact (news_same w w w3 Ht N0). }
  apply try_catch_inv in E as [(a & E & _)|(e & w1 & E & Hh)].
  - exact (Hbody _ _ E).
  - apply Hbody in E.
    apply bind_inv in Hh as [(u & w2 & Hl & Hh)|(e0 & Hl & _)].
    + apply logger_error_inv in Hl as (_ & (Ht & _) & _).
      unfold throw_handled, throw in Hh. injection Hh as _ <-.
      exact (news_same w w1 w2 Ht E).
    + apply logger_error_inv in Hl as (? & _). discriminate.
Qed.

Lemma validatePending_creates_cashbacks_and_fees_witness :
  let c := cashback_of default_config purchase_of_20 shopping_world card_a in
  In c (created_since shopping_world
          (snd (validatePending default_config shopping_world)))
  /\ engine_made c.
Proof.
  assert (Hin : In (cashback_of default_config purchase_of_20 shopping_world
                      card_a)
                  (created_since shopping_world
                     (snd (validatePending default_config shopping_world)))).
  { vm_compute. left. reflexivity. }
  split; [exact Hin|].
  exact (validatePending_creates_cashbacks_and_fees default_config
           shopping_world fresh_ids_shopping_world _ Hin).
Defined.

(** ** What a run achieves when the database answers *)

Lemma Transaction_updateOne_returns (id : ObjectId) (s : TxStatus) (w : World) :
  reliable w ->
  exists w',
    Transaction_updateOne id s w = (Return tt, w')
    /\ transactions w' = set_status_by_id id s (transactions w).
Proof.
  intros R. destruct (Transaction_updateOne id s w) as [r w'] eqn:E.
  apply Transaction_updateOne_inv in E
    as (_ & _ & _ & _ & [(Hf & _)|(_ & -> & Htx)]).
  - rewrite R in Hf. discriminate.
  - eauto.
Qed.

Lemma plain_test (t : Transaction) :
  plain t ->
  TxType_eqb (type t) Withdrawal
  && includes CASHBACK_VENDERS (JStr (toUpperCase (vender t))) = false.
Proof.
  intros [Hd|Hv].
  - rewrite Hd. reflexivity.
  - apply andb_false_iff. right.
    destruct (includes CASHBACK_VENDERS (JStr (toUpperCase (vender t)))) eqn:E;
      [|reflexivity].
    exfalso. apply Hv. apply cashback_vender_iff. exact E.
Qed.

(** A turn of the loop on a [plain] transaction stores its completion. *)
Lemma settle_plain (cfg : Config) (t : Transaction) (bal : Balances)
  (w : World) :
  reliable w -> plain t ->
  exists w',
    settle cfg t bal w = (Return (add_currentBalance bal (amount t)), w')
    /\ transactions w' = set_status_by_id (_id t) Completed (transactions w).
Proof.
  intros R Hp. rewrite settle_unfold, (plain_test t Hp).
  destruct (Transaction_updateOne_returns (_id t) Completed w R)
    as (w' & E & Htx).
  exists w'. split; [|exact Htx].
  unfold bind at 1.
  rewrite (try_catch_Return _ _ w w' tt); [reflexivity|].
  unfold bind, ret. exact E.
Qed.

Lemma snapshots_all_pending (w : World) (l : list Transaction) :
  snapshots w l -> all_pending w l.
Proof. intros S t Ht. destruct (S t Ht). eauto. Qed.

Lemma snapshots_untouched (w w' : World) (ids : list ObjectId)
  (l : list Transaction) :
  untouched_outside ids w w' ->
  (forall t, In t l -> ~ In (_id t) ids) ->
  snapshots w l -> snapshots w' l.
Proof.
  intros U Hdisj S t Ht. destruct (S t Ht) as [Hs Hp].
  split; [|exact Hp]. apply U; [exact Hs|]. apply Hdisj. exact Ht.
Qed.

Lemma snapshots_same (w w' : World) (l : list Transaction) :
  transactions w' = transactions w -> snapshots w l -> snapshots w' l.
Proof.
  intros E S t Ht. destruct (S t Ht) as [Hs Hp]. unfold stored in *.
  rewrite E. auto.
Qed.

Lemma settle_all_completes (cfg : Config) (l : list Transaction) :
  forall (bal : Balances) (w w' : World) (r : Outcome Balances),
  reliable w -> fresh_ids w ->
  NoDup (map _id l) -> snapshots w l ->
  settle_all cfg l bal w = (r, w') ->
  forall t, In t l -> plain t ->
    stored w' (_id t) = Some (set_status t Completed).
Proof.
  induction l as [|t0 rest IH]; intros bal w w' r R F ND S E t Ht Hp;
    [destruct Ht|].
  simpl in E. inversion ND as [|? ? Hnot ND']; subst.
  apply bind_inv in E as [(b1 & w1 & E1 & E)|(e & E1 & _)].
  2:{ apply settle_pointwise in E1 as (? & _); [discriminate|exact F]. }
  pose proof E1 as E1'.
  apply settle_pointwise in E1' as (_ & F1 & Fr1 & _ & U1 & _); [|exact F].
  assert (R1 : reliable w1) by (apply (reliable_frame w w1); auto).
  assert (S1 : snapshots w1 rest).
  { apply (snapshots_untouched w w1 [_id t0] rest U1).
    - intros x Hx [Ex|[]]. apply Hnot. rewrite Ex. apply in_map. exact Hx.
    - intros x Hx. apply S. right. exact Hx. }
  destruct Ht as [<-|Ht].
  - destruct (settle_plain cfg t0 bal w R Hp) as (w1' & E1'' & Htx).
    rewrite E1 in E1''. injection E1'' as _ <-.
    assert (H1 : stored w1 (_id t0) = Some (set_status t0 Completed)).
    { unfold stored. rewrite Htx, find_set_status_by_id, Nat.eqb_refl.
      destruct (S t0 (or_introl eq_refl)) as [Hs _]. unfold stored in Hs.
      rewrite Hs. reflexivity. }
    assert (U : untouched_outside (map _id rest) w1 w').
    { apply settle_all_amends in E as (_ & _ & _ & _ & _ & U);
        auto using snapshots_all_pending. }
    apply U; [exact H1|exact Hnot].
  - exact (IH _ _ _ _ R1 F1 ND' S1 E t Ht Hp).
Qed.

(** ** The groups of the aggregation *)

Lemma push_group_well_grouped (t : Transaction)
  (gs : list (ObjectId * list Transaction)) :
  well_grouped gs -> well_grouped (push_group t gs).
Proof.
  induction gs as [|[k ts] r IH]; intros W; simpl.
  - intros g [<-|[]]. simpl. split; [discriminate|].
    intros x [<-|[]]. reflexivity.
  - destruct (Nat.eqb k (_debitCard t)) eqn:E.
    + apply Nat.eqb_eq in E. intros g [<-|Hg]; simpl.
      * split; [destruct ts; discriminate|].
        intros x Hx. apply in_app_or in Hx as [Hx|[<-|[]]]; [|auto].
        apply (W (k, ts)); [left; reflexivity|exact Hx].
      * apply W. right. exact Hg.
    + intros g [<-|Hg].
      * apply W. left. reflexivity.
      * apply IH; [|exact Hg]. intros g' Hg'. apply W. right. exact Hg'.
Qed.

Lemma pending_pipeline_well_grouped (l : list Transaction) :
  well_grouped (pending_pipeline l).
Proof.
  unfold pending_pipeline, group_by_card.
  generalize (sort_by_date (filter is_pending l)). intros l'.
  assert (G : forall gs, well_grouped gs ->
            well_grouped (fold_left (fun gs t => push_group t gs) l' gs)).
  { induction l' as [|t r IH]; intros gs W; simpl; [exact W|].
    apply IH. apply push_group_well_grouped. exact W. }
  apply G. intros g [].
Qed.

Lemma pending_pipeline_stored (w : World) :
  unique_ids w ->
  snapshots w (List.concat (map snd (pending_pipeline (transactions w)))).
Proof.
  intros U t Ht.
  apply (Permutation_in _ (pending_pipeline_perm (transactions w))) in Ht.
  apply filter_In in Ht as [Hin Hst].
  split; [apply find_transaction_In; assumption|].
  apply TxStatus_eqb_eq. exact Hst.
Qed.

(** ** The loop over the groups *)

Lemma findOne_id_returns (id : ObjectId) (w : World) :
  reliable w ->
  exists w',
    DebitCard_findOne_id id w = (Return (find_card_by_id id (debitCards w)), w')
    /\ same_data w w'.
Proof.
  intros R. destruct (DebitCard_findOne_id id w) as [r w'] eqn:E.
  apply findOne_id_inv in E as (S & _ & [(Hf & _)|(_ & ->)]).
  - rewrite R in Hf. discriminate.
  - eauto.
Qed.

Lemma find_replace_card_some (c : DebitCard) (k : ObjectId)
  (l : list DebitCard) (c0 : DebitCard) :
  find_card_by_id k l = Some c0 ->
  exists c1, find_card_by_id k (replace_card c l) = Some c1.
Proof.
  induction l as [|x r IH]; simpl; [discriminate|].
  destruct (Nat.eqb (card_id x) (card_id c)) eqn:Ec; simpl.
  - destruct (Nat.eqb (card_id x) k) eqn:Ek.
    + intros _. apply Nat.eqb_eq in Ec, Ek.
      assert (Ek' : Nat.eqb (card_id c) k = true)
        by (apply Nat.eqb_eq; congruence).
      rewrite Ek'. eauto.
    + intros H. destruct (Nat.eqb (card_id c) k); eauto.
  - destruct (Nat.eqb (card_id x) k); [eauto|]. exact IH.
Qed.

Lemma validate_group_completes (cfg : Config)
  (g : ObjectId * list Transaction) (w : World) (card : DebitCard) :
  reliable w -> fresh_ids w ->
  NoDup (map _id (snd g)) -> snapshots w (snd g) ->
  snd g <> [] -> (forall t, In t (snd g) -> _debitCard t = fst g) ->
  find_card_by_id (fst g) (debitCards w) = Some card ->
  exists w',
    validate_group cfg g w = (Return tt, w')
    /\ (forall t, In t (snd g) -> plain t ->
          stored w' (_id t) = Some (set_status t Completed))
    /\ (forall k c0, find_card_by_id k (debitCards w) = Some c0 ->
          exists c1, find_card_by_id k (debitCards w') = Some c1).
Proof.
  intros R F ND S Hne Hkey Hcard.
  destruct (findOne_id_returns (fst g) w R) as (w1 & E1 & S1).
  rewrite Hcard in E1.
  assert (R1 : reliable w1) by (apply (reliable_frame w w1); auto).
  assert (Hcid : card_id card = fst g).
  { apply find_card_by_id_id in Hcard as [H _]. exact H. }
  destruct (getBalances_returns card w1 (R1 _ _)) as (b & w2 & E2).
  { destruct (snd g) as [|t0 rest] eqn:Eg; [contradiction|].
    destruct (S t0 (or_introl eq_refl)) as [Hs _].
    apply find_transaction_In_id in Hs as [Hin _].
    destruct S1 as (Ht & _). rewrite Ht. intros Hnil.
    assert (Hf : In t0 (filter (fun t => Nat.eqb (_debitCard t) (card_id card))
                          (transactions w))).
    { apply filter_In. split; [exact Hin|]. apply Nat.eqb_eq.
      rewrite Hcid. apply Hkey. left. reflexivity. }
    rewrite Hnil in Hf. destruct Hf. }
  pose proof E2 as E2'. apply getBalances_inv in E2' as (S2 & _).
  pose proof (same_data_trans _ _ _ S1 S2) as S12.
  pose proof S12 as (Ht12 & Hc12 & Hn12 & _).
  assert (R2 : reliable w2) by (apply (reliable_frame w w2); auto).
  assert (F2 : fresh_ids w2) by (apply (fresh_ids_same w w2 Ht12); [lia|exact F]).
  assert (Sn2 : snapshots w2 (snd g)) by (apply (snapshots_same w w2); auto).
  destruct (settle_all cfg (snd g) b w2) as [r3 w3] eqn:E3.
  pose proof E3 as E3'.
  apply settle_all_amends in E3' as ((b3 & ->) & F3 & _ & Hc3 & _ & _);
    auto using snapshots_all_pending.
  pose proof (settle_all_completes cfg (snd g) b w2 w3 _ R2 F2 ND Sn2 E3)
    as Hdone.
  destruct (charge_overdraft b3 card w3) as [r4 w4] eqn:E4.
  pose proof E4 as E4'.
  apply charge_overdraft_inv in E4' as (-> & _ & _ & U4 & _); [|exact F3].
  pose proof E4 as E4''.
  apply charge_overdraft_appends in E4'' as (_ & _ & _ & Hc4); [|exact F3].
  exists w4. split; [|split].
  - unfold validate_group.
    rewrite (bind_Return _ _ _ _ _ E1).
    assert (Et : try_catch (b <- getBalances card ;; ret (Some b))
                   (fun err =>
                      logger_error
                        "Error getting balances for debit card during validation" ;;
                      ret None) w1 = (Return (Some b), w2)).
    { apply try_catch_Return. rewrite (bind_Return _ _ _ _ _ E2). reflexivity. }
    rewrite (bind_Return _ _ _ _ _ Et).
    rewrite (bind_Return _ _ _ _ _ E3). exact E4.
  - intros t Ht Hp. apply U4; [|intros []]. exact (Hdone t Ht Hp).
  - intros k c0 Hk. rewrite <- Hc12, <- Hc3 in Hk.
    destruct Hc4 as [->| ->]; [eauto|].
    exact (find_replace_card_some _ k _ c0 Hk).
Qed.

Lemma settled_of_completed (t t' : Transaction) :
  status t = Completed -> settled t t' -> t' = t.
Proof. intros Hs [->|[Hp _]]; [reflexivity|congruence]. Qed.

Lemma validate_groups_complete (cfg : Config)
  (gs : list (ObjectId * list Transaction)) :
  forall w : World,
  reliable w -> fresh_ids w ->
  NoDup (map _id (List.concat (map snd gs))) ->
  snapshots w (List.concat (map snd gs)) ->
  well_grouped gs ->
  (forall g, In g gs ->
     exists card, find_card_by_id (fst g) (debitCards w) = Some card) ->
  exists w',
    validate_groups cfg gs w = (Return tt, w')
    /\ forall t, In t (List.concat (map snd gs)) -> plain t ->
         stored w' (_id t) = Some (set_status t Completed).
Proof.
  induction gs as [|g rest IH]; intros w R F ND S W Hcards.
  - exists w. split; [reflexivity|]. intros t [].
  - simpl in ND, S. rewrite map_app in ND.
    assert (NDg : NoDup (map _id (snd g))) by (eapply NoDup_app_remove_r; eauto).
    assert (NDr : NoDup (map _id (List.concat (map snd rest))))
      by (eapply NoDup_app_remove_l; eauto).
    assert (Sg : snapshots w (snd g)).
    { intros t Ht. apply S. apply in_or_app. auto. }
    destruct (W g (or_introl eq_refl)) as [Hne Hkey].
    destruct (Hcards g (or_introl eq_refl)) as (card & Hcard).
    destruct (validate_group_completes cfg g w card R F NDg Sg Hne Hkey Hcard)
      as (w1 & E1 & Hdone & Hkeep).
    pose proof E1 as E1'.
    apply validate_group_amends in E1' as (F1 & Fr1 & _ & U1);
      auto using snapshots_all_pending.
    assert (R1 : reliable w1) by (apply (reliable_frame w w1); auto).
    assert (Sr : snapshots w1 (List.concat (map snd rest))).
    { apply (snapshots_untouched w w1 (map _id (snd g)) _ U1).
      - intros t Ht Hin.
        apply (NoDup_app_disjoint _ _ ND (_id t) Hin). apply in_map. exact Ht.
      - intros t Ht. apply S. apply in_or_app. auto. }
    destruct (IH w1 R1 F1 NDr Sr) as (w' & E & Hrest).
    { intros g' Hg'. apply W. right. exact Hg'. }
    { intros g' Hg'. destruct (Hcards g' (or_intror Hg')) as (c0 & Hc0).
      exact (Hkeep _ _ Hc0). }
    exists w'. split.
    + simpl. rewrite (bind_Return _ _ _ _ _ E1). exact E.
    + intros t Ht Hp. simpl in Ht. apply in_app_or in Ht as [Ht|Ht].
      * pose proof (Hdone t Ht Hp) as H1.
        apply validate_groups_amends in E as (_ & _ & A);
          auto using snapshots_all_pending.
        destruct (A _ _ H1) as (t' & Ht' & Hs).
        apply settled_of_completed in Hs; [|reflexivity]. congruence.
      * exact (Hrest t Ht Hp).
Qed.

Lemma count_pending_returns (w : World) :
  reliable w ->
  exists w',
    count_pending w
    = (Return (List.length (filter is_pending (transactions w))), w')
    /\ same_data w w'.
Proof.
  intros R. unfold count_pending.
  destruct (storage_ok OpCount w (R _ _)) as (w' & E & S & _).
  exists w'. rewrite (bind_Return _ _ _ _ _ E).
  unfold bind, get_transactions, ret. pose proof S as (-> & _).
  split; [reflexivity|exact S].
Qed.

Lemma aggregate_pending_returns (w : World) :
  reliable w ->
  exists w',
    aggregate_pending w = (Return (pending_pipeline (transactions w)), w')
    /\ same_data w w'.
Proof.
  intros R. unfold aggregate_pending.
  destruct (storage_ok OpAggregate w (R _ _)) as (w' & E & S & _).
  exists w'. rewrite (bind_Return _ _ _ _ _ E).
  unfold bind, get_transactions, ret. pose proof S as (-> & _).
  split; [reflexivity|exact S].
Qed.

(** X11.  With a database that answers, and when the card of every pending
    transaction exists, a run of [validatePending] returns, and it has
    completed every pending debit and every pending withdrawal at a vendor
    that earns no cashback: each is stored with the status completed and is
    otherwise as it was. *)
Theorem validatePending_completes_plain_transactions (cfg : Config)
  (w : World)
  (R : reliable w) (U : unique_ids w) (F : fresh_ids w)
  (Hcards : forall t, In t (transactions w) -> status t = Pending ->
              exists card,
                find_card_by_id (_debitCard t) (debitCards w) = Some card) :
  exists w',
    validatePending cfg w = (Return tt, w')
    /\ forall i t, stored w i = Some t -> status t = Pending -> plain t ->
         stored w' i = Some (set_status t Completed).
Proof.
  destruct (count_pending_returns w R) as (w1 & E1 & S1).
  assert (R1 : reliable w1) by (apply (reliable_frame w w1); auto).
  assert (Hin : forall i t, stored w i = Some t -> status t = Pending ->
            In t (filter is_pending (transactions w)) /\ _id t = i).
  { intros i t Hs Hp. apply find_transaction_In_id in Hs as [Hi Hid].
    split; [|exact Hid]. apply filter_In. split; [exact Hi|].
    apply TxStatus_eqb_eq. exact Hp. }
  destruct (Nat.eqb (List.length (filter is_pending (transactions w))) 0) eqn:E0.
  - exists w1. split.
    + unfold validatePending. apply try_catch_Return.
      rewrite (bind_Return _ _ _ _ _ E1), E0. reflexivity.
    + intros i t Hs Hp _. destruct (Hin i t Hs Hp) as [Hf _].
      apply Nat.eqb_eq in E0.
      destruct (filter is_pending (transactions w)); [destruct Hf|discriminate].
  - destruct (aggregate_pending_returns w1 R1) as (w2 & E2 & S2).
    pose proof (same_data_trans _ _ _ S1 S2) as S12.
    pose proof S12 as (Ht12 & Hc12 & Hn12 & _).
    destruct S1 as (Ht1 & _). rewrite Ht1 in E2.
    set (gs := pending_pipeline (transactions w)) in *.
    assert (R2 : reliable w2) by (apply (reliable_frame w w2); auto).
    assert (F2 : fresh_ids w2)
      by (apply (fresh_ids_same w w2 Ht12); [lia|exact F]).
    destruct (pending_pipeline_snapshots w U) as (ND & _).
    pose proof (pending_pipeline_stored w U) as Sn.
    fold gs in ND, Sn.
    destruct (validate_groups_complete cfg gs w2 R2 F2 ND) as (w3 & E3 & Hdone).
    { apply (snapshots_same w w2); auto. }
    { apply pending_pipeline_well_grouped. }
    { intros g Hg.
      destruct (pending_pipeline_well_grouped (transactions w) g Hg)
        as [Hne Hkey].
      destruct (snd g) as [|t0 rest] eqn:Eg; [contradiction|].
      assert (Ht0 : In t0 (List.concat (map snd gs))).
      { apply in_concat. exists (snd g). split; [apply in_map; exact Hg|].
        rewrite Eg. left. reflexivity. }
      destruct (Sn t0 Ht0) as [Hs Hp].
      apply find_transaction_In_id in Hs as [Hi _].
      destruct (Hcards t0 Hi Hp) as (card & Hcard).
      exists card. rewrite Hc12, <- (Hkey t0 (or_introl eq_refl)). exact Hcard. }
    exists w3. split.
    + unfold validatePending. apply try_catch_Return.
      rewrite (bind_Return _ _ _ _ _ E1), E0.
      rewrite (bind_Return _ _ _ _ _ E2). exact E3.
    + intros i t Hs Hp Hpl. destruct (Hin i t Hs Hp) as [Hf <-].
      apply Hdone; [|exact Hpl].
      apply (Permutation_in _
               (Permutation_sym (pending_pipeline_perm (transactions w)))).
      exact Hf.
Qed.

Lemma validatePending_completes_plain_transactions_witness :
  exists w',
    validatePending default_config shopping_world = (Return tt, w')
    /\ forall i t, stored shopping_world i = Some t -> status t = Pending ->
         plain t ->
         stored w' i = Some (set_status t Completed).
Proof.
  apply (validatePending_completes_plain_transactions default_config
           shopping_world (reliable_world_of _) unique_ids_shopping_world
           fresh_ids_shopping_world).
  intros t Hin _. simpl in Hin.
  repeat (destruct Hin as [<-|Hin]; [exists card_a; reflexivity|]).
  destruct Hin.
Defined.

(** * The validators *)

(** ** The matcher computes the language of the pattern *)

Lemma Matches_Seq_inv (r s : Regex) (z : string) :
  Matches (Seq r s) z <-> exists x y, z = x ++ y /\ Matches r x /\ Matches s y.
Proof.
  split.
  - intros H. inversion H; subst. eauto.
  - intros (x & y & -> & Hx & Hy). constructor; assumption.
Qed.

Lemma Matches_Alt_inv (r s : Regex) (z : string) :
  Matches (Alt r s) z <-> Matches r z \/ Matches s z.
Proof.
  split.
  - intros H. inversion H; subst; auto.
  - intros [H|H]; [apply MAltL|apply MAltR]; exact H.
Qed.

Lemma Matches_Class_inv (c : ascii -> bool) (z : string) :
  Matches (Class c) z <-> exists a, z = String a "" /\ c a = true.
Proof.
  split.
  - intros H. inversion H; subst. eauto.
  - intros (a & -> & Ha). constructor. exact Ha.
Qed.

Lemma append_nil_inv (x y : string) : x ++ y = "" -> x = "" /\ y = "".
Proof. destruct x; simpl; [auto|discriminate]. Qed.

Lemma nullable_spec (r : Regex) : nullable r = true <-> Matches r "".
Proof.
  induction r as [| |c|r IHr s IHs|r IHr s IHs|r IHr]; simpl.
  - split; [discriminate|]. intros H. inversion H.
  - split; [constructor|reflexivity].
  - split; [discriminate|]. intros H.
    apply Matches_Class_inv in H as (a & ? & _). discriminate.
  - rewrite andb_true_iff, IHr, IHs, Matches_Seq_inv. split.
    + intros [Hr Hs]. exists "", "". auto.
    + intros (x & y & E & Hx & Hy). symmetry in E.
      apply append_nil_inv in E as [-> ->]. auto.
  - rewrite orb_true_iff, IHr, IHs, Matches_Alt_inv. reflexivity.
  - split; [constructor|reflexivity].
Qed.

Lemma Matches_Star_cons (r : Regex) (a : ascii) (s : string) :
  Matches (Star r) (String a s) ->
  exists x y, s = x ++ y /\ Matches r (String a x) /\ Matches (Star r) y.
Proof.
  intros H. remember (Star r) as r0 eqn:Er. remember (String a s) as s0 eqn:Es.
  revert a s Es.
  induction H as [| | | | | |r' x y Hx _ Hy IHy]; intros a1 s1 Es;
    try discriminate.
  injection Er as ->. destruct x as [|b x'].
  - simpl in Es. exact (IHy eq_refl a1 s1 Es).
  - simpl in Es. injection Es as -> <-. eauto.
Qed.

Lemma deriv_spec (r : Regex) :
  forall (a : ascii) (s : string),
    Matches (deriv a r) s <-> Matches r (String a s).
Proof.
  induction r as [| |c|r IHr s0 IHs|r IHr s0 IHs|r IHr]; intros a s; simpl.
  - split; intros H; inversion H.
  - split; intros H; inversion H.
  - rewrite Matches_Class_inv. destruct (c a) eqn:E; split; intros H.
    + inversion H; subst. eauto.
    + destruct H as (b & Eb & _). injection Eb as _ ->. constructor.
    + inversion H.
    + destruct H as (b & Eb & Hb). injection Eb as -> _. congruence.
  - assert (Hseq : Matches (Seq r s0) (String a s)
                   <-> Matches (Seq (deriv a r) s0) s
                       \/ (Matches r "" /\ Matches s0 (String a s))).
    { rewrite !Matches_Seq_inv. split.
      - intros (x & y & E & Hx & Hy). destruct x as [|b x'].
        + simpl in E. subst y. auto.
        + simpl in E. injection E as <- ->. left. exists x', y.
          split; [reflexivity|]. split; [apply IHr; exact Hx|exact Hy].
      - intros [(x & y & -> & Hx & Hy)|[Hr Hs]].
        + exists (String a x), y. split; [reflexivity|].
          split; [apply IHr; exact Hx|exact Hy].
        + exists "", (String a s). auto. }
    rewrite Hseq. destruct (nullable r) eqn:En.
    + rewrite Matches_Alt_inv, IHs. apply nullable_spec in En. tauto.
    + assert (Hn : ~ Matches r "").
      { intros H. apply nullable_spec in H. congruence. }
      tauto.
  - rewrite !Matches_Alt_inv, IHr, IHs. reflexivity.
  - rewrite Matches_Seq_inv. split.
    + intros (x & y & -> & Hx & Hy). apply IHr in Hx.
      exact (MStarS r (String a x) y Hx Hy).
    + intros H. apply Matches_Star_cons in H as (x & y & -> & Hx & Hy).
      exists x, y. split; [reflexivity|]. split; [apply IHr; exact Hx|exact Hy].
Qed.

Lemma test_spec (s : string) :
  forall r : Regex, test r s = true <-> Matches r s.
Proof.
  induction s as [|a s IH]; intros r; simpl.
  - apply nullable_spec.
  - rewrite IH. apply deriv_spec.
Qed.

(** ** The languages of the building blocks *)

Lemma Matches_Chr_inv (a : ascii) (z : string) :
  Matches (Chr a) z <-> z = String a "".
Proof.
  unfold Chr. rewrite Matches_Class_inv. split.
  - intros (b & -> & Hb). apply Ascii.eqb_eq in Hb. subst. reflexivity.
  - intros ->. exists a. split; [reflexivity|apply Ascii.eqb_refl].
Qed.

Lemma Matches_Star_Class (c : ascii -> bool) (z : string) :
  Matches (Star (Class c)) z <-> all_chars c z = true.
Proof.
  split.
  - intros H. remember (Star (Class c)) as r eqn:Er.
    induction H as [| | | | | |r' x y Hx _ Hy IHy]; try discriminate.
    + reflexivity.
    + injection Er as ->. inversion Hx; subst. simpl.
      rewrite H0. exact (IHy eq_refl).
  - induction z as [|a z IH]; simpl; intros H.
    + constructor.
    + apply andb_true_iff in H as [Ha Hz].
      exact (MStarS (Class c) (String a "") z (MClass c a Ha) (IH Hz)).
Qed.

Lemma Matches_Times_Class (c : ascii -> bool) (n : nat) :
  forall z : string,
    Matches (Times n (Class c)) z
    <-> String.length z = n /\ all_chars c z = true.
Proof.
  induction n as [|n IH]; intros z; simpl.
  - split.
    + intros H. inversion H; subst. auto.
    + intros [H _]. destruct z; [constructor|discriminate].
  - rewrite Matches_Seq_inv. split.
    + intros (x & y & -> & Hx & Hy). apply Matches_Class_inv in Hx as (a & -> & Ha).
      apply IH in Hy as [Hl Hy]. simpl. rewrite Hl, Ha, Hy. auto.
    + intros [Hl Hz]. destruct z as [|a z]; [discriminate|].
      simpl in Hl, Hz. apply andb_true_iff in Hz as [Ha Hz].
      exists (String a ""), z. split; [reflexivity|].
      split; [constructor; exact Ha|]. apply IH. split; [lia|exact Hz].
Qed.

Lemma all_chars_app (c : ascii -> bool) (x y : string) :
  all_chars c (x ++ y) = all_chars c x && all_chars c y.
Proof.
  induction x as [|a x IH]; simpl; [reflexivity|].
  rewrite IH, andb_assoc. reflexivity.
Qed.

Lemma string_append_assoc (x y z : string) : (x ++ y) ++ z = x ++ (y ++ z).
Proof. induction x as [|a x IH]; simpl; [reflexivity|]. rewrite IH. reflexivity. Qed.

Lemma string_length_app (x y : string) :
  String.length (x ++ y) = (String.length x + String.length y)%nat.
Proof. induction x as [|a x IH]; simpl; [reflexivity|]. rewrite IH. reflexivity. Qed.

Lemma Matches_Plus_Class (c : ascii -> bool) (z : string) :
  Matches (Plus (Class c)) z <-> z <> "" /\ all_chars c z = true.
Proof.
  unfold Plus. rewrite Matches_Seq_inv. split.
  - intros (x & y & -> & Hx & Hy). apply Matches_Class_inv in Hx as (a & -> & Ha).
    apply Matches_Star_Class in Hy. simpl. rewrite Ha, Hy.
    split; [discriminate|reflexivity].
  - intros [Hne Hz]. destruct z as [|a z]; [contradiction|].
    simpl in Hz. apply andb_true_iff in Hz as [Ha Hz].
    exists (String a ""), z. split; [reflexivity|].
    split; [constructor; exact Ha|]. apply Matches_Star_Class. exact Hz.
Qed.

Lemma Matches_AtLeast_Class (c : ascii -> bool) (n : nat) (z : string) :
  Matches (AtLeast n (Class c)) z
  <-> (n <= String.length z)%nat /\ all_chars c z = true.
Proof.
  unfold AtLeast. rewrite Matches_Seq_inv. split.
  - intros (x & y & -> & Hx & Hy). apply Matches_Times_Class in Hx as [Hl Hx].
    apply Matches_Star_Class in Hy.
    rewrite string_length_app, all_chars_app, Hx, Hy. split; [lia|reflexivity].
  - revert z. induction n as [|n IH]; intros z [Hl Hz].
    + exists "", z. split; [reflexivity|]. split; [constructor|].
      apply Matches_Star_Class. exact Hz.
    + destruct z as [|a z]; [simpl in Hl; lia|]. simpl in Hl, Hz.
      apply andb_true_iff in Hz as [Ha Hz].
      destruct (IH z) as (x & y & -> & Hx & Hy); [split; [lia|exact Hz]|].
      exists (String a x), y. split; [reflexivity|]. split; [|exact Hy].
      simpl. exact (MSeq _ _ (String a "") x (MClass c a Ha) Hx).
Qed.

(** ** Phone numbers *)

(** X12.  [isValidPhoneNumber] accepts exactly the strings made of three
    digits, a dash, three digits, a dash and four digits. *)
Theorem isValidPhoneNumber_spec (phoneNumber : string) :
  isValidPhoneNumber phoneNumber = true
  <-> exists a b c,
        phoneNumber = a ++ "-" ++ b ++ "-" ++ c
        /\ String.length a = 3%nat /\ all_chars is_digit a = true
        /\ String.length b = 3%nat /\ all_chars is_digit b = true
        /\ String.length c = 4%nat /\ all_chars is_digit c = true.
Proof.
  unfold isValidPhoneNumber, phoneRegex. rewrite test_spec. split.
  - intros H.
    apply Matches_Seq_inv in H as (a & z1 & -> & Ha & H).
    apply Matches_Seq_inv in H as (d1 & z2 & -> & Hd1 & H).
    apply Matches_Seq_inv in H as (b & z3 & -> & Hb & H).
    apply Matches_Seq_inv in H as (d2 & c & -> & Hd2 & Hc).
    apply Matches_Chr_inv in Hd1, Hd2. subst d1 d2.
    apply Matches_Times_Class in Ha as [? ?], Hb as [? ?], Hc as [? ?].
    exists a, b, c. auto 10.
  - intros (a & b & c & -> & La & Ha & Lb & Hb & Lc & Hc).
    apply Matches_Seq_inv. exists a, ("-" ++ b ++ "-" ++ c).
    split; [reflexivity|]. split; [apply Matches_Times_Class; auto|].
    apply Matches_Seq_inv. exists "-", (b ++ "-" ++ c).
    split; [reflexivity|]. split; [apply Matches_Chr_inv; reflexivity|].
    apply Matches_Seq_inv. exists b, ("-" ++ c).
    split; [reflexivity|]. split; [apply Matches_Times_Class; auto|].
    apply Matches_Seq_inv. exists "-", c.
    split; [reflexivity|]. split; [apply Matches_Chr_inv; reflexivity|].
    apply Matches_Times_Class; auto.
Qed.

Example phone_numbers :
  isValidPhoneNumber "555-867-5309" = true
  /\ isValidPhoneNumber "5558675309" = false
  /\ isValidPhoneNumber "555-867-530" = false
  /\ isValidPhoneNumber "555-867-5309 " = false
  /\ isValidPhoneNumber "+1-555-867-5309" = false.
Proof. repeat split. Qed.

(** ** E-mail addresses *)

Lemma isValidEmail_shape (email : string) :
  isValidEmail email = true
  <-> exists loc dom tld,
        email = loc ++ "@" ++ dom ++ "." ++ tld
        /\ loc <> "" /\ all_chars is_local_char loc = true
        /\ dom <> "" /\ all_chars is_domain_char dom = true
        /\ (2 <= String.length tld)%nat /\ all_chars is_letter tld = true.
Proof.
  unfold isValidEmail, emailRegex. rewrite test_spec. split.
  - intros H.
    apply Matches_Seq_inv in H as (loc & z1 & -> & Hl & H).
    apply Matches_Seq_inv in H as (at_ & z2 & -> & Hat & H).
    apply Matches_Seq_inv in H as (dom & z3 & -> & Hd & H).
    apply Matches_Seq_inv in H as (dot & tld & -> & Hdot & Ht).
    apply Matches_Chr_inv in Hat, Hdot. subst at_ dot.
    apply Matches_Plus_Class in Hl as [? ?], Hd as [? ?].
    apply Matches_AtLeast_Class in Ht as [? ?].
    exists loc, dom, tld. auto 10.
  - intros (loc & dom & tld & -> & Nl & Hl & Nd & Hd & Lt & Ht).
    apply Matches_Seq_inv. exists loc, ("@" ++ dom ++ "." ++ tld).
    split; [reflexivity|]. split; [apply Matches_Plus_Class; auto|].
    apply Matches_Seq_inv. exists "@", (dom ++ "." ++ tld).
    split; [reflexivity|]. split; [apply Matches_Chr_inv; reflexivity|].
    apply Matches_Seq_inv. exists dom, ("." ++ tld).
    split; [reflexivity|]. split; [apply Matches_Plus_Class; auto|].
    apply Matches_Seq_inv. exists ".", tld.
    split; [reflexivity|]. split; [apply Matches_Chr_inv; reflexivity|].
    apply Matches_AtLeast_Class; auto.
Qed.

(** Occurrences of a character in a concatenation. *)
Lemma count_char_app (a : ascii) (x y : string) :
  List.length (filter (Ascii.eqb a) (list_ascii_of_string (x ++ y)))
  = (List.length (filter (Ascii.eqb a) (list_ascii_of_string x))
     + List.length (filter (Ascii.eqb a) (list_ascii_of_string y)))%nat.
Proof.
  induction x as [|b x IH]; simpl; [reflexivity|].
  destruct (Ascii.eqb a b); simpl; rewrite IH; reflexivity.
Qed.

Lemma count_char_outside (a : ascii) (c : ascii -> bool) (x : string) :
  c a = false -> all_chars c x = true ->
  List.length (filter (Ascii.eqb a) (list_ascii_of_string x)) = 0%nat.
Proof.
  intros Ha. induction x as [|b x IH]; simpl; [reflexivity|].
  intros H. apply andb_true_iff in H as [Hb Hx].
  destruct (Ascii.eqb a b) eqn:E.
  - apply Ascii.eqb_eq in E. subst b. congruence.
  - exact (IH Hx).
Qed.

(** X13.  An address that [isValidEmail] accepts has exactly one at sign,
    with something before it; it has no blank; and it ends with a dot
    followed by at least two letters. *)
Theorem isValidEmail_accepts_only (email : string)
  (H : isValidEmail email = true) :
  List.length (filter (Ascii.eqb "@") (list_ascii_of_string email)) = 1%nat
  /\ List.length (filter (Ascii.eqb " ") (list_ascii_of_string email)) = 0%nat
  /\ (exists a rest, email = String a rest /\ a <> "@"%char)
  /\ exists front tld,
       email = front ++ "." ++ tld
       /\ (2 <= String.length tld)%nat /\ all_chars is_letter tld = true.
Proof.
  apply isValidEmail_shape in H
    as (loc & dom & tld & -> & Nl & Hl & Nd & Hd & Lt & Ht).
  split; [|split; [|split]].
  - rewrite !count_char_app.
    rewrite (count_char_outside "@" is_local_char loc eq_refl Hl).
    rewrite (count_char_outside "@" is_domain_char dom eq_refl Hd).
    rewrite (count_char_outside "@" is_letter tld eq_refl Ht).
    reflexivity.
  - rewrite !count_char_app.
    rewrite (count_char_outside " " is_local_char loc eq_refl Hl).
    rewrite (count_char_outside " " is_domain_char dom eq_refl Hd).
    rewrite (count_char_outside " " is_letter tld eq_refl Ht).
    reflexivity.
  - destruct loc as [|a loc]; [contradiction|]. simpl.
    exists a, (loc ++ String "@" (dom ++ String "." tld)).
    split; [reflexivity|]. intros ->. simpl in Hl. discriminate.
  - exists (loc ++ "@" ++ dom), tld. split; [|auto].
    rewrite !string_append_assoc. reflexivity.
Qed.

Lemma isValidEmail_accepts_only_witness :
  List.length (filter (Ascii.eqb "@")
                 (list_ascii_of_string "ada.lovelace@one.example.com")) = 1%nat
  /\ List.length (filter (Ascii.eqb " ")
                    (list_ascii_of_string "ada.lovelace@one.example.com"))
     = 0%nat
  /\ (exists a rest,
        "ada.lovelace@one.example.com" = String a rest /\ a <> "@"%char)
  /\ exists front tld,
       "ada.lovelace@one.example.com" = front ++ "." ++ tld
       /\ (2 <= String.length tld)%nat /\ all_chars is_letter tld = true.
Proof.
  apply (isValidEmail_accepts_only "ada.lovelace@one.example.com").
  reflexivity.
Defined.

Example email_addresses :
  isValidEmail "ada@example.com" = true
  /\ isValidEmail "ada@example" = false
  /\ isValidEmail "ada@example.c" = false
  /\ isValidEmail "@example.com" = false
  /\ isValidEmail "ada@@example.com" = false
  /\ isValidEmail "ada lovelace@example.com" = false
  /\ isValidEmail "ada@example.c0m" = false.
Proof. repeat split. Qed.

(** X14.  [isValidEmail] accepts exactly the strings made of a non-empty
    local part of letters, digits and [._%+-], an at sign, a non-empty
    domain of letters, digits, dots and dashes, a dot, and at least two
    letters. *)
Theorem isValidEmail_spec (email : string) :
  isValidEmail email = true
  <-> exists loc dom tld,
        email = loc ++ "@" ++ dom ++ "." ++ tld
        /\ loc <> "" /\ all_chars is_local_char loc = true
        /\ dom <> "" /\ all_chars is_domain_char dom = true
        /\ (2 <= String.length tld)%nat /\ all_chars is_letter tld = true.
Proof. exact (isValidEmail_shape email). Qed.

(** * Account numbers *)

(** ** Reading the random bytes *)

Lemma read_bytes_bound (l : list Byte.byte) :
  forall acc : N,
    (fold_left (fun acc b => acc * 256 + Byte.to_N b) l acc
     < (acc + 1) * 256 ^ N.of_nat (List.length l))%N.
Proof.
  induction l as [|b r IH]; intros acc; simpl List.length.
  - simpl. lia.
  - simpl fold_left. specialize (IH (acc * 256 + Byte.to_N b)%N).
    pose proof (Byte.to_N_bounded b) as Hb.
    rewrite Nnat.Nat2N.inj_succ, N.pow_succ_r'.
    eapply N.lt_le_trans; [exact IH|]. nia.
Qed.

Lemma readUIntBE_six (randomBytes : list Byte.byte) :
  List.length randomBytes = 6%nat ->
  exists n, readUIntBE randomBytes 0 6 = Some n /\ (n < 2 ^ 48)%N.
Proof.
  intros Hl. unfold readUIntBE. rewrite Hl.
  change ((1 <=? 6) && (6 <=? 6) && (0 + 6 <=? 6))%nat with true.
  change (skipn 0 randomBytes) with randomBytes.
  rewrite firstn_all2 by lia.
  eexists. split; [reflexivity|].
  pose proof (read_bytes_bound randomBytes 0%N) as H. rewrite Hl in H.
  exact H.
Qed.

(** ** Decimal writing *)

Lemma length_string_of_uint (d : Decimal.uint) :
  String.length (NilEmpty.string_of_uint d) = Decimal.nb_digits d.
Proof. induction d; simpl; congruence. Qed.

Lemma digits_string_of_uint (d : Decimal.uint) :
  all_chars is_digit (NilEmpty.string_of_uint d) = true.
Proof. induction d; simpl; auto. Qed.

Lemma of_lu_lower_bound (d : Decimal.uint) :
  DecimalFacts.nztail d = d -> d <> Decimal.Nil ->
  (10 ^ N.of_nat (Decimal.nb_digits d - 1) <= DecimalPos.Unsigned.of_lu d)%N.
Proof.
  assert (Hstep : forall (d' : Decimal.uint) (i : N),
            (d' <> Decimal.Nil ->
             10 ^ N.of_nat (Decimal.nb_digits d' - 1)
             <= DecimalPos.Unsigned.of_lu d')%N ->
            (d' = Decimal.Nil -> 1 <= i)%N ->
            (10 ^ N.of_nat (S (Decimal.nb_digits d') - 1)
             <= i + 10 * DecimalPos.Unsigned.of_lu d')%N).
  { intros d' i IH Hi. destruct d' as [|d'|d'|d'|d'|d'|d'|d'|d'|d'|d'];
      [simpl; specialize (Hi eq_refl); lia|..];
      (specialize (IH ltac:(discriminate));
       simpl Decimal.nb_digits in *;
       replace (S (S (Decimal.nb_digits d')) - 1)%nat
         with (S (S (Decimal.nb_digits d') - 1)) by lia;
       rewrite Nnat.Nat2N.inj_succ, N.pow_succ_r'; lia). }
  induction d as [|d IH|d IH|d IH|d IH|d IH|d IH|d IH|d IH|d IH|d IH];
    intros Hn Hne; [contradiction|..]; cbn [DecimalFacts.nztail] in Hn.
  - assert (H' : DecimalFacts.nztail d = d /\ d <> Decimal.Nil).
    { destruct (DecimalFacts.nztail d) eqn:E; try discriminate;
        injection Hn as Hd; rewrite <- Hd; split; auto; discriminate. }
    destruct H' as [Hd Hnil].
    change (DecimalPos.Unsigned.of_lu (Decimal.D0 d))
      with (10 * DecimalPos.Unsigned.of_lu d)%N.
    rewrite <- (N.add_0_l (10 * _)).
    apply (Hstep d 0%N); [intros _; exact (IH Hd Hnil)|contradiction].
  - injection Hn as Hn. apply (Hstep d 1%N); [exact (IH Hn)|lia].
  - injection Hn as Hn. apply (Hstep d 2%N); [exact (IH Hn)|lia].
  - injection Hn as Hn. apply (Hstep d 3%N); [exact (IH Hn)|lia].
  - injection Hn as Hn. apply (Hstep d 4%N); [exact (IH Hn)|lia].
  - injection Hn as Hn. apply (Hstep d 5%N); [exact (IH Hn)|lia].
  - injection Hn as Hn. apply (Hstep d 6%N); [exact (IH Hn)|lia].
  - injection Hn as Hn. apply (Hstep d 7%N); [exact (IH Hn)|lia].
  - injection Hn as Hn. apply (Hstep d 8%N); [exact (IH Hn)|lia].
  - injection Hn as Hn. apply (Hstep d 9%N); [exact (IH Hn)|lia].
Qed.

Lemma to_little_uint_normal (p : positive) :
  DecimalPos.Unsigned.of_lu (Pos.to_little_uint p) = N.pos p
  /\ DecimalFacts.nztail (Pos.to_little_uint p) = Pos.to_little_uint p
  /\ Pos.to_little_uint p <> Decimal.Nil.
Proof.
  assert (Hv : DecimalPos.Unsigned.of_lu (Pos.to_little_uint p) = N.pos p).
  { rewrite <- DecimalPos.Unsigned.of_lu_rev. apply DecimalPos.Unsigned.of_to. }
  split; [exact Hv|].
  pose proof (DecimalPos.Unsigned.to_of_lu (Pos.to_little_uint p)) as H.
  rewrite Hv in H. simpl DecimalPos.Unsigned.to_lu in H.
  unfold DecimalFacts.lnorm in H.
  destruct (DecimalFacts.nztail (Pos.to_little_uint p)) eqn:E;
    try (split; [congruence|rewrite H; discriminate]).
  exfalso. rewrite H in Hv. simpl in Hv. discriminate.
Qed.

(** A number below [10^k] is written with at most [k] digits. *)
Lemma nb_digits_to_uint (n : N) (k : nat) :
  (1 <= k)%nat -> (n < 10 ^ N.of_nat k)%N ->
  (Decimal.nb_digits (N.to_uint n) <= k)%nat.
Proof.
  intros Hk Hn. destruct n as [|p]; [simpl; lia|].
  simpl N.to_uint. unfold Pos.to_uint. rewrite DecimalFacts.nb_digits_rev.
  destruct (to_little_uint_normal p) as (Hv & Hnz & Hne).
  pose proof (of_lu_lower_bound _ Hnz Hne) as Hlow. rewrite Hv in Hlow.
  assert (Hlt : (10 ^ N.of_nat (Decimal.nb_digits (Pos.to_little_uint p) - 1)
                 < 10 ^ N.of_nat k)%N) by lia.
  apply N.pow_lt_mono_r_iff in Hlt; lia.
Qed.

Lemma length_Number_toString (n : N) :
  (n < 2 ^ 48)%N -> (String.length (Number_toString n) <= 15)%nat.
Proof.
  intros Hn. unfold Number_toString. rewrite length_string_of_uint.
  apply nb_digits_to_uint; [lia|].
  eapply N.lt_trans; [exact Hn|]. reflexivity.
Qed.

(** ** Padding and slicing *)

Lemma length_repeat_char (a : ascii) (n : nat) :
  String.length (repeat_char a n) = n.
Proof. induction n as [|n IH]; simpl; congruence. Qed.

Lemma all_chars_repeat_char (c : ascii -> bool) (a : ascii) (n : nat) :
  c a = true -> all_chars c (repeat_char a n) = true.
Proof. intros Ha. induction n as [|n IH]; simpl; [reflexivity|]. rewrite Ha. exact IH. Qed.

Lemma substring_whole (s : string) (n : nat) :
  (String.length s <= n)%nat -> substring 0 n s = s.
Proof.
  revert n. induction s as [|a s IH]; intros n Hn; simpl.
  - destruct n; reflexivity.
  - destruct n; [simpl in Hn; lia|]. simpl in Hn. rewrite IH by lia. reflexivity.
Qed.

Lemma substring_chars (c : ascii -> bool) (s : string) :
  all_chars c s = true ->
  forall i n, all_chars c (substring i n s) = true.
Proof.
  induction s as [|a s IH]; intros H i n; simpl.
  - destruct i, n; reflexivity.
  - simpl in H. apply andb_true_iff in H as [Ha Hs].
    destruct i; [destruct n; simpl; [reflexivity|]|apply IH; exact Hs].
    rewrite Ha. apply IH. exact Hs.
Qed.

Lemma length_substring (s : string) :
  forall i n, (i + n <= String.length s)%nat ->
    String.length (substring i n s) = n.
Proof.
  induction s as [|a s IH]; intros i n H; simpl in *.
  - assert (i = 0%nat) by lia. assert (n = 0%nat) by lia. subst. reflexivity.
  - destruct i; [destruct n; simpl; [reflexivity|]|apply IH; lia].
    rewrite IH by lia. reflexivity.
Qed.

Lemma parse_padded (k : nat) (d : Decimal.uint) :
  parse_decimal (repeat_char "0" k ++ NilEmpty.string_of_uint d)
  = Some (N.of_uint d).
Proof.
  unfold parse_decimal. induction k as [|k IH]; simpl.
  - rewrite NilEmpty.usu. reflexivity.
  - destruct (NilEmpty.uint_of_string
                (repeat_char "0" k ++ NilEmpty.string_of_uint d)) as [u|];
      [|discriminate]. simpl in *. exact IH.
Qed.

(** ** The account number *)

Lemma account_number_of_draw (randomBytes : list Byte.byte)
  (Hsix : List.length randomBytes = 6%nat) :
  exists accountNumber randomNumber,
    generateAccountNumber randomBytes = Some accountNumber
    /\ readUIntBE randomBytes 0 6 = Some randomNumber
    /\ (randomNumber < 2 ^ 48)%N
    /\ String.length accountNumber = 16%nat
    /\ all_chars is_digit accountNumber = true
    /\ (exists rest, accountNumber = String "0" rest)
    /\ parse_decimal accountNumber = Some randomNumber
    /\ lastFourDigits_validator (slice_last 4 accountNumber) = true.
Proof.
  destruct (readUIntBE_six randomBytes Hsix) as (n & En & Hn).
  pose proof (length_Number_toString n Hn) as Hlen.
  set (s := Number_toString n) in *.
  assert (Hpad : String.length (padStart 16 "0" s) = 16%nat).
  { unfold padStart. rewrite string_length_app, length_repeat_char. lia. }
  assert (Eacct : slice_to 16 (padStart 16 "0" s) = padStart 16 "0" s).
  { apply substring_whole. lia. }
  assert (Hdigits : all_chars is_digit (padStart 16 "0" s) = true).
  { unfold padStart. rewrite all_chars_app.
    rewrite all_chars_repeat_char by reflexivity.
    apply digits_string_of_uint. }
  exists (padStart 16 "0" s), n.
  split; [unfold generateAccountNumber; rewrite En; fold s; rewrite Eacct;
          reflexivity|].
  split; [exact En|]. split; [exact Hn|]. split; [exact Hpad|].
  split; [exact Hdigits|]. split; [|split].
  - unfold padStart. destruct (16 - String.length s)%nat eqn:E; [lia|].
    simpl. eauto.
  - unfold padStart, s, Number_toString. rewrite parse_padded.
    rewrite DecimalN.Unsigned.of_to. reflexivity.
  - unfold lastFourDigits_validator. apply test_spec.
    apply Matches_Times_Class. split.
    + unfold slice_last. apply length_substring. lia.
    + unfold slice_last. apply substring_chars. exact Hdigits.
Qed.

(** X15.  For every draw of six random bytes, [generateAccountNumber]
    returns a string of exactly sixteen decimal digits, the first of which
    is 0; read as a number it is the 48-bit number drawn, so that nothing is
    cut by the final slice and two different draws give two different
    account numbers; and its last four characters pass the validator of
    [lastFourDigits]. *)
Theorem generateAccountNumber_format (randomBytes : list Byte.byte)
  (Hsix : List.length randomBytes = 6%nat) :
  exists accountNumber randomNumber,
    generateAccountNumber randomBytes = Some accountNumber
    /\ readUIntBE randomBytes 0 6 = Some randomNumber
    /\ (randomNumber < 2 ^ 48)%N
    /\ String.length accountNumber = 16%nat
    /\ all_chars is_digit accountNumber = true
    /\ (exists rest, accountNumber = String "0" rest)
    /\ parse_decimal accountNumber = Some randomNumber
    /\ lastFourDigits_validator (slice_last 4 accountNumber) = true.
Proof. exact (account_number_of_draw randomBytes Hsix). Qed.

Lemma generateAccountNumber_format_witness :
  exists accountNumber randomNumber,
    generateAccountNumber [Byte.x12; Byte.x34; Byte.x56; Byte.x78; Byte.x9a; Byte.xbc]
    = Some accountNumber
    /\ readUIntBE [Byte.x12; Byte.x34; Byte.x56; Byte.x78; Byte.x9a; Byte.xbc] 0 6
       = Some randomNumber
    /\ (randomNumber < 2 ^ 48)%N
    /\ String.length accountNumber = 16%nat
    /\ all_chars is_digit accountNumber = true
    /\ (exists rest, accountNumber = String "0" rest)
    /\ parse_decimal accountNumber = Some randomNumber
    /\ lastFourDigits_validator (slice_last 4 accountNumber) = true.
Proof.
  apply (generateAccountNumber_format
           [Byte.x12; Byte.x34; Byte.x56; Byte.x78; Byte.x9a; Byte.xbc]).
  reflexivity.
Defined.

Example account_number_of_a_draw :
  generateAccountNumber [Byte.x12; Byte.x34; Byte.x56; Byte.x78; Byte.x9a; Byte.xbc]
  = Some "0020015998343868"
  /\ generateAccountNumber [Byte.x00; Byte.x00; Byte.x00; Byte.x00; Byte.x00; Byte.x00]
     = Some "0000000000000000"
  /\ generateAccountNumber [Byte.xff; Byte.xff; Byte.xff; Byte.xff; Byte.xff; Byte.xff]
     = Some "0281474976710655"
  /\ generateAccountNumber [Byte.x12; Byte.x34] = None.
Proof. repeat split. Qed.

Lemma read_bytes_inj (l1 : list Byte.byte) :
  forall (l2 : list Byte.byte) (acc1 acc2 : N),
    List.length l1 = List.length l2 ->
    fold_left (fun acc b => acc * 256 + Byte.to_N b)%N l1 acc1
    = fold_left (fun acc b => acc * 256 + Byte.to_N b)%N l2 acc2 ->
    acc1 = acc2 /\ l1 = l2.
Proof.
  induction l1 as [|b1 r1 IH]; intros [|b2 r2] acc1 acc2 Hl H;
    try discriminate.
  - simpl in H. auto.
  - simpl in Hl, H. injection Hl as Hl.
    destruct (IH r2 _ _ Hl H) as [Hacc ->].
    pose proof (Byte.to_N_bounded b1) as H1.
    pose proof (Byte.to_N_bounded b2) as H2.
    assert (Hb : Byte.to_N b1 = Byte.to_N b2) by lia.
    split; [lia|]. f_equal.
    pose proof (Byte.of_to_N b1) as E1. rewrite Hb, Byte.of_to_N in E1.
    congruence.
Qed.

(** X16.  Two different draws of six bytes give two different account
    numbers: the generator loses nothing of the 48 random bits. *)
Theorem generateAccountNumber_injective (draw1 draw2 : list Byte.byte)
  (H1 : List.length draw1 = 6%nat) (H2 : List.length draw2 = 6%nat)
  (Hne : draw1 <> draw2) :
  generateAccountNumber draw1 <> generateAccountNumber draw2.
Proof.
  intros E. apply Hne.
  destruct (account_number_of_draw draw1 H1)
    as (a1 & n1 & Ea1 & R1 & _ & _ & _ & _ & P1 & _).
  destruct (account_number_of_draw draw2 H2)
    as (a2 & n2 & Ea2 & R2 & _ & _ & _ & _ & P2 & _).
  assert (a1 = a2) by congruence. subst a2.
  assert (n1 = n2) by congruence. subst n2.
  unfold readUIntBE in R1, R2. rewrite H1 in R1. rewrite H2 in R2.
  change ((1 <=? 6) && (6 <=? 6) && (0 + 6 <=? 6))%nat with true in R1, R2.
  change (skipn 0 draw1) with draw1 in R1.
  change (skipn 0 draw2) with draw2 in R2.
  rewrite firstn_all2 in R1, R2 by lia.
  apply (read_bytes_inj draw1 draw2 0%N 0%N); congruence.
Qed.

Lemma generateAccountNumber_injective_witness :
  generateAccountNumber
    [Byte.x12; Byte.x34; Byte.x56; Byte.x78; Byte.x9a; Byte.xbd]
  = Some "0020015998343869"
  /\ generateAccountNumber
       [Byte.x12; Byte.x34; Byte.x56; Byte.x78; Byte.x9a; Byte.xbc]
     <> generateAccountNumber
          [Byte.x12; Byte.x34; Byte.x56; Byte.x78; Byte.x9a; Byte.xbd].
Proof.
  split; [reflexivity|].
  apply generateAccountNumber_injective;
    [reflexivity|reflexivity|discriminate].
Defined.

(** * The route that creates a transaction *)

Lemma js_is_eq (v : JsVal) (s : string) : js_is v s = true <-> v = JStr s.
Proof.
  destruct v; simpl; try (split; [discriminate|intros H; discriminate]).
  rewrite String.eqb_eq. split; [intros ->; reflexivity|].
  intros H. injection H as ->. reflexivity.
Qed.

Lemma post_transaction_try_inv (body : CreateParams) (w w' : World)
  (r : Outcome Response) :
  fresh_ids w ->
  post_transaction_try body w = (r, w') ->
  debitCards w' = debitCards w
  /\ match r with
     | Return res =>
         exists t,
           res = {| res_status := 200;
                    res_body := TransactionBody (_filter t) |}
           /\ status t = Pending
           /\ (type t = Debit /\ subtype t = Credit
               \/ type t = Withdrawal /\ subtype t = Purchase)
           /\ transactions w'
              = (if p_skipSave body then transactions w
                 else transactions w ++ [t])%list
     | Throw e => client_or_server_error e /\ transactions w' = transactions w
     end.
Proof.
  intros F H. unfold post_transaction_try in H.
  on_guard H.
  2:{ split; [reflexivity|]. split; [|reflexivity]. eexists _, 400. auto. }
  rename Hc into G1.
  on_guard H.
  2:{ split; [reflexivity|]. split; [|reflexivity]. eexists _, 400. auto. }
  rename Hc into G2.
  apply bind_inv in H as [(t & w1 & Hcr & H)|(e & Hcr & ->)].
  - apply ret_inv in H as (-> & ->).
    apply create_inv in Hcr
      as (Hc & _ & (Hty & _) & (card & _ & _ & Et) & _ & _ & Htx).
    split; [exact Hc|]. exists t. split; [reflexivity|].
    split; [rewrite Et; reflexivity|]. split.
    + destruct Hty as [(Ety & _)|(Ety & _)]; rewrite Ety in G1, G2;
        simpl in G1, G2.
      * apply negb_false_iff, js_is_eq in G1. left.
        rewrite Et. simpl. rewrite Ety, G1. auto.
      * apply negb_false_iff, js_is_eq in G2. right.
        rewrite Et. simpl. rewrite Ety, G2. auto.
    + destruct (p_skipSave body); [exact Htx|].
      destruct Htx as [_ Htx].
      rewrite (find_transaction_fresh w (nextId w) F (le_n _)) in Htx.
      rewrite Htx, Et. reflexivity.
  - pose proof (throws_create body w (Throw e) w' Hcr) as He.
    apply create_inv in Hcr as (Hc & _ & _ & Ht). auto.
Qed.

(** X17.  Whatever the request body and the faults of the database, the
    route that creates a transaction answers 200, 400 or 500 and never
    changes a card. It answers 200 only for a debit of subtype credit or a
    withdrawal of subtype purchase, created pending and, unless the body
    carries [skipSave], stored: no fee, transfer, refund, interest or
    cashback can be posted. When it answers anything else, nothing was
    stored. *)
Theorem post_transaction_creates_credits_and_purchases (body : CreateParams)
  (w : World) (F : fresh_ids w) :
  let res := fst (post_transaction body w) in
  let w' := snd (post_transaction body w) in
  debitCards w' = debitCards w
  /\ (res_status res = 200 \/ res_status res = 400 \/ res_status res = 500)
  /\ (res_status res = 200 ->
      exists t,
        res_body res = TransactionBody (_filter t)
        /\ status t = Pending
        /\ (type t = Debit /\ subtype t = Credit
            \/ type t = Withdrawal /\ subtype t = Purchase)
        /\ transactions w'
           = (if p_skipSave body then transactions w
              else transactions w ++ [t])%list)
  /\ (res_status res <> 200 -> transactions w' = transactions w).
Proof.
  unfold post_transaction, respond.
  destruct (post_transaction_try body w) as [r w1] eqn:E.
  apply post_transaction_try_inv in E as (Hc & Hr); [|exact F].
  destruct r as [res|[he|what]].
  - destruct Hr as (t & -> & Hst & Hty & Htx). cbn [fst snd res_status res_body].
    split; [exact Hc|]. split; [auto|]. split; [eauto 10|].
    intros Hn. contradiction.
  - destruct Hr as ((msg & c & Ee & Hcode) & Htx). injection Ee as ->.
    cbn [fst snd res_status res_body code].
    split; [exact Hc|]. split; [tauto|]. split; [|auto].
    intros H200. destruct Hcode; lia.
  - destruct Hr as ((msg & c & Ee & _) & _). discriminate.
Qed.

Lemma post_transaction_creates_credits_and_purchases_witness :
  let res := fst (post_transaction fee_request funded_world) in
  let w' := snd (post_transaction fee_request funded_world) in
  debitCards w' = debitCards funded_world
  /\ (res_status res = 200 \/ res_status res = 400 \/ res_status res = 500)
  /\ (res_status res = 200 ->
      exists t,
        res_body res = TransactionBody (_filter t)
        /\ status t = Pending
        /\ (type t = Debit /\ subtype t = Credit
            \/ type t = Withdrawal /\ subtype t = Purchase)
        /\ transactions w'
           = (if p_skipSave fee_request then transactions funded_world
              else transactions funded_world ++ [t])%list)
  /\ (res_status res <> 200 -> transactions w' = transactions funded_world).
Proof.
  exact (post_transaction_creates_credits_and_purchases fee_request
           funded_world fresh_ids_funded_world).
Defined.

Example post_a_credit_and_a_fee :
  res_status (fst (post_transaction (debit_credit_params (JNum (Fin 10)))
                     funded_world)) = 200
  /\ res_status (fst (post_transaction fee_request funded_world)) = 400.
Proof. split; reflexivity. Qed.

(** * Balances of an account with a history *)



(** * The order in which the engine walks the pending transactions *)

Lemma insert_by_date_sorted (t : Transaction) (l : list Transaction) :
  Sorted.StronglySorted (fun a b => (date a <= date b)%Z) l ->
  Sorted.StronglySorted (fun a b => (date a <= date b)%Z) (insert_by_date t l).
Proof.
  induction l as [|x r IH]; intros S; simpl.
  - constructor; constructor.
  - inversion S as [|? ? Sr Hx]; subst.
    destruct (date t <? date x)%Z eqn:E.
    + apply Z.ltb_lt in E. constructor; [exact S|].
      constructor; [lia|]. rewrite Forall_forall in *. intros y Hy.
      specialize (Hx y Hy). lia.
    + apply Z.ltb_ge in E. constructor; [exact (IH Sr)|].
      rewrite Forall_forall in *. intros y Hy.
      apply (Permutation_in _ (insert_by_date_perm t r)) in Hy.
      destruct Hy as [<-|Hy]; [exact E|exact (Hx y Hy)].
Qed.

Lemma sort_by_date_sorted (l : list Transaction) :
  Sorted.StronglySorted (fun a b => (date a <= date b)%Z) (sort_by_date l).
Proof.
  unfold sort_by_date.
  assert (G : forall acc,
            Sorted.StronglySorted (fun a b => (date a <= date b)%Z) acc ->
            Sorted.StronglySorted (fun a b => (date a <= date b)%Z)
              (fold_left (fun acc t => insert_by_date t acc) l acc)).
  { induction l as [|t r IH]; intros acc S; simpl; [exact S|].
    apply IH. apply insert_by_date_sorted. exact S. }
  apply G. constructor.
Qed.

(** The groups met so far are sorted and hold nothing later than [d]; their
    keys are distinct. *)
Lemma push_group_sorted (t : Transaction)
  (gs : list (ObjectId * list Transaction)) :
  (forall g, In g gs ->
     Sorted.StronglySorted (fun a b => (date a <= date b)%Z) (snd g)
     /\ Forall (fun a => (date a <= date t)%Z) (snd g)) ->
  forall g, In g (push_group t gs) ->
    Sorted.StronglySorted (fun a b => (date a <= date b)%Z) (snd g)
    /\ Forall (fun a => (date a <= date t)%Z) (snd g).
Proof.
  induction gs as [|[k ts] r IH]; intros H g Hg; simpl in Hg.
  - destruct Hg as [<-|[]]. simpl. split; repeat constructor. lia.
  - destruct (Nat.eqb k (_debitCard t)).
    + destruct Hg as [<-|Hg]; [|apply H; right; exact Hg]. simpl.
      destruct (H (k, ts) (or_introl eq_refl)) as [S Hle]. simpl in S, Hle.
      split.
      * clear - S Hle. induction ts as [|x ts IH]; simpl.
        { repeat constructor. }
        inversion S as [|? ? Sr Hx]; subst. inversion Hle; subst.
        constructor; [apply IH; assumption|].
        apply Forall_app. split; [exact Hx|]. repeat constructor. assumption.
      * apply Forall_app. split; [exact Hle|]. repeat constructor. lia.
    + destruct Hg as [<-|Hg]; [apply H; left; reflexivity|].
      apply IH; [|exact Hg]. intros g' Hg'. apply H. right. exact Hg'.
Qed.

Lemma push_group_keys (t : Transaction)
  (gs : list (ObjectId * list Transaction)) :
  NoDup (map fst gs) -> NoDup (map fst (push_group t gs))
  /\ forall k, In k (map fst (push_group t gs)) ->
       k = _debitCard t \/ In k (map fst gs).
Proof.
  induction gs as [|[k ts] r IH]; intros ND; simpl.
  - split; [repeat constructor; intros []|]. intros k [<-|[]]. auto.
  - inversion ND as [|? ? Hk ND']; subst.
    destruct (Nat.eqb k (_debitCard t)) eqn:E; simpl.
    + split; [exact ND|]. intros k' Hk'. auto.
    + destruct (IH ND') as [ND1 Hin]. split.
      * constructor; [|exact ND1]. intros Hk1.
        destruct (Hin k Hk1) as [->|Hk2]; [|contradiction].
        rewrite Nat.eqb_refl in E. discriminate.
      * intros k' [<-|Hk']; [auto|].
        destruct (Hin k' Hk') as [->|Hk2]; auto.
Qed.

Lemma group_by_card_sorted (l : list Transaction) :
  Sorted.StronglySorted (fun a b => (date a <= date b)%Z) l ->
  NoDup (map fst (group_by_card l))
  /\ forall g, In g (group_by_card l) ->
       Sorted.StronglySorted (fun a b => (date a <= date b)%Z) (snd g).
Proof.
  unfold group_by_card. intros S.
  assert (G : forall gs,
    NoDup (map fst gs) ->
    (forall g, In g gs ->
       Sorted.StronglySorted (fun a b => (date a <= date b)%Z) (snd g)
       /\ Forall (fun a => Forall (fun b => (date a <= date b)%Z) l) (snd g)) ->
    NoDup (map fst (fold_left (fun gs t => push_group t gs) l gs))
    /\ forall g, In g (fold_left (fun gs t => push_group t gs) l gs) ->
         Sorted.StronglySorted (fun a b => (date a <= date b)%Z) (snd g)).
  { induction S as [|t r Sr IH Ht]; intros gs ND H; simpl.
    - split; [exact ND|]. intros g Hg. apply H. exact Hg.
    - apply IH.
      + apply push_group_keys. exact ND.
      + intros g Hg.
        destruct (push_group_sorted t gs) with (g := g) as [Sg Hle];
          [|exact Hg|].
        * intros g' Hg'. destruct (H g' Hg') as [Sg' Hall].
          split; [exact Sg'|]. rewrite Forall_forall in *.
          intros a Ha. specialize (Hall a Ha). inversion Hall; assumption.
        * split; [exact Sg|]. rewrite Forall_forall in *. intros a Ha.
          specialize (Hle a Ha). rewrite Forall_forall. intros b Hb.
          specialize (Ht b Hb). lia. }
  apply G; [constructor|intros g []].
Qed.

(** X19.  The aggregation of [validatePending] hands every pending
    transaction to the loops exactly once and no other; it makes one group
    per card, never an empty one, each holding transactions of its card
    only, from the oldest to the newest. *)
Theorem pending_pipeline_walks_oldest_first (l : list Transaction) :
  let gs := pending_pipeline l in
  Permutation (List.concat (map snd gs)) (filter is_pending l)
  /\ NoDup (map fst gs)
  /\ forall g, In g gs ->
       snd g <> []
       /\ (forall t, In t (snd g) -> _debitCard t = fst g)
       /\ Sorted.StronglySorted (fun a b => (date a <= date b)%Z) (snd g).
Proof.
  intros gs. split; [apply pending_pipeline_perm|].
  destruct (group_by_card_sorted (sort_by_date (filter is_pending l))
              (sort_by_date_sorted _)) as [ND S].
  split; [exact ND|]. intros g Hg.
  destruct (pending_pipeline_well_grouped l g Hg) as [Hne Hkey].
  split; [exact Hne|]. split; [exact Hkey|]. exact (S g Hg).
Qed.
